(** * Multi-tenant namespace manager and stripe-aware I/O of versitygw

    A shallow embedding of
    - [auth/multi_tenant.go]       (quota guard, tenant path isolation),
    - [backend/lustre_enhanced.go] (stripe planner, parallel stripe read),
    - [backend/dynamic_backend.go] (per-user backend registry).

    Go's [int64] and [int] (64 bit) are integers of [Z] with the two's
    complement wrap-around written out ([wrap64]); [/] and [%] truncate
    towards zero ([Z.quot], [Z.rem]).  Go maps keyed by user id are
    [gmap string _]; slices written by index are lists with stdpp's
    lookup and insert. *)

From Stdlib Require Import ZArith Lia Ascii String.
From Stdlib Require DecimalString.
From stdpp Require Import base gmap strings list fin_maps.

Local Open Scope Z_scope.

(** ** 64-bit signed integers *)

Module Int64.

Definition modulus : Z := 2 ^ 64.
Definition min_int : Z := - 2 ^ 63.
Definition max_int : Z := 2 ^ 63 - 1.

Definition in_range (x : Z) : Prop := min_int <= x <= max_int.

(** Two's complement reduction of a mathematical integer to [int64]. *)
Definition wrap64 (x : Z) : Z := (x + 2 ^ 63) mod modulus - 2 ^ 63.

Definition add (a b : Z) : Z := wrap64 (a + b).
Definition sub (a b : Z) : Z := wrap64 (a - b).
Definition mul (a b : Z) : Z := wrap64 (a * b).
(** Go's [/] and [%] on integers: truncated division.  Division by zero
    is a run-time panic and is guarded by the callers of these. *)
Definition quo (a b : Z) : Z := wrap64 (Z.quot a b).
Definition rem (a b : Z) : Z := Z.rem a b.

End Int64.

(** ** Lexical path functions of Go's [path/filepath] (Unix)

    [isSubPath] and [GetUserBasePath] are written with [filepath.Rel],
    [filepath.Join], [filepath.IsAbs] and [filepath.HasPrefix].  These
    are the standard library's functions for the separator [/], read
    element by element. *)

Module Filepath.

Local Open Scope string_scope.

Definition Separator : ascii := "/"%char.

Definition IsPathSeparator (c : ascii) : bool := Ascii.eqb c Separator.

(** The path elements between separators: [strings.Split(path, "/")]. *)
Fixpoint split_sep (s : string) : list string :=
  match s with
  | EmptyString => [EmptyString]
  | String c r =>
      if IsPathSeparator c then EmptyString :: split_sep r
      else match split_sep r with
           | e :: es => String c e :: es
           | [] => [String c EmptyString]
           end
  end.

(** [strings.Join(elems, "/")]. *)
Definition join_sep (elems : list string) : string := String.concat "/" elems.

(** The write buffer of [Clean], element by element: the number of
    leading [..] elements that cannot be removed, and the real elements
    written after them, last one first. *)
Record lazybuf : Type := {
  dotdots : nat;
  elems : list string
}.

(** One turn of the loop of [Clean], on the path element it reads. *)
Definition clean_step (rooted : bool) (out : lazybuf) (e : string) : lazybuf :=
  if String.eqb e "" then out
  else if String.eqb e "." then out
  else if String.eqb e ".." then
    match elems out with
    | _ :: es => {| dotdots := dotdots out; elems := es |}
    | [] => if rooted then out
            else {| dotdots := S (dotdots out); elems := [] |}
    end
  else {| dotdots := dotdots out; elems := e :: elems out |}.

Definition IsAbs (path : string) : bool :=
  match path with
  | String c _ => IsPathSeparator c
  | EmptyString => false
  end.

(** [filepath.Clean] on Unix. *)
Definition Clean (path : string) : string :=
  if String.eqb path "" then "."
  else
    let rooted := IsAbs path in
    let out := foldl (clean_step rooted) {| dotdots := 0; elems := [] |}
                 (split_sep path) in
    let body := join_sep (replicate (dotdots out) ".." ++ rev (elems out)) in
    if rooted then String Separator body
    else if String.eqb body "" then "." else body.

(** [filepath.Join] on Unix. *)
Fixpoint Join (elem : list string) : string :=
  match elem with
  | [] => ""
  | e :: rest => if String.eqb e "" then Join rest else Clean (join_sep elem)
  end.

(** [strings.HasPrefix], which is what the deprecated
    [filepath.HasPrefix] is on Unix. *)
Definition HasPrefix (p prefix : string) : bool := String.prefix prefix p.

(** The first path element of [s] and what follows it (starting at the
    separator, if there is one). *)
Fixpoint span_elem (s : string) : string * string :=
  match s with
  | EmptyString => (EmptyString, EmptyString)
  | String c r =>
      if IsPathSeparator c then (EmptyString, s)
      else let '(e, rest) := span_elem r in (String c e, rest)
  end.

(** [if bi < bl { bi++ }]: step over the separator the scan stopped at. *)
Definition skip_sep (s : string) : string :=
  match s with
  | EmptyString => EmptyString
  | String _ r => r
  end.

(** [strings.Count(s, "/")]. *)
Fixpoint count_sep (s : string) : nat :=
  match s with
  | EmptyString => 0
  | String c r => if IsPathSeparator c then S (count_sep r) else count_sep r
  end.

(** The element-matching loop of [Rel] over what is left of [base] and
    [targ] ([base[b0:]], [targ[t0:]]).  It gives the base element at
    which the loop stopped ([base[b0:bi]]) and the two remainders. *)
Fixpoint rel_loop (fuel : nat) (base targ : string) : string * string * string :=
  match fuel with
  | O => (EmptyString, base, targ)
  | S fuel' =>
      if String.eqb base "" || String.eqb targ "" then (EmptyString, base, targ)
      else
        let '(be, brest) := span_elem base in
        let '(te, trest) := span_elem targ in
        if negb (String.eqb te be) then (be, base, targ)
        else rel_loop fuel' (skip_sep brest) (skip_sep trest)
  end.

Fixpoint repeat_up (seps : nat) : string :=
  match seps with
  | O => EmptyString
  | S n => "/.." ++ repeat_up n
  end.

(** [filepath.Rel] on Unix; [None] is the error return. *)
Definition Rel (basepath targpath : string) : option string :=
  let base := Clean basepath in
  let targ := Clean targpath in
  if String.eqb targ base then Some "."
  else
    let base := if String.eqb base "." then "" else base in
    if negb (Bool.eqb (IsAbs base) (IsAbs targ)) then None
    else
      let '(stop, brest, trest) := rel_loop (String.length base) base targ in
      if String.eqb stop ".." then None
      else if negb (String.eqb brest "") then
        Some (".." ++ repeat_up (count_sep brest)
                   ++ (if String.eqb trest "" then "" else String Separator trest))
      else Some trest.

End Filepath.

(** ** Tenant manager ([auth/multi_tenant.go]) *)

Module Auth.

Inductive error : Type :=
  | ErrUserStorageNotFound
  | ErrQuotaExceeded
  | ErrMountFailed
  | ErrUnmountFailed
  | ErrInvalidBackendType
  | ErrConfigNil
  | ErrNotEnabled
  | ErrAccessDenied.

(** [UserStorageConfig]; the backend-specific configuration map and the
    metadata map are opaque to every function modelled here. *)
Record UserStorageConfig : Type := {
  BackendType : string;
  StoragePath : string;
  Quota : Z;
  UsedSpace : Z;
  Mounted : bool
}.

Record MultiTenantConfig : Type := {
  Enabled : bool;
  DefaultBackendType : string;
  BasePath : string;
  DefaultQuota : Z
}.

Record DefaultMultiTenantManager : Type := {
  config : MultiTenantConfig;
  userConfigs : gmap string UserStorageConfig
}.

Definition GetUserStorageConfig (m : DefaultMultiTenantManager) (userID : string)
  : UserStorageConfig + error :=
  match userConfigs m !! userID with
  | None => inr ErrUserStorageNotFound
  | Some c => inl c
  end.

Definition validBackends : list string :=
  ["posix"; "cephfs"; "nfs"; "lustre"; "minio"; "rustfs"]%string.

(** The validation loop of [SetUserStorageConfig]. *)
Fixpoint is_valid_backend (ty : string) (l : list string) : bool :=
  match l with
  | [] => false
  | backend :: rest => if String.eqb ty backend then true else is_valid_backend ty rest
  end.

(** [SetUserStorageConfig]; a nil [config] pointer is [None]. *)
Definition SetUserStorageConfig (m : DefaultMultiTenantManager) (userID : string)
    (cfg : option UserStorageConfig) : DefaultMultiTenantManager * option error :=
  match cfg with
  | None => (m, Some ErrConfigNil)
  | Some c =>
      if is_valid_backend (BackendType c) validBackends
      then ({| config := config m; userConfigs := <[userID := c]> (userConfigs m) |}, None)
      else (m, Some ErrInvalidBackendType)
  end.

(** [CheckQuota]: [None] is the nil error. *)
Definition CheckQuota (m : DefaultMultiTenantManager) (userID : string)
    (additionalSize : Z) : option error :=
  match GetUserStorageConfig m userID with
  | inr e => Some e
  | inl c =>
      if Quota c =? 0 then None
      else if Int64.add (UsedSpace c) additionalSize >? Quota c
           then Some ErrQuotaExceeded
           else None
  end.

(** [UpdateUsedSpace]: the record is updated in place. *)
Definition UpdateUsedSpace (m : DefaultMultiTenantManager) (userID : string)
    (delta : Z) : DefaultMultiTenantManager * option error :=
  match GetUserStorageConfig m userID with
  | inr e => (m, Some e)
  | inl c =>
      let used := Int64.add (UsedSpace c) delta in
      let used := if used <? 0 then 0 else used in
      let c' := {| BackendType := BackendType c; StoragePath := StoragePath c;
                   Quota := Quota c; UsedSpace := used; Mounted := Mounted c |} in
      ({| config := config m; userConfigs := <[userID := c']> (userConfigs m) |}, None)
  end.

(** [GetUserBasePath]. *)
Definition GetUserBasePath (m : DefaultMultiTenantManager) (userID : string)
  : string + error :=
  if negb (Enabled (config m)) then inr ErrNotEnabled
  else inl (Filepath.Join [BasePath (config m); "users"; userID]%string).

(** [IsTenantIsolationEnabled], for the one implementation of the
    [MultiTenantManager] interface there is. *)
Definition IsTenantIsolationEnabled (m : DefaultMultiTenantManager) : bool :=
  Enabled (config m).

(** [isSubPath]. *)
Definition isSubPath (basePath path : string) : bool :=
  match Filepath.Rel basePath path with
  | None => false
  | Some relPath =>
      negb (Filepath.IsAbs relPath) && negb (Filepath.HasPrefix relPath "..")
  end.

(** [ValidateUserAccess]. *)
Definition ValidateUserAccess (userID resourcePath : string)
    (m : DefaultMultiTenantManager) : option error :=
  if negb (IsTenantIsolationEnabled m) then None
  else match GetUserBasePath m userID with
       | inr e => Some e
       | inl userBasePath =>
           if negb (isSubPath userBasePath resourcePath) then Some ErrAccessDenied
           else None
       end.

End Auth.

(** ** Outcomes of code that can panic or loop *)

Inductive outcome (A : Type) : Type :=
  | Returns (a : A)      (* the call returns [a] *)
  | Panics               (* a Go run-time panic *)
  | OutOfFuel.           (* the loop did not finish within the fuel given *)

Arguments Returns {A} a.
Arguments Panics {A}.
Arguments OutOfFuel {A}.

Definition obind {A B} (o : outcome A) (k : A -> outcome B) : outcome B :=
  match o with
  | Returns a => k a
  | Panics => Panics
  | OutOfFuel => OutOfFuel
  end.

Notation "'do' x <~ c1 ; c2" := (obind c1 (fun x => c2))
  (at level 10, x name, c1 at level 100, c2 at level 200).

(** ** Stripe planner and parallel stripe read ([backend/lustre_enhanced.go]) *)

Module Lustre.

Record LustreConfig : Type := {
  cfg_StripeCount : Z;
  cfg_StripeSize : Z
}.

Record LustreStripeInfo : Type := {
  StripeCount : Z;
  StripeSize : Z;
  StripeIndex : Z
}.

Record StripeChunk : Type := {
  Offset : Z;
  Size : Z;
  Stripe : Z
}.

Definition MiB : Z := 1024 * 1024.

(** [calculateOptimalStriping]. *)
Definition calculateOptimalStriping (lustreConfig : LustreConfig) (size : Z)
  : LustreStripeInfo :=
  let count :=
    if size <? 1 * 1024 * 1024 then 1
    else if size <? 100 * 1024 * 1024 then 2
    else if size <? 1 * 1024 * 1024 * 1024 then 4
    else 8 in
  let count :=
    if (cfg_StripeCount lustreConfig >? 0) && (count >? cfg_StripeCount lustreConfig)
    then cfg_StripeCount lustreConfig
    else count in
  {| StripeCount := count;
     StripeSize := cfg_StripeSize lustreConfig;
     StripeIndex := -1 |}.

(** The loop of [calculateStripeChunks], one iteration per unit of fuel.
    A zero [stripeSize] or [stripeCount] makes [/] or [%] panic. *)
Fixpoint stripeChunksLoop (fuel : nat) (stripeSize stripeCount : Z)
    (currentOffset remaining : Z) (chunks : list StripeChunk)
  : outcome (list StripeChunk) :=
  if remaining >? 0 then
    match fuel with
    | O => OutOfFuel
    | S fuel' =>
        if (stripeSize =? 0) || (stripeCount =? 0) then Panics
        else
          let stripeIndex := Int64.rem (Int64.quo currentOffset stripeSize) stripeCount in
          let stripeOffset := Int64.rem currentOffset stripeSize in
          let chunkSize := Int64.sub stripeSize stripeOffset in
          let chunkSize := if chunkSize >? remaining then remaining else chunkSize in
          stripeChunksLoop fuel' stripeSize stripeCount
            (Int64.add currentOffset chunkSize)
            (Int64.sub remaining chunkSize)
            (chunks ++ [{| Offset := currentOffset; Size := chunkSize;
                           Stripe := stripeIndex |}])
    end
  else Returns chunks.

(** [calculateStripeChunks]. *)
Definition calculateStripeChunks (fuel : nat) (offset size : Z)
    (stripeInfo : LustreStripeInfo) : outcome (list StripeChunk) :=
  stripeChunksLoop fuel (StripeSize stripeInfo) (StripeCount stripeInfo)
    offset size [].

(** Errors a positional read can return. *)
Inductive ioerror : Type :=
  | EOF                  (* io.EOF: fewer bytes than asked for *)
  | NegativeOffset       (* os.PathError: negative offset *)
  | Errno (code : Z).    (* any other error of the read system call *)

(** An open file, as far as this code uses it: [ReadAt b off] gives the
    buffer after the call, the number of bytes read and the error. *)
Record File : Type := {
  ReadAt : list Byte.byte -> Z -> list Byte.byte * Z * option ioerror
}.

(** [make([]byte, n)]: panics on a negative length. *)
Definition make_bytes (n : Z) : outcome (list Byte.byte) :=
  if n <? 0 then Panics else Returns (replicate (Z.to_nat n) Byte.x00).

(** [os.File.ReadAt] on a regular file whose content does not change
    during the call. *)
Definition os_ReadAt (content : list Byte.byte) (b : list Byte.byte) (off : Z)
  : list Byte.byte * Z * option ioerror :=
  if off <? 0 then (b, 0, Some NegativeOffset)
  else
    let got := take (length b) (drop (Z.to_nat off) content) in
    (got ++ drop (length got) b,
     Z.of_nat (length got),
     if (length got <? length b)%nat then Some EOF else None).

Definition os_File (content : list Byte.byte) : File :=
  {| ReadAt := os_ReadAt content |}.

(** The order in which the goroutines of one parallel read complete: a
    permutation of the chunk indices, chosen by the Go scheduler. *)
Record Scheduler : Type := {
  completion_order : nat -> list nat;
  completion_perm : forall n, completion_order n ≡ₚ seq 0 n
}.

(** The two pre-allocated slices [results] and [errors]. *)
Record Slots : Type := {
  results : list (list Byte.byte);
  errors : list (option ioerror)
}.

(** The body of the goroutine started for chunk [index]. *)
Definition readChunk (file : File) (chunks : list StripeChunk) (s : Slots)
    (index : nat) : outcome Slots :=
  match chunks !! index with
  | None => Returns s
  | Some c =>
      do data <~ make_bytes (Size c);
      let '(data, _, err) := ReadAt file data (Offset c) in
      Returns {| results := <[index := data]> (results s);
                 errors := <[index := err]> (errors s) |}
  end.

Fixpoint runGoroutines (file : File) (chunks : list StripeChunk)
    (order : list nat) (s : Slots) : outcome Slots :=
  match order with
  | [] => Returns s
  | index :: rest =>
      do s' <~ readChunk file chunks s index;
      runGoroutines file chunks rest s'
  end.

(** [for _, err := range errors { if err != nil { return nil, err } }] *)
Fixpoint firstError (errs : list (option ioerror)) : option ioerror :=
  match errs with
  | [] => None
  | Some e :: _ => Some e
  | None :: rest => firstError rest
  end.

(** [parallelReadStripes]: the result is the pair of the byte slice
    ([None] is the nil slice) and the error. *)
Definition parallelReadStripes (sched : Scheduler) (fuel : nat) (file : File)
    (offset size : Z) (stripeInfo : LustreStripeInfo)
  : outcome (option (list Byte.byte) * option ioerror) :=
  if StripeCount stripeInfo <=? 1 then
    do data <~ make_bytes size;
    let '(data, _, err) := ReadAt file data offset in
    Returns (Some data, err)
  else
    do chunks <~ calculateStripeChunks fuel offset size stripeInfo;
    let n := length chunks in
    do s <~ runGoroutines file chunks (completion_order sched n)
           {| results := replicate n []; errors := replicate n None |};
    match firstError (errors s) with
    | Some err => Returns (None, Some err)
    | None => Returns (Some (concat (results s)), None)
    end.

End Lustre.

(** ** Per-user backend registry ([backend/dynamic_backend.go]) *)

Module Backend.

Local Open Scope string_scope.

(** *** The operating system and the backend constructors

    Everything the registry asks of its collaborators is an [event]; the
    [oracle] decides from the history whether the call succeeds. *)

Inductive event : Type :=
  | MkdirAll (path : string)               (* os.MkdirAll(path, 0755) *)
  | Exec (argv : list string)              (* exec.CommandContext(..).Run *)
  | PosixNew (root : string)               (* posix.New(root, meta, opts) *)
  | S3ProxyNew (endpoint region metaBucket : string).   (* s3proxy.New(..) *)

Record World : Type := {
  oracle : list event -> event -> bool;
  trace : list event
}.

Definition call (ev : event) (w : World) : bool * World :=
  (oracle w (trace w) ev, {| oracle := oracle w; trace := trace w ++ [ev] |}).

(** Backend handles. *)
Inductive Backend : Type :=
  | PosixBackend (root : string)
  | S3ProxyBackend (endpoint region metaBucket : string)
  | LustreEnhancedBackend (backend : Backend) (lustreConfig : Lustre.LustreConfig).

Inductive error : Type :=
  | ErrManager (e : Auth.error)            (* error of the tenant manager *)
  | ErrCall (ev : event)                   (* error of a failed external call *)
  | ErrRustFS                              (* "RustFS backend not implemented yet" *)
  | ErrUnsupported (backendType : string)  (* "unsupported backend type: %s" *)
  | ErrWrap (msg : string) (e : error).    (* fmt.Errorf(msg + ": %w", e) *)

Inductive BackendStatus : Type :=
  | BackendStatusPending
  | BackendStatusMounting
  | BackendStatusReady
  | BackendStatusError
  | BackendStatusUnmounting
  | BackendStatusUnmounted.

(** [UserBackendConfig], without the opaque configuration map and the two
    time stamps, which nothing below reads. *)
Record UserBackendConfig : Type := {
  UserID : string;
  BackendType : string;
  MountPoint : string;
  Quota : Z;
  UsedSpace : Z;
  Status : BackendStatus
}.

Definition with_status (c : UserBackendConfig) (s : BackendStatus) : UserBackendConfig :=
  {| UserID := UserID c; BackendType := BackendType c; MountPoint := MountPoint c;
     Quota := Quota c; UsedSpace := UsedSpace c; Status := s |}.

Record DynamicBackendConfig : Type := {
  BaseMountPath : string;
  DefaultBackend : string
}.

Record CephFSConfig : Type := {
  ceph_MonitorAddresses : list string;
  ceph_Username : string;
  ceph_SecretKey : string;
  ceph_FileSystem : string;
  ceph_Path : string;
  ceph_Options : list string
}.

Record NFSConfig : Type := {
  nfs_ServerAddress : string;
  nfs_ExportPath : string;
  nfs_Version : string;
  nfs_Options : list string
}.

Record LustreMountConfig : Type := {
  lustre_MGSNodes : list string;
  lustre_FileSystem : string;
  lustre_StripeCount : Z;
  lustre_StripeSize : Z;
  lustre_Options : list string
}.

Record MinIOConfig : Type := {
  minio_Endpoint : string;
  minio_AccessKey : string;
  minio_SecretKey : string;
  minio_Region : string;
  minio_BucketPrefix : string;
  minio_SSL : bool;
  minio_UsePathStyle : bool
}.

(** [mapToStruct] returns nil without touching its target, so every
    typed configuration is the zero value it was allocated with. *)
Definition zeroCephFSConfig : CephFSConfig :=
  {| ceph_MonitorAddresses := []; ceph_Username := ""; ceph_SecretKey := "";
     ceph_FileSystem := ""; ceph_Path := ""; ceph_Options := [] |}.
Definition zeroNFSConfig : NFSConfig :=
  {| nfs_ServerAddress := ""; nfs_ExportPath := ""; nfs_Version := "";
     nfs_Options := [] |}.
Definition zeroLustreConfig : LustreMountConfig :=
  {| lustre_MGSNodes := []; lustre_FileSystem := ""; lustre_StripeCount := 0;
     lustre_StripeSize := 0; lustre_Options := [] |}.
Definition zeroMinIOConfig : MinIOConfig :=
  {| minio_Endpoint := ""; minio_AccessKey := ""; minio_SecretKey := "";
     minio_Region := ""; minio_BucketPrefix := ""; minio_SSL := false;
     minio_UsePathStyle := false |}.

(** [DynamicBackendManager]; the mutex is modelled where callers run
    concurrently (module [Concurrent]). *)
Record DynamicBackendManager : Type := {
  userBackends : gmap string Backend;
  userConfigs : gmap string UserBackendConfig;
  mountPoints : gmap string string;
  multiTenantManager : Auth.DefaultMultiTenantManager;
  baseConfig : DynamicBackendConfig
}.

Definition NewDynamicBackendManager (cfg : DynamicBackendConfig)
    (mtManager : Auth.DefaultMultiTenantManager) : DynamicBackendManager :=
  {| userBackends := ∅; userConfigs := ∅; mountPoints := ∅;
     multiTenantManager := mtManager; baseConfig := cfg |}.

Definition set_userBackends (dm : DynamicBackendManager) (m : gmap string Backend) :=
  {| userBackends := m; userConfigs := userConfigs dm; mountPoints := mountPoints dm;
     multiTenantManager := multiTenantManager dm; baseConfig := baseConfig dm |}.
Definition set_userConfigs (dm : DynamicBackendManager) (m : gmap string UserBackendConfig) :=
  {| userBackends := userBackends dm; userConfigs := m; mountPoints := mountPoints dm;
     multiTenantManager := multiTenantManager dm; baseConfig := baseConfig dm |}.
Definition set_mountPoints (dm : DynamicBackendManager) (m : gmap string string) :=
  {| userBackends := userBackends dm; userConfigs := userConfigs dm; mountPoints := m;
     multiTenantManager := multiTenantManager dm; baseConfig := baseConfig dm |}.
Definition set_multiTenantManager (dm : DynamicBackendManager)
    (m : Auth.DefaultMultiTenantManager) :=
  {| userBackends := userBackends dm; userConfigs := userConfigs dm;
     mountPoints := mountPoints dm; multiTenantManager := m;
     baseConfig := baseConfig dm |}.

(** [config.Status = s] through the pointer stored in [userConfigs]. *)
Definition set_status (dm : DynamicBackendManager) (userID : string)
    (s : BackendStatus) : DynamicBackendManager :=
  match userConfigs dm !! userID with
  | Some c => set_userConfigs dm (<[userID := with_status c s]> (userConfigs dm))
  | None => dm
  end.

(** [createPosixBackend]. *)
Definition createPosixBackend (config : UserBackendConfig) (w : World)
  : (Backend + error) * World :=
  let '(ok, w) := call (MkdirAll (MountPoint config)) w in
  if negb ok then
    (inr (ErrWrap "failed to create mount point" (ErrCall (MkdirAll (MountPoint config)))), w)
  else
    let '(ok, w) := call (PosixNew (MountPoint config)) w in
    if ok then (inl (PosixBackend (MountPoint config)), w)
    else (inr (ErrCall (PosixNew (MountPoint config))), w).

(** [executeMount]. *)
Definition executeMount (cmdArgs : list string) (w : World) : option error * World :=
  let '(ok, w) := call (Exec cmdArgs) w in
  if ok then (None, w) else (Some (ErrWrap "mount failed" (ErrCall (Exec cmdArgs))), w).

Definition strings_Join (l : list string) (sep : string) : string := String.concat sep l.

(** Go's [append(s, xs...)]. *)
Definition append {A} (s xs : list A) : list A := (s ++ xs)%list.

(** [mountCephFS]. *)
Definition mountCephFS (config : CephFSConfig) (mountPoint : string) (w : World)
  : option error * World :=
  let '(ok, w) := call (MkdirAll mountPoint) w in
  if negb ok then (Some (ErrCall (MkdirAll mountPoint)), w)
  else
    let cmd := ["mount"; "-t"; "ceph"] in
    let cmd :=
      if (0 <? length (ceph_MonitorAddresses config))%nat
      then append cmd [strings_Join (ceph_MonitorAddresses config) "," ++ ":" ++ ceph_Path config]
      else cmd in
    let cmd := append cmd [mountPoint] in
    let cmd :=
      if (0 <? length (ceph_Options config))%nat || negb (String.eqb (ceph_Username config) "")
      then
        let opts := [] in
        let opts := if negb (String.eqb (ceph_Username config) "")
                    then append opts ["name=" ++ ceph_Username config] else opts in
        let opts := if negb (String.eqb (ceph_SecretKey config) "")
                    then append opts ["secret=" ++ ceph_SecretKey config] else opts in
        let opts := append opts (ceph_Options config) in
        if (0 <? length opts)%nat then append cmd ["-o"; strings_Join opts ","] else cmd
      else cmd in
    executeMount cmd w.

(** [mountNFS]. *)
Definition mountNFS (config : NFSConfig) (mountPoint : string) (w : World)
  : option error * World :=
  let '(ok, w) := call (MkdirAll mountPoint) w in
  if negb ok then (Some (ErrCall (MkdirAll mountPoint)), w)
  else
    let nfsType := if String.eqb (nfs_Version config) "nfs4" then "nfs4" else "nfs" in
    let cmd := ["mount"; "-t"; nfsType] in
    let source := nfs_ServerAddress config ++ ":" ++ nfs_ExportPath config in
    let cmd := append cmd [source; mountPoint] in
    let cmd := if (0 <? length (nfs_Options config))%nat
               then append cmd ["-o"; strings_Join (nfs_Options config) ","] else cmd in
    executeMount cmd w.

(** [mountLustre]. *)
Definition mountLustre (config : LustreMountConfig) (mountPoint : string) (w : World)
  : option error * World :=
  let '(ok, w) := call (MkdirAll mountPoint) w in
  if negb ok then (Some (ErrCall (MkdirAll mountPoint)), w)
  else
    let cmd := ["mount"; "-t"; "lustre"] in
    let cmd :=
      if (0 <? length (lustre_MGSNodes config))%nat
      then append cmd [strings_Join (lustre_MGSNodes config) "," ++ ":/" ++ lustre_FileSystem config]
      else cmd in
    let cmd := append cmd [mountPoint] in
    let cmd := if (0 <? length (lustre_Options config))%nat
               then append cmd ["-o"; strings_Join (lustre_Options config) ","] else cmd in
    executeMount cmd w.

(** [createCephFSBackend]. *)
Definition createCephFSBackend (dm : DynamicBackendManager)
    (config : UserBackendConfig) (w : World)
  : (Backend + error) * DynamicBackendManager * World :=
  let cephConfig := zeroCephFSConfig in
  let '(err, w) := mountCephFS cephConfig (MountPoint config) w in
  match err with
  | Some e => (inr (ErrWrap "failed to mount CephFS" e), dm, w)
  | None =>
      let dm := set_mountPoints dm (<[UserID config := MountPoint config]> (mountPoints dm)) in
      let '(r, w) := createPosixBackend config w in
      (r, dm, w)
  end.

(** [createNFSBackend]. *)
Definition createNFSBackend (dm : DynamicBackendManager)
    (config : UserBackendConfig) (w : World)
  : (Backend + error) * DynamicBackendManager * World :=
  let nfsConfig := zeroNFSConfig in
  let '(err, w) := mountNFS nfsConfig (MountPoint config) w in
  match err with
  | Some e => (inr (ErrWrap "failed to mount NFS" e), dm, w)
  | None =>
      let dm := set_mountPoints dm (<[UserID config := MountPoint config]> (mountPoints dm)) in
      let '(r, w) := createPosixBackend config w in
      (r, dm, w)
  end.

(** [createLustreEnhancedBackend]. *)
Definition createLustreEnhancedBackend (config : UserBackendConfig)
    (lustreConfig : LustreMountConfig) (w : World) : (Backend + error) * World :=
  let '(ok, w) := call (PosixNew (MountPoint config)) w in
  if ok then
    (inl (LustreEnhancedBackend (PosixBackend (MountPoint config))
            {| Lustre.cfg_StripeCount := lustre_StripeCount lustreConfig;
               Lustre.cfg_StripeSize := lustre_StripeSize lustreConfig |}), w)
  else (inr (ErrCall (PosixNew (MountPoint config))), w).

(** [createLustreBackend]. *)
Definition createLustreBackend (dm : DynamicBackendManager)
    (config : UserBackendConfig) (w : World)
  : (Backend + error) * DynamicBackendManager * World :=
  let lustreConfig := zeroLustreConfig in
  let '(err, w) := mountLustre lustreConfig (MountPoint config) w in
  match err with
  | Some e => (inr (ErrWrap "failed to mount Lustre" e), dm, w)
  | None =>
      let dm := set_mountPoints dm (<[UserID config := MountPoint config]> (mountPoints dm)) in
      let '(r, w) := createLustreEnhancedBackend config lustreConfig w in
      (r, dm, w)
  end.

(** [createMinIOBackend]. *)
Definition createMinIOBackend (config : UserBackendConfig) (w : World)
  : (Backend + error) * World :=
  let minioConfig := zeroMinIOConfig in
  let metaBucket := minio_BucketPrefix minioConfig ++ "-meta-" ++ UserID config in
  let ev := S3ProxyNew (minio_Endpoint minioConfig) (minio_Region minioConfig) metaBucket in
  let '(ok, w) := call ev w in
  if ok then
    (inl (S3ProxyBackend (minio_Endpoint minioConfig) (minio_Region minioConfig) metaBucket), w)
  else (inr (ErrCall ev), w).

(** [createRustFSBackend]. *)
Definition createRustFSBackend (config : UserBackendConfig) : Backend + error :=
  inr ErrRustFS.

(** [createBackendByType]. *)
Definition createBackendByType (dm : DynamicBackendManager)
    (config : UserBackendConfig) (w : World)
  : (Backend + error) * DynamicBackendManager * World :=
  if String.eqb (BackendType config) "posix" then
    let '(r, w) := createPosixBackend config w in (r, dm, w)
  else if String.eqb (BackendType config) "cephfs" then createCephFSBackend dm config w
  else if String.eqb (BackendType config) "nfs" then createNFSBackend dm config w
  else if String.eqb (BackendType config) "lustre" then createLustreBackend dm config w
  else if String.eqb (BackendType config) "minio" then
    let '(r, w) := createMinIOBackend config w in (r, dm, w)
  else if String.eqb (BackendType config) "rustfs" then
    (createRustFSBackend config, dm, w)
  else (inr (ErrUnsupported (BackendType config)), dm, w).

(** [createDefaultUserConfig]. *)
Definition createDefaultUserConfig (dm : DynamicBackendManager) (userID : string)
  : option error * DynamicBackendManager :=
  match Auth.GetUserBasePath (multiTenantManager dm) userID with
  | inr e => (Some (ErrManager e), dm)
  | inl basePath =>
      let userPath := Filepath.Join [basePath; "storage"] in
      let defaultConfig :=
        {| Auth.BackendType := DefaultBackend (baseConfig dm);
           Auth.StoragePath := userPath;
           Auth.Quota := 0;
           Auth.UsedSpace := 0;
           Auth.Mounted := false |} in
      let '(mt, err) :=
        Auth.SetUserStorageConfig (multiTenantManager dm) userID (Some defaultConfig) in
      (option_map ErrManager err, set_multiTenantManager dm mt)
  end.

(** The part of [createUserBackend] that runs once the map has been
    re-checked under the write lock and holds no handle for the user.
    [storageConfig, _ = GetUserStorageConfig(userID)] leaves a nil
    pointer when the lookup fails, and reading through it panics. *)
Definition constructUserBackend (dm : DynamicBackendManager) (userID : string)
    (w : World) : outcome ((Backend + error) * DynamicBackendManager * World) :=
  let fetched :=
    match Auth.GetUserStorageConfig (multiTenantManager dm) userID with
    | inl storageConfig => Returns (inl storageConfig, dm)
    | inr _ =>
        let '(err, dm) := createDefaultUserConfig dm userID in
        match err with
        | Some e => Returns (inr e, dm)
        | None =>
            match Auth.GetUserStorageConfig (multiTenantManager dm) userID with
            | inl storageConfig => Returns (inl storageConfig, dm)
            | inr _ => Panics
            end
        end
    end in
  do fetched <~ fetched;
  match fetched with
  | (inr e, dm) =>
      Returns (inr (ErrWrap ("failed to create default config for user " ++ userID) e), dm, w)
  | (inl storageConfig, dm) =>
      let userConfig :=
        {| UserID := userID;
           BackendType := Auth.BackendType storageConfig;
           MountPoint := Auth.StoragePath storageConfig;
           Quota := Auth.Quota storageConfig;
           UsedSpace := Auth.UsedSpace storageConfig;
           Status := BackendStatusPending |} in
      let dm := set_userConfigs dm (<[userID := userConfig]> (userConfigs dm)) in
      let '(r, dm, w) := createBackendByType dm userConfig w in
      match r with
      | inr e =>
          let dm := set_status dm userID BackendStatusError in
          Returns (inr (ErrWrap ("failed to create backend for user " ++ userID) e), dm, w)
      | inl backend =>
          let dm := set_userBackends dm (<[userID := backend]> (userBackends dm)) in
          let dm := set_status dm userID BackendStatusReady in
          Returns (inl backend, dm, w)
      end
  end.

(** [createUserBackend], for a caller that holds the write lock. *)
Definition createUserBackend (dm : DynamicBackendManager) (userID : string)
    (w : World) : outcome ((Backend + error) * DynamicBackendManager * World) :=
  match userBackends dm !! userID with
  | Some backend => Returns (inl backend, dm, w)
  | None => constructUserBackend dm userID w
  end.

(** [updateLastAccessed] writes a time stamp only. *)
Definition updateLastAccessed (dm : DynamicBackendManager) (userID : string)
  : DynamicBackendManager := dm.

(** [GetUserBackend], one caller at a time. *)
Definition GetUserBackend (dm : DynamicBackendManager) (userID : string)
    (w : World) : outcome ((Backend + error) * DynamicBackendManager * World) :=
  match userBackends dm !! userID with
  | Some backend => Returns (inl backend, updateLastAccessed dm userID, w)
  | None => createUserBackend dm userID w
  end.

(** [UnmountUserBackend]. *)
Definition UnmountUserBackend (dm : DynamicBackendManager) (userID : string)
    (w : World) : option error * DynamicBackendManager * World :=
  match mountPoints dm !! userID with
  | None => (None, dm, w)
  | Some mountPoint =>
      let dm := set_status dm userID BackendStatusUnmounting in
      let cleanup (dm : DynamicBackendManager) :=
        let dm := set_userBackends dm (delete userID (userBackends dm)) in
        let dm := set_mountPoints dm (delete userID (mountPoints dm)) in
        set_status dm userID BackendStatusUnmounted in
      let '(ok, w) := call (Exec ["umount"; mountPoint]) w in
      if ok then (None, cleanup dm, w)
      else
        let '(ok, w) := call (Exec ["umount"; "-f"; mountPoint]) w in
        if ok then (None, cleanup dm, w)
        else (Some (ErrWrap ("failed to unmount " ++ mountPoint)
                      (ErrCall (Exec ["umount"; "-f"; mountPoint]))), dm, w)
  end.

End Backend.

(** ** Two concurrent callers of [GetUserBackend]

    Each caller runs [GetUserBackend] for the same user, one statement
    that touches the mutex or the shared maps per step; the scheduler
    picks which caller moves.  [sync.RWMutex] is its writer flag and its
    reader count: [Lock] waits until there is neither writer nor
    reader, [RLock] until there is no writer. *)

Module Concurrent.

Import Backend.

Inductive caller : Type := CallerA | CallerB.

Record RWMutex : Type := {
  writer : bool;
  readers : nat
}.

(** Where a caller stands in [GetUserBackend] / [createUserBackend] /
    [updateLastAccessed]. *)
Inductive pc : Type :=
  | AtRLock                               (* before dm.mu.RLock() *)
  | AtLookup                              (* before dm.userBackends[userID] *)
  | AtRUnlock (found : option Backend)    (* before dm.mu.RUnlock() *)
  | AtUpdateLock (b : Backend)            (* updateLastAccessed: before Lock() *)
  | AtUpdate (b : Backend)                (* updateLastAccessed: body and Unlock() *)
  | AtCreateLock                          (* createUserBackend: before Lock() *)
  | AtRecheck                             (* "Check again with write lock" *)
  | AtConstruct                           (* configuration, createBackendByType, store *)
  | AtUnlock (r : Backend + error)        (* deferred Unlock() *)
  | Done (r : Backend + error).           (* returned [r] *)

Record conf : Type := {
  dm : DynamicBackendManager;
  world : World;
  mu : RWMutex;
  pcA : pc;
  pcB : pc;
  (** How many times a caller went past the re-check and ran the
      construction sequence; not program state. *)
  started : nat
}.

Definition pc_of (t : caller) (c : conf) : pc :=
  match t with CallerA => pcA c | CallerB => pcB c end.

Definition set_pc (t : caller) (p : pc) (c : conf) : conf :=
  match t with
  | CallerA => {| dm := dm c; world := world c; mu := mu c; pcA := p;
                  pcB := pcB c; started := started c |}
  | CallerB => {| dm := dm c; world := world c; mu := mu c; pcA := pcA c;
                  pcB := p; started := started c |}
  end.

Definition set_mu (m : RWMutex) (c : conf) : conf :=
  {| dm := dm c; world := world c; mu := m; pcA := pcA c; pcB := pcB c;
     started := started c |}.

Definition can_RLock (m : RWMutex) : bool := negb (writer m).
Definition can_Lock (m : RWMutex) : bool := negb (writer m) && (readers m =? 0)%nat.
Definition do_RLock (m : RWMutex) : RWMutex := {| writer := writer m; readers := S (readers m) |}.
Definition do_RUnlock (m : RWMutex) : RWMutex := {| writer := writer m; readers := pred (readers m) |}.
Definition do_Lock (m : RWMutex) : RWMutex := {| writer := true; readers := readers m |}.
Definition do_Unlock (m : RWMutex) : RWMutex := {| writer := false; readers := readers m |}.

(** One step of caller [t]; [None] when the caller is blocked on the
    mutex, has returned, or the step panics. *)
Definition step (userID : string) (t : caller) (c : conf) : option conf :=
  match pc_of t c with
  | AtRLock =>
      if can_RLock (mu c) then Some (set_pc t AtLookup (set_mu (do_RLock (mu c)) c))
      else None
  | AtLookup => Some (set_pc t (AtRUnlock (userBackends (dm c) !! userID)) c)
  | AtRUnlock found =>
      Some (set_pc t (match found with
                      | Some b => AtUpdateLock b
                      | None => AtCreateLock
                      end) (set_mu (do_RUnlock (mu c)) c))
  | AtUpdateLock b =>
      if can_Lock (mu c) then Some (set_pc t (AtUpdate b) (set_mu (do_Lock (mu c)) c))
      else None
  | AtUpdate b =>
      Some (set_pc t (Done (inl b))
              {| dm := updateLastAccessed (dm c) userID; world := world c;
                 mu := do_Unlock (mu c); pcA := pcA c; pcB := pcB c;
                 started := started c |})
  | AtCreateLock =>
      if can_Lock (mu c) then Some (set_pc t AtRecheck (set_mu (do_Lock (mu c)) c))
      else None
  | AtRecheck =>
      Some (set_pc t (match userBackends (dm c) !! userID with
                      | Some b => AtUnlock (inl b)
                      | None => AtConstruct
                      end) c)
  | AtConstruct =>
      match constructUserBackend (dm c) userID (world c) with
      | Returns (r, dm', w') =>
          Some (set_pc t (AtUnlock r)
                  {| dm := dm'; world := w'; mu := mu c; pcA := pcA c; pcB := pcB c;
                     started := S (started c) |})
      | _ => None
      end
  | AtUnlock r => Some (set_pc t (Done r) (set_mu (do_Unlock (mu c)) c))
  | Done _ => None
  end.

(** Run a schedule; a caller that cannot move when picked is skipped. *)
Fixpoint run (userID : string) (sched : list caller) (c : conf) : conf :=
  match sched with
  | [] => c
  | t :: rest =>
      match step userID t c with
      | Some c' => run userID rest c'
      | None => run userID rest c
      end
  end.

(** Both callers are about to call [GetUserBackend]. *)
Definition initial (dm0 : DynamicBackendManager) (w0 : World) : conf :=
  {| dm := dm0; world := w0; mu := {| writer := false; readers := 0 |};
     pcA := AtRLock; pcB := AtRLock; started := 0 |}.

Definition result_of (p : pc) : option (Backend + error) :=
  match p with Done r => Some r | _ => None end.

End Concurrent.

(** ** Reference definitions and fixtures used by the statements *)

Module Spec.

Import Lustre.

(** The tiers of the stripe planner as the design states them. *)
Definition tier_of_size (size : Z) : Z :=
  if size <? MiB then 1
  else if size <? 100 * MiB then 2
  else if size <? 1024 * MiB then 4
  else 8.

(** The cap applies when a maximum is configured. *)
Definition capped (configuredMaxStripes count : Z) : Z :=
  if 0 <? configuredMaxStripes then Z.min count configuredMaxStripes else count.

(** A tenant manager that stores one record. *)
Definition manager_with (userID : string) (c : Auth.UserStorageConfig)
  : Auth.DefaultMultiTenantManager :=
  {| Auth.config := {| Auth.Enabled := true; Auth.DefaultBackendType := "posix";
                       Auth.BasePath := "/data"; Auth.DefaultQuota := 0 |};
     Auth.userConfigs := {[ userID := c ]} |}.

Definition record_100_90 : Auth.UserStorageConfig :=
  {| Auth.BackendType := "posix"; Auth.StoragePath := "/data/users/u1";
     Auth.Quota := 100; Auth.UsedSpace := 90; Auth.Mounted := false |}.

End Spec.

(** ** What the range decomposition has to satisfy *)

Module ChunkSpec.

Import Lustre.

(** [chunks] tile the byte range from [start] up to [stop]: the first
    chunk starts at [start], every chunk is non-empty and starts where
    the one before it ends, and the last one ends at [stop]. *)
Fixpoint tiles (start stop : Z) (chunks : list StripeChunk) : Prop :=
  match chunks with
  | [] => start = stop
  | c :: rest => Offset c = start /\ 0 < Size c /\ tiles (start + Size c) stop rest
  end.

Fixpoint total_size (chunks : list StripeChunk) : Z :=
  match chunks with
  | [] => 0
  | c :: rest => Size c + total_size rest
  end.

(** A chunk stays inside one stripe and carries that stripe's index. *)
Definition in_one_stripe (stripeSize stripeCount : Z) (c : StripeChunk) : Prop :=
  Offset c / stripeSize = (Offset c + Size c - 1) / stripeSize
  /\ Stripe c = (Offset c / stripeSize) mod stripeCount.

(** A range that ends one byte past the largest [int64]. *)
Definition wrapping_info : LustreStripeInfo :=
  {| StripeCount := 1; StripeSize := 1; StripeIndex := -1 |}.

End ChunkSpec.

(** ** Reference reads and schedulers *)

Module ReadSpec.

Import Lustre.

(** What the goroutine of one chunk reads: the buffer after
    [file.ReadAt(make([]byte, c.Size), c.Offset)] and the error. *)
Definition chunkRead (file : File) (c : StripeChunk) : list Byte.byte * option ioerror :=
  let '(data, _, err) := ReadAt file (replicate (Z.to_nat (Size c)) Byte.x00) (Offset c) in
  (data, err).

(** One direct positional read of [size] bytes at [offset]. *)
Definition directRead (file : File) (offset size : Z)
  : outcome (option (list Byte.byte) * option ioerror) :=
  do data <~ make_bytes size;
  let '(data, _, err) := ReadAt file data offset in
  Returns (Some data, err).

(** The bytes of the file in [offset, offset+size). *)
Definition range_bytes (content : list Byte.byte) (offset size : Z) : list Byte.byte :=
  take (Z.to_nat size) (drop (Z.to_nat offset) content).

(** Goroutines completing in the order they were started, and in the
    opposite order. *)
Definition in_order : Scheduler :=
  {| completion_order := fun n => seq 0 n;
     completion_perm := fun n => Permutation_refl (seq 0 n) |}.

Definition last_first : Scheduler :=
  {| completion_order := fun n => rev (seq 0 n);
     completion_perm := fun n => Permutation_sym (Permutation_rev (seq 0 n)) |}.

(** A file on which every read fails with an error that names the
    offset asked for. *)
Definition broken_file : File :=
  {| ReadAt := fun b off => (b, 0, Some (Errno off)) |}.

Definition two_by_four : LustreStripeInfo :=
  {| StripeCount := 2; StripeSize := 4; StripeIndex := -1 |}.

Definition ten_bytes : list Byte.byte :=
  [Byte.x30; Byte.x31; Byte.x32; Byte.x33; Byte.x34;
   Byte.x35; Byte.x36; Byte.x37; Byte.x38; Byte.x39].

End ReadSpec.

(** ** Registry fixtures *)

Module RegistrySpec.

Import Backend.

Local Open Scope string_scope.

(** Worlds in which every external call fails, or every one succeeds. *)
Definition failing_world : World :=
  {| oracle := fun _ _ => false; trace := [] |}.
Definition working_world : World :=
  {| oracle := fun _ _ => true; trace := [] |}.

(** A world in which only the first external call fails. *)
Definition flaky_world : World :=
  {| oracle := fun history _ => match history with [] => false | _ => true end;
     trace := [] |}.

Definition tenant_manager (backendType : string) : Auth.DefaultMultiTenantManager :=
  {| Auth.config := {| Auth.Enabled := true; Auth.DefaultBackendType := "posix";
                       Auth.BasePath := "/data"; Auth.DefaultQuota := 0 |};
     Auth.userConfigs :=
       {[ "t1" := {| Auth.BackendType := backendType;
                     Auth.StoragePath := "/data/users/t1/storage";
                     Auth.Quota := 0; Auth.UsedSpace := 0; Auth.Mounted := false |} ]} |}.

Definition base_config : DynamicBackendConfig :=
  {| BaseMountPath := "/data"; DefaultBackend := "posix" |}.

(** A registry that has mounted an NFS export for tenant [t1]. *)
Definition mounted_registry : DynamicBackendManager :=
  {| userBackends := {[ "t1" := PosixBackend "/data/users/t1/storage" ]};
     userConfigs :=
       {[ "t1" := {| UserID := "t1"; BackendType := "nfs";
                     MountPoint := "/data/users/t1/storage";
                     Quota := 0; UsedSpace := 0; Status := BackendStatusReady |} ]};
     mountPoints := {[ "t1" := "/data/users/t1/storage" ]};
     multiTenantManager := tenant_manager "nfs";
     baseConfig := base_config |}.

(** The two commands of a teardown. *)
Definition umount_cmd (mountPoint : string) : event := Exec ["umount"; mountPoint].
Definition umount_force_cmd (mountPoint : string) : event :=
  Exec ["umount"; "-f"; mountPoint].

(** A tenant is mounted when the registry tracks a mount point for it. *)
Definition not_mounted (dm : DynamicBackendManager) (userID : string) : Prop :=
  mountPoints dm !! userID = None.

End RegistrySpec.

(** ** Tenant isolation: what containment means *)

Module PathSpec.

Local Open Scope string_scope.

(** The elements of a path after lexical cleaning; what is between two
    separators in a row and the element [.] (which a cleaned path has
    only when it is [.] itself) name nothing. *)
Definition names (path : string) : list string :=
  filter (fun e => e <> "" /\ e <> ".") (Filepath.split_sep path).

Definition elements (path : string) : list string := names (Filepath.Clean path).

Fixpoint is_prefix (l1 l2 : list string) : bool :=
  match l1, l2 with
  | [], _ => true
  | x :: l1', y :: l2' => String.eqb x y && is_prefix l1' l2'
  | _ :: _, [] => false
  end.

(** [path] is [basePath] or lies below it: both are rooted or both are
    not, and the elements of [basePath] are the first elements of
    [path]. *)
Definition is_descendant (basePath path : string) : bool :=
  Bool.eqb (Filepath.IsAbs (Filepath.Clean basePath)) (Filepath.IsAbs (Filepath.Clean path))
  && is_prefix (elements basePath) (elements path).

Definition isolating_manager : Auth.DefaultMultiTenantManager :=
  {| Auth.config := {| Auth.Enabled := true; Auth.DefaultBackendType := "posix";
                       Auth.BasePath := "/data"; Auth.DefaultQuota := 0 |};
     Auth.userConfigs := ∅ |}.

End PathSpec.

(** ** What is observed of two concurrent callers *)

Module ConcurrentSpec.

Import Backend Concurrent.

(** The caller is between [Lock()] and [Unlock()]. *)
Definition holds_write (p : pc) : bool :=
  match p with
  | AtUpdate _ | AtRecheck | AtConstruct | AtUnlock _ => true
  | _ => false
  end.

(** The caller is between [RLock()] and [RUnlock()]. *)
Definition holds_read (p : pc) : nat :=
  match p with
  | AtLookup | AtRUnlock _ => 1
  | _ => 0
  end.

(** The handle a caller has found or is about to return. *)
Definition carries (p : pc) : option Backend :=
  match p with
  | AtRUnlock (Some b) | AtUpdateLock b | AtUpdate b
  | AtUnlock (inl b) | Done (inl b) => Some b
  | _ => None
  end.

(** The caller's construction has failed. *)
Definition failed (p : pc) : nat :=
  match p with
  | AtUnlock (inr _) | Done (inr _) => 1
  | _ => 0
  end.

Definition stored (dm : DynamicBackendManager) (userID : string) : nat :=
  match userBackends dm !! userID with Some _ => 1 | None => 0 end.

(** What holds in every state the two callers can reach. *)
Record invariant (userID : string) (c : conf) : Prop := {
  inv_writer : writer (mu c) = holds_write (pcA c) || holds_write (pcB c);
  inv_exclusive : holds_write (pcA c) && holds_write (pcB c) = false;
  inv_readers : readers (mu c) = (holds_read (pcA c) + holds_read (pcB c))%nat;
  inv_carries : forall t b, carries (pc_of t c) = Some b ->
                            userBackends (dm c) !! userID = Some b;
  inv_construct : forall t, pc_of t c = AtConstruct ->
                            userBackends (dm c) !! userID = None;
  inv_started_le : (started c <= failed (pcA c) + failed (pcB c) + stored (dm c) userID)%nat;
  inv_started_ge : (stored (dm c) userID <= started c)%nat
}.

(** The same state with the two callers exchanged. *)
Definition swap (c : conf) : conf :=
  {| dm := dm c; world := world c; mu := mu c; pcA := pcB c; pcB := pcA c;
     started := started c |}.

(** Caller A runs to its end, then caller B. *)
Definition A_then_B : list caller :=
  replicate 7 CallerA ++ replicate 7 CallerB.

(** Both callers miss on the fast path before either takes the write
    lock. *)
Definition both_miss_first : list caller :=
  [CallerA; CallerB; CallerA; CallerB; CallerA; CallerB]
  ++ replicate 4 CallerA ++ replicate 4 CallerB.

Definition posix_registry : DynamicBackendManager :=
  NewDynamicBackendManager RegistrySpec.base_config (RegistrySpec.tenant_manager "posix").

End ConcurrentSpec.

(** ** Namespaces and mounting of the tenant manager ([auth/multi_tenant.go])
    and the backend factory it is given ([cmd/versitygw/multitenant.go]) *)

Module Namespace.

Import Auth.

Local Open Scope string_scope.

(** Errors of the backend factory. *)
Inductive factory_error : Type :=
  | TemplateNotFound (name : string)     (* "backend template %s not found", wrapped *)
  | BackendDisabled (backendType : string)
  | NotImplemented (backendType : string) (* "... backend creation not implemented" *)
  | Unsupported (backendType : string)
  | OtherFactoryError (code : Z).

(** Errors of the functions below: the sentinel errors of the package,
    a factory error, or one of them wrapped by [fmt.Errorf("...: %w")]. *)
Inductive error : Type :=
  | Sentinel (e : Auth.error)
  | Factory (e : factory_error)
  | Wrap (msg : string) (e : error).

(** The [BackendFactory] interface; the configuration map it is handed
    and the backend it returns are not looked at by its caller. *)
Record BackendFactory : Type := {
  CreateBackend : string -> option factory_error
}.

Definition with_mounted (c : UserStorageConfig) (b : bool) : UserStorageConfig :=
  {| BackendType := BackendType c; StoragePath := StoragePath c; Quota := Quota c;
     UsedSpace := UsedSpace c; Mounted := b |}.

Definition with_path (c : UserStorageConfig) (p : string) : UserStorageConfig :=
  {| BackendType := BackendType c; StoragePath := p; Quota := Quota c;
     UsedSpace := UsedSpace c; Mounted := Mounted c |}.

Definition store (m : DefaultMultiTenantManager) (userID : string)
    (c : UserStorageConfig) : DefaultMultiTenantManager :=
  {| config := config m; userConfigs := <[userID := c]> (userConfigs m) |}.

(** [CreateUserNamespace]; a nil [config] is [None]. *)
Definition CreateUserNamespace (m : DefaultMultiTenantManager) (userID : string)
    (cfg : option UserStorageConfig) : DefaultMultiTenantManager * option error :=
  match GetUserBasePath m userID with
  | inr e => (m, Some (Sentinel e))
  | inl basePath =>
      let cfg :=
        match cfg with
        | Some c => c
        | None => {| BackendType := DefaultBackendType (config m);
                     StoragePath := basePath;
                     Quota := DefaultQuota (config m);
                     UsedSpace := 0;
                     Mounted := false |}
        end in
      let cfg := if String.eqb (StoragePath cfg) "" then with_path cfg basePath else cfg in
      (store m userID cfg, None)
  end.

(** [UnmountUserStorage]. *)
Definition UnmountUserStorage (m : DefaultMultiTenantManager) (userID : string)
  : DefaultMultiTenantManager * option error :=
  match GetUserStorageConfig m userID with
  | inr e => (m, Some (Sentinel e))
  | inl c =>
      if negb (Mounted c) then (m, None)
      else (store m userID (with_mounted c false), None)
  end.

(** [DeleteUserNamespace]. *)
Definition DeleteUserNamespace (m : DefaultMultiTenantManager) (userID : string)
  : DefaultMultiTenantManager * option error :=
  match UnmountUserStorage m userID with
  | (m, Some e) => (m, Some (Wrap "failed to unmount storage before deletion" e))
  | (m, None) =>
      ({| config := config m; userConfigs := delete userID (userConfigs m) |}, None)
  end.

(** [MountUserStorage]. *)
Definition MountUserStorage (factory : BackendFactory) (m : DefaultMultiTenantManager)
    (userID : string) : DefaultMultiTenantManager * option error :=
  match GetUserStorageConfig m userID with
  | inr e => (m, Some (Sentinel e))
  | inl c =>
      if Mounted c then (m, None)
      else
        match CreateBackend factory (BackendType c) with
        | Some e => (m, Some (Wrap "failed to create backend" (Factory e)))
        | None =>
            let ty := BackendType c in
            if String.eqb ty "posix" || String.eqb ty "cephfs"
               || String.eqb ty "nfs" || String.eqb ty "lustre"
            then (store m userID (with_mounted c true), None)
            else if String.eqb ty "minio" || String.eqb ty "rustfs"
            then (store m userID (with_mounted c true), None)
            else (m, Some (Sentinel ErrInvalidBackendType))
        end
  end.

(** [MultiTenantBackendFactory]: of each backend template only whether
    it is enabled matters here. *)
Record MultiTenantBackendFactory : Type := {
  backendTemplates : gmap string bool
}.

(** [MultiTenantBackendFactory.CreateBackend] with its five creation
    methods, each of which returns its "not implemented" error. *)
Definition factory_CreateBackend (f : MultiTenantBackendFactory) (backendType : string)
  : option factory_error :=
  match backendTemplates f !! backendType with
  | None => Some (TemplateNotFound backendType)
  | Some enabled =>
      if negb enabled then Some (BackendDisabled backendType)
      else if String.eqb backendType "posix" then Some (NotImplemented "POSIX")
      else if String.eqb backendType "cephfs" then Some (NotImplemented "CephFS")
      else if String.eqb backendType "nfs" then Some (NotImplemented "NFS")
      else if String.eqb backendType "lustre" then Some (NotImplemented "Lustre")
      else if String.eqb backendType "minio" then Some (NotImplemented "MinIO")
      else Some (Unsupported backendType)
  end.

Definition repository_factory (f : MultiTenantBackendFactory) : BackendFactory :=
  {| CreateBackend := factory_CreateBackend f |}.

(** A factory that creates every backend. *)
Definition obliging_factory : BackendFactory := {| CreateBackend := fun _ => None |}.

End Namespace.

(** ** Shape of a range decomposition *)

Module ChunkShape.

Import Lustre.

(** A chunk ends on a stripe boundary or where the range ends. *)
Definition ends_aligned (stripeSize stop : Z) (c : StripeChunk) : Prop :=
  Offset c + Size c = stop \/ (Offset c + Size c) mod stripeSize = 0.

(** The number of stripes a non-empty range [start, stop) touches. *)
Definition stripes_touched (stripeSize start stop : Z) : Z :=
  (stop - 1) / stripeSize - start / stripeSize + 1.

End ChunkShape.

(** ** Sequences of registry operations *)

Module RegistryOps.

Import Backend.

Local Open Scope string_scope.

(** What the request layer asks of the registry, one request at a
    time. *)
Inductive request : Type :=
  | Acquire (userID : string)      (* GetUserBackend *)
  | Release (userID : string).     (* UnmountUserBackend *)

Definition serve (req : request) (st : DynamicBackendManager * World)
  : outcome (DynamicBackendManager * World) :=
  match req with
  | Acquire userID =>
      do r <~ GetUserBackend st.1 userID st.2;
      Returns (r.1.2, r.2)
  | Release userID =>
      let '(_, dm, w) := UnmountUserBackend st.1 userID st.2 in Returns (dm, w)
  end.

Fixpoint serve_all (reqs : list request) (st : DynamicBackendManager * World)
  : outcome (DynamicBackendManager * World) :=
  match reqs with
  | [] => Returns st
  | req :: rest => do st' <~ serve req st; serve_all rest st'
  end.

(** How the three maps of the registry hang together. *)
Record well_tracked (dm : DynamicBackendManager) : Prop := {
  handle_has_record :
    forall userID b, userBackends dm !! userID = Some b ->
      exists c, userConfigs dm !! userID = Some c
                /\ (Status c = BackendStatusReady \/ Status c = BackendStatusUnmounting);
  ready_has_handle :
    forall userID c, userConfigs dm !! userID = Some c ->
      Status c = BackendStatusReady -> is_Some (userBackends dm !! userID);
  mount_has_record :
    forall userID mp, mountPoints dm !! userID = Some mp ->
      is_Some (userConfigs dm !! userID);
  record_names_user :
    forall userID c, userConfigs dm !! userID = Some c -> UserID c = userID
}.

(** The record [createUserBackend] builds from the tenant's storage
    configuration. *)
Definition record_of (userID : string) (sc : Auth.UserStorageConfig)
    (s : BackendStatus) : UserBackendConfig :=
  {| UserID := userID;
     BackendType := Auth.BackendType sc;
     MountPoint := Auth.StoragePath sc;
     Quota := Auth.Quota sc;
     UsedSpace := Auth.UsedSpace sc;
     Status := s |}.

(** The configuration [createDefaultUserConfig] writes for a user the
    tenant manager does not know. *)
Definition default_storage (dm : DynamicBackendManager) (userID : string)
  : Auth.UserStorageConfig :=
  {| Auth.BackendType := DefaultBackend (baseConfig dm);
     Auth.StoragePath :=
       Filepath.Join
         [Filepath.Join [Auth.BasePath (Auth.config (multiTenantManager dm));
                         "users"; userID]; "storage"];
     Auth.Quota := 0;
     Auth.UsedSpace := 0;
     Auth.Mounted := false |}.

(** The registry of [posix_registry] after it has served tenant [t1]
    once. *)
Definition served_once : DynamicBackendManager :=
  {| userBackends := {[ "t1" := PosixBackend "/data/users/t1/storage" ]};
     userConfigs :=
       {[ "t1" := {| UserID := "t1"; BackendType := "posix";
                     MountPoint := "/data/users/t1/storage";
                     Quota := 0; UsedSpace := 0; Status := BackendStatusReady |} ]};
     mountPoints := ∅;
     multiTenantManager := RegistrySpec.tenant_manager "posix";
     baseConfig := RegistrySpec.base_config |}.

End RegistryOps.

(** ** The mutex and the two callers *)

Module LockSpec.

Import Backend Concurrent ConcurrentSpec.

(** The mutex agrees with where the two callers stand. *)
Definition lock_consistent (c : conf) : Prop :=
  writer (mu c) = holds_write (pcA c) || holds_write (pcB c)
  /\ holds_write (pcA c) && holds_write (pcB c) = false
  /\ readers (mu c) = (holds_read (pcA c) + holds_read (pcB c))%nat.

(** The caller has returned from [GetUserBackend]. *)
Definition returned (p : pc) : bool :=
  match p with Done _ => true | _ => false end.

End LockSpec.

(** ** Sequential reader and writer of striped files ([backend/lustre_enhanced.go]) *)

Module ParallelIO.

Import Lustre.

(** [ParallelReader], without its mutex: one caller at a time. *)
Record ParallelReader : Type := {
  pr_file : File;
  pr_stripeInfo : LustreStripeInfo;
  pr_fileSize : Z;
  pr_currentPos : Z
}.

(** [NewParallelReader]; [stat] is what [file.Stat()] gives, the size of
    the file or an error. *)
Definition NewParallelReader (file : File) (stat : Z + ioerror)
    (stripeInfo : LustreStripeInfo) : ParallelReader + ioerror :=
  match stat with
  | inr err => inr err
  | inl size =>
      inl {| pr_file := file; pr_stripeInfo := stripeInfo;
             pr_fileSize := size; pr_currentPos := 0 |}
  end.

(** [ParallelReader.Read]: the buffer [p] after the call, [n], the error
    and the reader after the call.  The slice expression [p[:readSize]]
    panics on a negative bound. *)
Definition Read (pr : ParallelReader) (p : list Byte.byte)
  : outcome (list Byte.byte * Z * option ioerror * ParallelReader) :=
  if pr_currentPos pr >=? pr_fileSize pr then Returns (p, 0, Some EOF, pr)
  else
    let remaining := Int64.sub (pr_fileSize pr) (pr_currentPos pr) in
    let readSize := Z.of_nat (length p) in
    let readSize := if readSize >? remaining then remaining else readSize in
    if readSize <? 0 then Panics
    else
      let '(b, n, err) :=
        ReadAt (pr_file pr) (take (Z.to_nat readSize) p) (pr_currentPos pr) in
      Returns (b ++ drop (Z.to_nat readSize) p, n, err,
               {| pr_file := pr_file pr; pr_stripeInfo := pr_stripeInfo pr;
                  pr_fileSize := pr_fileSize pr;
                  pr_currentPos := Int64.add (pr_currentPos pr) n |}).

(** A file open for writing: [WriteAt f b off] gives the file after the
    call, the number of bytes written and the error. *)
Record WFile (F : Type) : Type := {
  WriteAt : F -> list Byte.byte -> Z -> F * Z * option ioerror
}.
Arguments WriteAt {F} _ _ _ _.

(** [os.File.WriteAt] on a regular file that is not opened for
    appending, when the write system call does not fail: the file is its
    content.  An empty buffer makes no system call; a write past the end
    leaves a hole of zero bytes. *)
Definition os_WriteAt (content : list Byte.byte) (b : list Byte.byte) (off : Z)
  : list Byte.byte * Z * option ioerror :=
  if off <? 0 then (content, 0, Some NegativeOffset)
  else
    match b with
    | [] => (content, 0, None)
    | _ =>
        let o := Z.to_nat off in
        (take o content ++ replicate (o - length content) Byte.x00 ++ b
           ++ drop (o + length b) content,
         Z.of_nat (length b), None)
    end.

Definition os_WFile : WFile (list Byte.byte) := {| WriteAt := os_WriteAt |}.

(** [ParallelWriter], without its mutex. *)
Record ParallelWriter (F : Type) : Type := {
  pw_file : WFile F;
  pw_stripeInfo : LustreStripeInfo;
  pw_currentPos : Z
}.
Arguments pw_file {F} _.
Arguments pw_stripeInfo {F} _.
Arguments pw_currentPos {F} _.

(** [NewParallelWriter]. *)
Definition NewParallelWriter {F} (file : WFile F) (stripeInfo : LustreStripeInfo)
  : ParallelWriter F :=
  {| pw_file := file; pw_stripeInfo := stripeInfo; pw_currentPos := 0 |}.

(** [ParallelWriter.Write] on the file [f]: [n], the error, the writer
    and the file after the call. *)
Definition Write {F} (pw : ParallelWriter F) (f : F) (p : list Byte.byte)
  : Z * option ioerror * ParallelWriter F * F :=
  let '(f', n, err) := WriteAt (pw_file pw) f p (pw_currentPos pw) in
  (n, err,
   {| pw_file := pw_file pw; pw_stripeInfo := pw_stripeInfo pw;
      pw_currentPos := Int64.add (pw_currentPos pw) n |},
   f').

End ParallelIO.

(** ** Streams of reads and writes *)

Module StreamSpec.

Import Lustre ParallelIO.

(** Successive [Read] calls with fresh buffers of the given lengths:
    for each call the bytes [p[:n]] it delivered and its error. *)
Fixpoint reads (pr : ParallelReader) (sizes : list nat)
  : outcome (list (list Byte.byte * option ioerror) * ParallelReader) :=
  match sizes with
  | [] => Returns ([], pr)
  | k :: rest =>
      do r <~ Read pr (replicate k Byte.x00);
      do rs <~ reads r.2 rest;
      Returns ((take (Z.to_nat r.1.1.2) r.1.1.1, r.1.2) :: rs.1, rs.2)
  end.

(** Successive [Write] calls: what each call returned, the writer and
    the file at the end. *)
Fixpoint writes {F} (pw : ParallelWriter F) (f : F) (ps : list (list Byte.byte))
  : list (Z * option ioerror) * ParallelWriter F * F :=
  match ps with
  | [] => ([], pw, f)
  | p :: rest =>
      let '(n, err, pw', f') := Write pw f p in
      let '(rs, pw'', f'') := writes pw' f' rest in
      ((n, err) :: rs, pw'', f'')
  end.

(** A reader on a regular file with the given content, as
    [NewParallelReader] makes it. *)
Definition reader_on (content : list Byte.byte) (stripeInfo : LustreStripeInfo)
  : ParallelReader + ioerror :=
  NewParallelReader (os_File content) (inl (Z.of_nat (length content))) stripeInfo.

(** The error the call that starts at position [pos] of a file of
    [size] bytes returns. *)
Definition error_at (size pos : nat) : option ioerror :=
  if (size <=? pos)%nat then Some EOF else None.

(** What successive calls that ask for [sizes] bytes should deliver of a
    file with the given content, the first call starting at [pos]: the
    next bytes of the file, as many as asked for or as are left. *)
Fixpoint delivered (content : list Byte.byte) (pos : nat) (sizes : list nat)
  : list (list Byte.byte * option ioerror) :=
  match sizes with
  | [] => []
  | k :: rest =>
      (take k (drop pos content), error_at (length content) pos)
      :: delivered content (pos + k) rest
  end.

(** A reader on [content] that has reached position [pos]. *)
Definition reader_at (content : list Byte.byte) (stripeInfo : LustreStripeInfo)
    (pos : nat) : ParallelReader :=
  {| pr_file := os_File content; pr_stripeInfo := stripeInfo;
     pr_fileSize := Z.of_nat (length content);
     pr_currentPos := Z.of_nat pos |}.

(** A writer that has reached position [pos]. *)
Definition writer_at (stripeInfo : LustreStripeInfo) (pos : nat)
  : ParallelWriter (list Byte.byte) :=
  {| pw_file := os_WFile; pw_stripeInfo := stripeInfo;
     pw_currentPos := Z.of_nat pos |}.

End StreamSpec.

(** ** Uploads through the Lustre backend ([backend/lustre_enhanced.go]) *)

Module LustreOps.

Import Lustre.

Local Open Scope string_scope.

(** [strconv.Itoa] and [strconv.FormatInt(_, 10)]. *)
Definition Itoa (n : Z) : string := DecimalString.NilZero.string_of_int (Z.to_int n).

(** [path[:i+1]], where [i] is the index of the last separator of
    [path], or -1 when it has none. *)
Fixpoint upto_last_sep (path : string) : string :=
  match path with
  | EmptyString => EmptyString
  | String c r =>
      if (0 <? Filepath.count_sep path)%nat then String c (upto_last_sep r)
      else EmptyString
  end.

(** [filepath.Dir] on Unix. *)
Definition Dir (path : string) : string := Filepath.Clean (upto_last_sep path).

(** [s3response.PutObjectInput], as far as this code reads it; the three
    fields are pointers. *)
Record PutObjectInput : Type := {
  Bucket : option string;
  Key : option string;
  ContentLength : option Z
}.

Inductive error : Type :=
  | ErrCreateDirectory (dirPath : string)   (* "failed to create directory: %w" *)
  | ErrSetstripe (argv : list string).      (* "lfs setstripe failed: %s: %w" *)

(** What this code asks of the operating system, of the standard output
    and of the backend it wraps. *)
Inductive syscall : Type :=
  | OsStat (path : string)
  | OsMkdirAll (path : string)
  | ExecCombinedOutput (argv : list string)
  | PrintWarning (err : error)              (* fmt.Printf("Warning: ...") *)
  | BackendPutObject (input : PutObjectInput).

Inductive stat_result : Type :=
  | StatOk              (* err == nil *)
  | StatNotExist        (* os.IsNotExist(err) *)
  | StatOtherError.

(** The environment answers from the calls made so far; [Out] is what
    the wrapped backend's [PutObject] returns (output and error). *)
Record Env (Out : Type) : Type := {
  stat : list syscall -> string -> stat_result;
  succeeds : list syscall -> syscall -> bool;
  put : list syscall -> PutObjectInput -> Out;
  history : list syscall
}.
Arguments stat {Out} _ _ _.
Arguments succeeds {Out} _ _ _.
Arguments put {Out} _ _ _.
Arguments history {Out} _.

Definition record {Out} (c : syscall) (env : Env Out) : Env Out :=
  {| stat := stat env; succeeds := succeeds env; put := put env;
     history := history env ++ [c] |}.

Definition os_Stat {Out} (path : string) (env : Env Out) : stat_result * Env Out :=
  (stat env (history env) path, record (OsStat path) env).

Definition call {Out} (c : syscall) (env : Env Out) : bool * Env Out :=
  (succeeds env (history env) c, record c env).

Definition backend_PutObject {Out} (input : PutObjectInput) (env : Env Out)
  : Out * Env Out :=
  (put env (history env) input, record (BackendPutObject input) env).

(** The argument list [ensureDirectoryStriping] builds. *)
Definition setstripe_argv (dirPath : string) (stripeInfo : LustreStripeInfo)
  : list string :=
  let cmd := ["lfs"; "setstripe"] in
  let cmd := if StripeCount stripeInfo >? 0
             then (cmd ++ ["-c"; Itoa (StripeCount stripeInfo)])%list else cmd in
  let cmd := if StripeSize stripeInfo >? 0
             then (cmd ++ ["-S"; Itoa (StripeSize stripeInfo)])%list else cmd in
  let cmd := if StripeIndex stripeInfo >=? 0
             then (cmd ++ ["-i"; Itoa (StripeIndex stripeInfo)])%list else cmd in
  (cmd ++ [dirPath])%list.

(** [ensureDirectoryStriping]. *)
Definition ensureDirectoryStriping {Out} (dirPath : string)
    (stripeInfo : LustreStripeInfo) (env : Env Out) : option error * Env Out :=
  let '(st, env) := os_Stat dirPath env in
  let '(created, env) :=
    match st with
    | StatNotExist => call (OsMkdirAll dirPath) env
    | _ => (true, env)
    end in
  if negb created then (Some (ErrCreateDirectory dirPath), env)
  else
    let cmd := setstripe_argv dirPath stripeInfo in
    let '(ok, env) := call (ExecCombinedOutput cmd) env in
    if ok then (None, env) else (Some (ErrSetstripe cmd), env).

(** [getLargeFileThreshold]. *)
Definition getLargeFileThreshold (lustreConfig : LustreConfig) : Z :=
  if cfg_StripeSize lustreConfig >? 0
  then Int64.mul (cfg_StripeSize lustreConfig) 2
  else 10 * 1024 * 1024.

(** [if err := l.ensureDirectoryStriping(..); err != nil { fmt.Printf(..) }] *)
Definition ensure_or_warn {Out} (dir : string) (stripeInfo : LustreStripeInfo)
    (env : Env Out) : Env Out :=
  let '(err, env) := ensureDirectoryStriping dir stripeInfo env in
  match err with
  | Some e => record (PrintWarning e) env
  | None => env
  end.

(** [putLargeObjectWithStriping]; a nil [Bucket] or [Key] panics. *)
Definition putLargeObjectWithStriping {Out} (input : PutObjectInput)
    (stripeInfo : LustreStripeInfo) (env : Env Out) : outcome (Out * Env Out) :=
  match Bucket input, Key input with
  | Some bucket, Some key =>
      let filePath := Filepath.Join [bucket; key] in
      let dir := Dir filePath in
      let env := ensure_or_warn dir stripeInfo env in
      Returns (backend_PutObject input env)
  | _, _ => Panics
  end.

(** [PutObject]. *)
Definition PutObject {Out} (lustreConfig : LustreConfig) (input : PutObjectInput)
    (env : Env Out) : outcome (Out * Env Out) :=
  match Bucket input, Key input with
  | Some bucket, Some key =>
      let filePath := Filepath.Join [bucket; key] in
      match ContentLength input with
      | None => Returns (backend_PutObject input env)
      | Some contentLength =>
          let stripeConfig := calculateOptimalStriping lustreConfig contentLength in
          let dir := Dir filePath in
          let env := ensure_or_warn dir stripeConfig env in
          if contentLength >? getLargeFileThreshold lustreConfig
          then putLargeObjectWithStriping input stripeConfig env
          else Returns (backend_PutObject input env)
      end
  | _, _ => Panics
  end.

End LustreOps.

(** ** What is observed of an upload *)

Module LustreOpsSpec.

Import Lustre LustreOps.

Local Open Scope string_scope.

Definition is_put (c : syscall) : bool :=
  match c with BackendPutObject _ => true | _ => false end.

Definition is_exec (c : syscall) : bool :=
  match c with ExecCombinedOutput _ => true | _ => false end.

(** The command that sets [count] stripes on [dir], with the stripe size
    when one is configured. *)
Definition setstripe_command (lustreConfig : LustreConfig) (count : Z) (dir : string)
  : list string :=
  ["lfs"; "setstripe"; "-c"; Itoa count]
  ++ (if cfg_StripeSize lustreConfig >? 0
      then ["-S"; Itoa (cfg_StripeSize lustreConfig)] else [])
  ++ [dir].

(** An environment in which everything exists and succeeds. *)
Definition obliging_env : Env bool :=
  {| stat := fun _ _ => StatOk; succeeds := fun _ _ => true; put := fun _ _ => true;
     history := [] |}.

Definition four_by_mib : LustreConfig :=
  {| cfg_StripeCount := 4; cfg_StripeSize := 1048576 |}.

Definition upload (size : Z) : PutObjectInput :=
  {| Bucket := Some "bucket"; Key := Some "dir/object"; ContentLength := Some size |}.

End LustreOpsSpec.

(** ** The commands a construction runs *)

Module MountSpec.

Import Backend.

Local Open Scope string_scope.

(** The mount command without a source and without options. *)
Definition bare_mount (backendType mountPoint : string) : option (list string) :=
  if String.eqb backendType "cephfs" then Some ["mount"; "-t"; "ceph"; mountPoint]
  else if String.eqb backendType "nfs" then Some ["mount"; "-t"; "nfs"; ":"; mountPoint]
  else if String.eqb backendType "lustre" then Some ["mount"; "-t"; "lustre"; mountPoint]
  else None.

End MountSpec.

(** * Properties *)

(** ** Arithmetic of [int64] *)

Section Int64Facts.
Import Int64.

Lemma wrap64_range x : in_range (wrap64 x).
Proof.
  unfold in_range, wrap64, min_int, max_int, modulus.
  pose proof (Z.mod_pos_bound (x + 2 ^ 63) (2 ^ 64)). lia.
Qed.

Lemma wrap64_id x : in_range x -> wrap64 x = x.
Proof.
  unfold in_range, wrap64, min_int, max_int, modulus. intros Hx.
  rewrite Z.mod_small; lia.
Qed.

Lemma add_exact a b : in_range (a + b) -> add a b = a + b.
Proof. apply wrap64_id. Qed.

Lemma sub_exact a b : in_range (a - b) -> sub a b = a - b.
Proof. apply wrap64_id. Qed.

Lemma quo_exact a b : 0 <= a <= max_int -> 0 < b -> quo a b = a / b.
Proof.
  intros [Ha Hm] Hb. unfold quo. rewrite Z.quot_div_nonneg by lia.
  apply wrap64_id. unfold in_range, min_int, max_int in *.
  pose proof (Z.div_pos a b Ha Hb).
  assert (a / b <= a) by (apply Z.div_le_upper_bound; nia). lia.
Qed.

Lemma rem_exact a b : 0 <= a -> 0 < b -> rem a b = a mod b.
Proof. intros. unfold rem. apply Z.rem_mod_nonneg; lia. Qed.

End Int64Facts.

(** ** Stripe planner *)

Section StripePlanner.
Import Lustre Spec.

(** C4: the planned stripe count is the tier of the object size (1 below
    1 MiB, 2 below 100 MiB, 4 below 1 GiB, 8 from 1 GiB on), capped at the
    configured stripe count when that is positive; the stripe index is
    -1; with no configured maximum a 2 GiB object gets 8 stripes and a
    500 KiB object gets 1. *)
Theorem calculateOptimalStriping_tiers (lustreConfig : LustreConfig) (size : Z) :
  StripeCount (calculateOptimalStriping lustreConfig size)
    = capped (cfg_StripeCount lustreConfig) (tier_of_size size)
  /\ StripeIndex (calculateOptimalStriping lustreConfig size) = -1
  /\ StripeSize (calculateOptimalStriping lustreConfig size) = cfg_StripeSize lustreConfig
  /\ (forall stripeSize,
        StripeCount (calculateOptimalStriping
                       {| cfg_StripeCount := 0; cfg_StripeSize := stripeSize |}
                       (2 * 1024 * MiB)) = 8
        /\ StripeCount (calculateOptimalStriping
                          {| cfg_StripeCount := 0; cfg_StripeSize := stripeSize |}
                          (500 * 1024)) = 1).
Proof.
  split; [|split; [reflexivity|split; [reflexivity|intros; split; reflexivity]]].
  unfold calculateOptimalStriping, capped, tier_of_size, MiB; simpl StripeCount.
  destruct lustreConfig as [maxc ssz]; simpl.
  repeat match goal with
         | |- context [?a <? ?b] => destruct (Z.ltb_spec a b)
         | |- context [?a >? ?b] => rewrite (Z.gtb_ltb a b)
         end; simpl; lia.
Qed.

(** The tiers never decrease with the size. *)
Lemma tier_of_size_mono (a b : Z) : a <= b -> tier_of_size a <= tier_of_size b.
Proof.
  unfold tier_of_size, MiB. intros.
  repeat match goal with
         | |- context [?a <? ?b] => destruct (Z.ltb_spec a b)
         end; lia.
Qed.

End StripePlanner.

(** ** Quota guard *)

Section QuotaGuard.
Import Auth Spec.

(** A record with quota 0 is never refused. *)
Lemma CheckQuota_unlimited m userID c additionalSize :
  userConfigs m !! userID = Some c -> Quota c = 0 ->
  CheckQuota m userID additionalSize = None.
Proof.
  intros Hc Hq. unfold CheckQuota, GetUserStorageConfig. rewrite Hc, Hq. reflexivity.
Qed.

(** As long as the sum fits in [int64], the guard compares the sum with
    the quota. *)
Lemma CheckQuota_no_overflow m userID c additionalSize :
  userConfigs m !! userID = Some c -> Quota c <> 0 ->
  Int64.in_range (UsedSpace c + additionalSize) ->
  CheckQuota m userID additionalSize
    = if UsedSpace c + additionalSize >? Quota c then Some ErrQuotaExceeded else None.
Proof.
  intros Hc Hq Hr. unfold CheckQuota, GetUserStorageConfig. rewrite Hc.
  destruct (Z.eqb_spec (Quota c) 0); [contradiction|].
  rewrite add_exact by assumption. reflexivity.
Qed.

(** C3, the two examples of the design: with quota 100 and 90 bytes used,
    20 more bytes are refused and 10 more are accepted. *)
Lemma CheckQuota_examples :
  CheckQuota (manager_with "u1" record_100_90) "u1" 20 = Some ErrQuotaExceeded
  /\ CheckQuota (manager_with "u1" record_100_90) "u1" 10 = None.
Proof. split; reflexivity. Qed.

(** C3: with quota 100 and 90 bytes used, a request for 2^63-1 more bytes
    is accepted although 90 + (2^63-1) exceeds the quota: the sum wraps
    around to a negative [int64]. *)
Theorem CheckQuota_passes_on_wrap :
  CheckQuota (manager_with "u1" record_100_90) "u1" Int64.max_int = None
  /\ UsedSpace record_100_90 + Int64.max_int > Quota record_100_90
  /\ Int64.in_range Int64.max_int
  /\ Int64.add (UsedSpace record_100_90) Int64.max_int = Int64.min_int + 89.
Proof.
  repeat split; try reflexivity; vm_compute; congruence.
Qed.

End QuotaGuard.

(** ** Range decomposition *)

Section RangeDecomposition.
Import Lustre ChunkSpec.

(** The slice the loop appends to only prefixes what the loop produces. *)
Lemma stripeChunksLoop_acc fuel stripeSize stripeCount :
  forall currentOffset remaining chunks,
    stripeChunksLoop fuel stripeSize stripeCount currentOffset remaining chunks
    = (do l <~ stripeChunksLoop fuel stripeSize stripeCount currentOffset remaining [];
       Returns (chunks ++ l)).
Proof.
  induction fuel as [|fuel IH]; intros cur rem acc; simpl.
  - destruct (rem >? 0); simpl; [reflexivity|]. now rewrite app_nil_r.
  - destruct (rem >? 0); simpl; [|now rewrite app_nil_r].
    destruct ((stripeSize =? 0) || (stripeCount =? 0)); [reflexivity|].
    rewrite (IH _ _ (acc ++ [_])). rewrite (IH _ _ [_]).
    match goal with |- context [stripeChunksLoop ?f ?a ?b ?c ?d []] =>
      destruct (stripeChunksLoop f a b c d []) end; simpl; try reflexivity.
    now rewrite <- app_assoc.
Qed.

(** More fuel does not change a result. *)
Lemma stripeChunksLoop_fuel fuel stripeSize stripeCount :
  forall currentOffset remaining chunks l,
    stripeChunksLoop fuel stripeSize stripeCount currentOffset remaining chunks = Returns l ->
    forall fuel', (fuel <= fuel')%nat ->
    stripeChunksLoop fuel' stripeSize stripeCount currentOffset remaining chunks = Returns l.
Proof.
  induction fuel as [|fuel IH]; intros cur rem acc l H fuel' Hle.
  - simpl in H. destruct (rem >? 0) eqn:E; [discriminate|].
    destruct fuel'; simpl; rewrite E; assumption.
  - destruct fuel' as [|fuel']; [lia|]. simpl in *.
    destruct (rem >? 0); [|assumption].
    destruct ((stripeSize =? 0) || (stripeCount =? 0)); [discriminate|].
    eapply IH; [eassumption|lia].
Qed.

Lemma same_stripe cur ss chunk :
  0 <= cur -> 0 < ss -> 0 < chunk -> chunk <= ss - cur mod ss ->
  cur / ss = (cur + chunk - 1) / ss.
Proof.
  intros Hc Hs Hk Hle.
  pose proof (Z.mod_pos_bound cur ss Hs) as Hm.
  pose proof (Z.div_mod cur ss ltac:(lia)) as Hd.
  apply (Z.div_unique_pos _ _ _ (cur mod ss + chunk - 1)); lia.
Qed.

(** One run of the loop from a state whose range fits in [int64]. *)
Lemma stripeChunksLoop_tiles stripeSize stripeCount :
  0 < stripeSize <= Int64.max_int -> 1 <= stripeCount ->
  forall n currentOffset remaining,
    Z.to_nat remaining = n ->
    0 <= currentOffset -> 0 <= remaining ->
    currentOffset + remaining <= 2 ^ 63 ->
    exists chunks,
      (forall fuel, (n <= fuel)%nat ->
         stripeChunksLoop fuel stripeSize stripeCount currentOffset remaining []
         = Returns chunks)
      /\ tiles currentOffset (currentOffset + remaining) chunks
      /\ total_size chunks = remaining
      /\ Forall (in_one_stripe stripeSize stripeCount) chunks.
Proof.
  intros Hss Hsc n. induction n as [n IH] using lt_wf_ind.
  intros cur rem Hn Hcur Hrem Hfit.
  destruct (Z.eq_dec rem 0) as [->|Hnz].
  { exists []. repeat split; simpl; try lia; [|constructor].
    intros fuel _. destruct fuel; reflexivity. }
  assert (Hcm : cur <= Int64.max_int) by (unfold Int64.max_int; lia).
  pose proof (Z.mod_pos_bound cur stripeSize ltac:(lia)) as Hmod.
  set (room := stripeSize - cur mod stripeSize).
  set (chunk := if room >? rem then rem else room).
  assert (Hchunk : 0 < chunk <= rem /\ chunk <= room).
  { unfold chunk. destruct (Z.gtb_spec room rem); unfold room in *; lia. }
  destruct (IH (Z.to_nat (rem - chunk)) ltac:(lia) (cur + chunk) (rem - chunk)
              eq_refl ltac:(lia) ltac:(lia) ltac:(lia))
    as (rest & Hrun & Htiles & Htotal & Hall).
  set (c := {| Offset := cur; Size := chunk;
               Stripe := (cur / stripeSize) mod stripeCount |}).
  assert (Hstep : forall fuel,
    stripeChunksLoop (S fuel) stripeSize stripeCount cur rem []
    = (do l <~ stripeChunksLoop fuel stripeSize stripeCount
                 (Int64.add cur chunk) (rem - chunk) [];
       Returns (c :: l))).
  { intros fuel. simpl.
    destruct (Z.gtb_spec rem 0); [|lia].
    destruct (Z.eqb_spec stripeSize 0); [lia|].
    destruct (Z.eqb_spec stripeCount 0); [lia|]. simpl orb. cbv iota.
    rewrite (rem_exact cur stripeSize) by lia.
    rewrite (quo_exact cur stripeSize) by lia.
    rewrite (rem_exact (cur / stripeSize) stripeCount)
      by (try apply Z.div_pos; lia).
    rewrite (sub_exact stripeSize (cur mod stripeSize))
      by (unfold Int64.in_range, Int64.min_int, Int64.max_int in *; lia).
    fold room. fold chunk.
    rewrite (sub_exact rem chunk)
      by (unfold Int64.in_range, Int64.min_int, Int64.max_int in *; lia).
    rewrite stripeChunksLoop_acc. reflexivity. }
  exists (c :: rest). split; [|split; [|split]].
  - intros fuel Hfuel. destruct fuel as [|fuel]; [lia|].
    rewrite Hstep.
    destruct (Z.eq_dec (rem - chunk) 0) as [Hz|Hnz'].
    + (* the last chunk: the next offset may wrap, the loop stops anyway *)
      rewrite Hz in *.
      assert (rest = []) as ->.
      { specialize (Hrun 0%nat ltac:(lia)). simpl in Hrun. congruence. }
      destruct fuel; reflexivity.
    + rewrite add_exact
        by (unfold Int64.in_range, Int64.min_int, Int64.max_int in *; lia).
      rewrite Hrun by lia. reflexivity.
  - simpl. repeat split; try lia.
    replace (cur + rem) with (cur + chunk + (rem - chunk)) by lia. exact Htiles.
  - simpl. lia.
  - constructor; [|exact Hall]. split; [|reflexivity]. simpl.
    apply same_stripe; unfold room in *; lia.
Qed.

(** C1, as the code has it: for a range [offset, offset+size) that ends
    no later than one byte past the largest [int64] offset, with a
    positive stripe size and at least one stripe, [calculateStripeChunks]
    returns (given [size] units of fuel or more) chunks that tile
    [offset, offset+size) from left to right without gap or overlap,
    whose sizes add up to [size], and each of which lies in one stripe
    and carries the index (Offset / stripeSize) mod stripeCount. *)
Theorem calculateStripeChunks_tiles (offset size : Z) (stripeInfo : LustreStripeInfo) :
  0 <= offset -> 0 < size ->
  0 < StripeSize stripeInfo <= Int64.max_int -> 1 <= StripeCount stripeInfo ->
  offset + size <= 2 ^ 63 ->
  exists chunks,
    (forall fuel, (Z.to_nat size <= fuel)%nat ->
       calculateStripeChunks fuel offset size stripeInfo = Returns chunks)
    /\ tiles offset (offset + size) chunks
    /\ total_size chunks = size
    /\ Forall (in_one_stripe (StripeSize stripeInfo) (StripeCount stripeInfo)) chunks.
Proof.
  intros Ho Hs Hss Hsc Hfit. unfold calculateStripeChunks.
  apply (stripeChunksLoop_tiles _ _ Hss Hsc (Z.to_nat size)); lia.
Qed.

Lemma calculateStripeChunks_tiles_witness :
  exists chunks,
    (forall fuel, (Z.to_nat 10 <= fuel)%nat ->
       calculateStripeChunks fuel 3 10
         {| StripeCount := 2; StripeSize := 4; StripeIndex := -1 |} = Returns chunks)
    /\ tiles 3 (3 + 10) chunks
    /\ total_size chunks = 10
    /\ Forall (in_one_stripe 4 2) chunks.
Proof.
  apply (calculateStripeChunks_tiles 3 10
           {| StripeCount := 2; StripeSize := 4; StripeIndex := -1 |});
    simpl; unfold Int64.max_int; lia.
Defined.

Example calculateStripeChunks_3_10 :
  calculateStripeChunks 10 3 10 {| StripeCount := 2; StripeSize := 4; StripeIndex := -1 |}
  = Returns [ {| Offset := 3; Size := 1; Stripe := 0 |};
              {| Offset := 4; Size := 4; Stripe := 1 |};
              {| Offset := 8; Size := 4; Stripe := 0 |};
              {| Offset := 12; Size := 1; Stripe := 1 |} ].
Proof. reflexivity. Qed.

(** C1 as stated fails where the range runs past the largest [int64]:
    for offset 2^63-1 and size 2 the second chunk starts at -2^63, not
    where the first one ends. *)
Lemma calculateStripeChunks_wraps :
  0 <= Int64.max_int /\ 0 < 2
  /\ 0 < StripeSize wrapping_info /\ 1 <= StripeCount wrapping_info
  /\ (forall fuel, (2 <= fuel)%nat ->
        calculateStripeChunks fuel Int64.max_int 2 wrapping_info
        = Returns [ {| Offset := Int64.max_int; Size := 1; Stripe := 0 |};
                    {| Offset := Int64.min_int; Size := 1; Stripe := 0 |} ])
  /\ ~ (exists fuel chunks,
          calculateStripeChunks fuel Int64.max_int 2 wrapping_info = Returns chunks
          /\ tiles Int64.max_int (Int64.max_int + 2) chunks).
Proof.
  assert (Hrun : calculateStripeChunks 2 Int64.max_int 2 wrapping_info
                 = Returns [ {| Offset := Int64.max_int; Size := 1; Stripe := 0 |};
                             {| Offset := Int64.min_int; Size := 1; Stripe := 0 |} ])
    by (vm_compute; reflexivity).
  split; [vm_compute; congruence|].
  split; [lia|]. split; [simpl; lia|]. split; [simpl; lia|]. split.
  - intros fuel Hf. eapply stripeChunksLoop_fuel; [exact Hrun|exact Hf].
  - intros (fuel & chunks & Hc & Ht).
    assert (Hc' : calculateStripeChunks (Nat.max fuel 2) Int64.max_int 2 wrapping_info
                  = Returns chunks)
      by (eapply stripeChunksLoop_fuel; [exact Hc|lia]).
    assert (Hr' : calculateStripeChunks (Nat.max fuel 2) Int64.max_int 2 wrapping_info
                  = Returns [ {| Offset := Int64.max_int; Size := 1; Stripe := 0 |};
                              {| Offset := Int64.min_int; Size := 1; Stripe := 0 |} ])
      by (eapply stripeChunksLoop_fuel; [exact Hrun|lia]).
    rewrite Hc' in Hr'. injection Hr' as ->.
    simpl in Ht. destruct Ht as (_ & _ & Hoff & _).
    vm_compute in Hoff. discriminate.
Qed.

End RangeDecomposition.

(** ** Parallel stripe read *)

Section ParallelRead.
Import Lustre ChunkSpec ReadSpec.

Lemma readChunk_spec file chunks s index c :
  chunks !! index = Some c ->
  readChunk file chunks s index
  = if Size c <? 0 then Panics
    else Returns {| results := <[index := (chunkRead file c).1]> (results s);
                    errors := <[index := (chunkRead file c).2]> (errors s) |}.
Proof.
  intros Hc. unfold readChunk, chunkRead, make_bytes. rewrite Hc.
  destruct (Size c <? 0); simpl; [reflexivity|].
  destruct (ReadAt file _ _) as [[d n] e]. reflexivity.
Qed.

(** Whatever the order, once the goroutines in [order] are done the slot
    of each of them holds what it read, and no other slot has changed. *)
Lemma runGoroutines_slots file chunks :
  forall order s s',
    runGoroutines file chunks order s = Returns s' ->
    length (results s) = length chunks -> length (errors s) = length chunks ->
    length (results s') = length chunks /\ length (errors s') = length chunks
    /\ (forall i c, i ∈ order -> chunks !! i = Some c ->
          0 <= Size c
          /\ results s' !! i = Some (chunkRead file c).1
          /\ errors s' !! i = Some (chunkRead file c).2)
    /\ (forall i, i ∉ order ->
          results s' !! i = results s !! i /\ errors s' !! i = errors s !! i).
Proof.
  induction order as [|idx rest IH]; intros s s' Hrun Hr He.
  - simpl in Hrun. injection Hrun as <-.
    split; [assumption|]. split; [assumption|]. split; [|auto].
    intros i c Hi. apply elem_of_nil in Hi. contradiction.
  - simpl in Hrun.
    destruct (chunks !! idx) as [cx|] eqn:Hcx.
    + rewrite (readChunk_spec _ _ _ _ _ Hcx) in Hrun.
      destruct (Z.ltb_spec (Size cx) 0) as [Hneg|Hpos]; [discriminate|].
      simpl in Hrun.
      apply IH in Hrun; simpl; rewrite ?length_insert; try assumption.
      destruct Hrun as (Hr' & He' & Hin & Hout). simpl in Hout.
      split; [assumption|]. split; [assumption|]. split.
      * intros i c Hi Hc.
        destruct (decide (i ∈ rest)) as [Hir|Hir]; [now apply Hin|].
        apply elem_of_cons in Hi as [->|Hi]; [|contradiction].
        assert (c = cx) as -> by congruence.
        destruct (Hout _ Hir) as [-> ->].
        apply lookup_lt_Some in Hc.
        rewrite !list_lookup_insert_eq by lia. auto.
      * intros i Hi. apply not_elem_of_cons in Hi as [Hne Hir].
        destruct (Hout _ Hir) as [-> ->].
        rewrite !list_lookup_insert_ne by congruence. auto.
    + unfold readChunk in Hrun. rewrite Hcx in Hrun. simpl in Hrun.
      apply IH in Hrun; try assumption.
      destruct Hrun as (Hr' & He' & Hin & Hout).
      split; [assumption|]. split; [assumption|]. split.
      * intros i c Hi Hc.
        apply elem_of_cons in Hi as [->|Hi]; [congruence|]. now apply Hin.
      * intros i Hi. apply not_elem_of_cons in Hi as [Hne Hir]. now apply Hout.
Qed.

(** After [wg.Wait()] the two slices hold the reads in chunk order,
    whatever the completion order was. *)
Lemma runGoroutines_all (sched : Scheduler) file chunks s' :
  runGoroutines file chunks (completion_order sched (length chunks))
    {| results := replicate (length chunks) [];
       errors := replicate (length chunks) None |} = Returns s' ->
  results s' = (fun c => (chunkRead file c).1) <$> chunks
  /\ errors s' = (fun c => (chunkRead file c).2) <$> chunks
  /\ Forall (fun c => 0 <= Size c) chunks.
Proof.
  intros Hrun.
  apply runGoroutines_slots in Hrun; simpl; rewrite ?length_replicate; try reflexivity.
  destruct Hrun as (Hr & He & Hin & _).
  assert (Hmem : forall i, (i < length chunks)%nat ->
                           i ∈ completion_order sched (length chunks)).
  { intros i Hi. rewrite (completion_perm sched (length chunks)).
    apply elem_of_seq. lia. }
  split; [|split].
  - apply list_eq. intros i. rewrite list_lookup_fmap.
    destruct (chunks !! i) as [c|] eqn:Hc; simpl.
    + apply (Hin i c); [|assumption]. apply Hmem. now apply lookup_lt_Some in Hc.
    + apply lookup_ge_None in Hc. apply lookup_ge_None. lia.
  - apply list_eq. intros i. rewrite list_lookup_fmap.
    destruct (chunks !! i) as [c|] eqn:Hc; simpl.
    + apply (Hin i c); [|assumption]. apply Hmem. now apply lookup_lt_Some in Hc.
    + apply lookup_ge_None in Hc. apply lookup_ge_None. lia.
  - apply Forall_lookup. intros i c Hc.
    apply (Hin i c); [|assumption]. apply Hmem. now apply lookup_lt_Some in Hc.
Qed.

(** [firstError] finds the error at the lowest index. *)
Lemma firstError_Some errs e :
  firstError errs = Some e <->
  exists i, errs !! i = Some (Some e)
            /\ forall j, (j < i)%nat -> errs !! j = Some None.
Proof.
  induction errs as [|[e'|] errs IH]; simpl.
  - split; [discriminate|]. intros (i & Hi & _). destruct i; discriminate.
  - split.
    + intros [= ->]. exists 0%nat. split; [reflexivity|]. intros j Hj. lia.
    + intros (i & Hi & Hlow). destruct i as [|i]; [simpl in Hi; congruence|].
      specialize (Hlow 0%nat ltac:(lia)). discriminate.
  - rewrite IH. split.
    + intros (i & Hi & Hlow). exists (S i). split; [assumption|].
      intros [|j] Hj; [reflexivity|]. apply Hlow. lia.
    + intros (i & Hi & Hlow). destruct i as [|i]; [discriminate|].
      exists i. split; [assumption|]. intros j Hj. apply (Hlow (S j)). lia.
Qed.

Lemma firstError_None errs :
  firstError errs = None <-> Forall (fun e => e = None) errs.
Proof.
  induction errs as [|[e'|] errs IH]; simpl.
  - split; [constructor|reflexivity].
  - split; [discriminate|]. intros H. inversion H. discriminate.
  - rewrite IH. split; [now constructor|]. intros H. now inversion H.
Qed.

(** When no chunk has a negative size no goroutine panics. *)
Lemma runGoroutines_returns file chunks :
  Forall (fun c => 0 <= Size c) chunks ->
  forall order s, exists s', runGoroutines file chunks order s = Returns s'.
Proof.
  intros Hall. induction order as [|idx rest IH]; intros s; simpl.
  - eauto.
  - destruct (chunks !! idx) as [cx|] eqn:Hcx.
    + rewrite (readChunk_spec _ _ _ _ _ Hcx).
      rewrite Forall_lookup in Hall. specialize (Hall _ _ Hcx). simpl in Hall.
      destruct (Z.ltb_spec (Size cx) 0); [lia|]. simpl. apply IH.
    + unfold readChunk. rewrite Hcx. simpl. apply IH.
Qed.

(** C6: in the striped path, when the read of some chunk fails, the call
    returns the nil slice together with the error of the failed chunk of
    lowest index, whatever the order in which the goroutines complete. *)
Theorem parallelReadStripes_first_error (sched : Scheduler) (fuel : nat) (file : File)
    (offset size : Z) (stripeInfo : LustreStripeInfo)
    (chunks : list StripeChunk) (k : nat) (ck : StripeChunk) :
  1 < StripeCount stripeInfo ->
  calculateStripeChunks fuel offset size stripeInfo = Returns chunks ->
  Forall (fun c => 0 <= Size c) chunks ->
  chunks !! k = Some ck -> (chunkRead file ck).2 <> None ->
  exists i c e,
    chunks !! i = Some c
    /\ (chunkRead file c).2 = Some e
    /\ (forall j cj, (j < i)%nat -> chunks !! j = Some cj -> (chunkRead file cj).2 = None)
    /\ parallelReadStripes sched fuel file offset size stripeInfo
       = Returns (None, Some e).
Proof.
  intros Hcount Hchunks Hsizes Hk Hfail.
  unfold parallelReadStripes.
  destruct (Z.leb_spec (StripeCount stripeInfo) 1); [lia|].
  rewrite Hchunks. simpl.
  destruct (runGoroutines_returns file chunks Hsizes
              (completion_order sched (length chunks))
              {| results := replicate (length chunks) [];
                 errors := replicate (length chunks) None |}) as [s' Hrun].
  rewrite Hrun. simpl.
  destruct (runGoroutines_all _ _ _ _ Hrun) as (_ & Herrs & _).
  destruct (firstError (errors s')) as [e|] eqn:Hfirst.
  - apply firstError_Some in Hfirst as (i & Hi & Hlow).
    rewrite Herrs, list_lookup_fmap in Hi.
    destruct (chunks !! i) as [c|] eqn:Hc; [|discriminate]. simpl in Hi.
    exists i, c, e. split; [exact Hc|]. split; [congruence|]. split; [|reflexivity].
    intros j cj Hj Hcj. specialize (Hlow j Hj).
    rewrite Herrs, list_lookup_fmap, Hcj in Hlow. simpl in Hlow. congruence.
  - exfalso. apply firstError_None in Hfirst.
    rewrite Herrs in Hfirst. rewrite Forall_fmap, Forall_lookup in Hfirst.
    apply Hfail. exact (Hfirst _ _ Hk).
Qed.

Lemma parallelReadStripes_first_error_witness :
  exists i c e,
    [ {| Offset := 3; Size := 1; Stripe := 0 |};
      {| Offset := 4; Size := 4; Stripe := 1 |};
      {| Offset := 8; Size := 4; Stripe := 0 |};
      {| Offset := 12; Size := 1; Stripe := 1 |} ] !! i = Some c
    /\ (chunkRead broken_file c).2 = Some e
    /\ (forall j cj, (j < i)%nat ->
          [ {| Offset := 3; Size := 1; Stripe := 0 |};
            {| Offset := 4; Size := 4; Stripe := 1 |};
            {| Offset := 8; Size := 4; Stripe := 0 |};
            {| Offset := 12; Size := 1; Stripe := 1 |} ] !! j = Some cj ->
          (chunkRead broken_file cj).2 = None)
    /\ parallelReadStripes last_first 10 broken_file 3 10 two_by_four
       = Returns (None, Some e).
Proof.
  apply (parallelReadStripes_first_error last_first 10 broken_file 3 10 two_by_four
           _ 2%nat {| Offset := 8; Size := 4; Stripe := 0 |}).
  - simpl. lia.
  - reflexivity.
  - repeat constructor; simpl; lia.
  - reflexivity.
  - simpl. discriminate.
Defined.

(** The error returned is that of chunk 0 whether the goroutines finish
    first to last or last to first. *)
Example parallelReadStripes_broken_file :
  parallelReadStripes in_order 10 broken_file 3 10 two_by_four
    = Returns (None, Some (Errno 3))
  /\ parallelReadStripes last_first 10 broken_file 3 10 two_by_four
    = Returns (None, Some (Errno 3)).
Proof. split; reflexivity. Qed.

(** A successful read of a non-empty buffer from a regular file lies
    inside the file and gives the bytes of its range. *)
Lemma os_ReadAt_full content (n : nat) (off : Z) data m :
  os_ReadAt content (replicate n Byte.x00) off = (data, m, None) ->
  (0 < n)%nat ->
  0 <= off /\ (Z.to_nat off + n <= length content)%nat
  /\ data = take n (drop (Z.to_nat off) content).
Proof.
  unfold os_ReadAt. intros H Hn.
  destruct (Z.ltb_spec off 0); [discriminate|].
  rewrite length_replicate in H.
  set (got := take n (drop (Z.to_nat off) content)) in *.
  destruct (Nat.ltb_spec (length got) n) as [Hlt|Hge]; [discriminate|].
  assert (Hlen : length got = Nat.min n (length content - Z.to_nat off))
    by (unfold got; rewrite length_take, length_drop; reflexivity).
  injection H as <- _.
  split; [lia|]. split; [lia|].
  rewrite drop_ge by (rewrite length_replicate; lia). apply app_nil_r.
Qed.

Lemma chunkRead_os_offset content c :
  (chunkRead (os_File content) c).2 = None -> 0 <= Offset c.
Proof.
  unfold chunkRead. simpl. unfold os_ReadAt.
  destruct (Z.ltb_spec (Offset c) 0); [discriminate|auto].
Qed.

Lemma chunkRead_os_full content c :
  (chunkRead (os_File content) c).2 = None -> 0 < Size c ->
  (Z.to_nat (Offset c) + Z.to_nat (Size c) <= length content)%nat
  /\ (chunkRead (os_File content) c).1
     = take (Z.to_nat (Size c)) (drop (Z.to_nat (Offset c)) content).
Proof.
  unfold chunkRead. simpl. intros Herr Hsize.
  destruct (os_ReadAt content (replicate (Z.to_nat (Size c)) Byte.x00) (Offset c))
    as [[d m] e] eqn:Hread.
  simpl in *. subst e.
  apply os_ReadAt_full in Hread as (_ & Hin & ->); [auto|lia].
Qed.

Lemma take_drop_app {A} (l : list A) (k a b : nat) :
  take a (drop k l) ++ take b (drop (k + a) l) = take (a + b) (drop k l).
Proof.
  rewrite <- (drop_drop l a k).
  rewrite <- (take_drop a (drop k l)) at 3.
  destruct (decide (a <= length (drop k l))%nat) as [Hle|Hgt].
  - rewrite take_app_add'; [reflexivity|]. rewrite length_take. lia.
  - rewrite (drop_ge (drop k l) a) by lia.
    rewrite !take_nil, !app_nil_r. rewrite !take_ge by lia. reflexivity.
Qed.

(** When every chunk of a decomposition was read without error from a
    regular file, the range lies inside the file and the reads, put
    together in chunk order, are the bytes of the range. *)
Lemma stripeChunksLoop_reads content stripeSize stripeCount :
  0 < stripeSize <= Int64.max_int ->
  Z.of_nat (length content) <= Int64.max_int ->
  forall fuel currentOffset remaining chunks,
    Int64.in_range currentOffset -> 0 < remaining <= Int64.max_int ->
    stripeChunksLoop fuel stripeSize stripeCount currentOffset remaining []
      = Returns chunks ->
    Forall (fun c => 0 <= Size c /\ (chunkRead (os_File content) c).2 = None) chunks ->
    0 <= currentOffset
    /\ currentOffset + remaining <= Z.of_nat (length content)
    /\ concat ((fun c => (chunkRead (os_File content) c).1) <$> chunks)
       = range_bytes content currentOffset remaining.
Proof.
  intros Hss Hlen. induction fuel as [|fuel IH];
    intros cur rem chunks Hcur Hrem Hrun Hall; simpl in Hrun.
  { destruct (Z.gtb_spec rem 0); [discriminate|lia]. }
  destruct (Z.gtb_spec rem 0); [|lia].
  destruct (Z.eqb_spec stripeSize 0); [lia|].
  destruct (stripeCount =? 0); [discriminate|]. simpl in Hrun.
  rewrite stripeChunksLoop_acc in Hrun.
  match type of Hrun with
  | context [stripeChunksLoop fuel stripeSize stripeCount ?c' ?r' []] =>
      destruct (stripeChunksLoop fuel stripeSize stripeCount c' r' []) as [rest| |] eqn:Hrest;
      try discriminate
  end.
  simpl in Hrun. injection Hrun as <-.
  apply Forall_cons in Hall as [[Hsize Herr] Hall]. simpl in Hsize.
  (* the first chunk was read without error, so it starts inside the file *)
  pose proof (chunkRead_os_offset _ _ Herr) as Hnonneg. simpl in Hnonneg.
  pose proof (Z.mod_pos_bound cur stripeSize ltac:(lia)) as Hmod.
  rewrite (rem_exact cur stripeSize) in * by lia.
  rewrite (sub_exact stripeSize (cur mod stripeSize)) in *
    by (unfold Int64.in_range, Int64.min_int, Int64.max_int in *; lia).
  set (room := stripeSize - cur mod stripeSize) in *.
  set (chunk := if room >? rem then rem else room) in *.
  assert (Hchunk : 0 < chunk <= rem).
  { unfold chunk. destruct (Z.gtb_spec room rem); unfold room in *; lia. }
  destruct (chunkRead_os_full _ _ Herr) as (Hin & Hfirst); [simpl; lia|].
  simpl in Hin, Hfirst.
  assert (Hfit : cur + chunk <= Z.of_nat (length content)) by lia.
  rewrite (add_exact cur chunk) in Hrest
    by (unfold Int64.in_range, Int64.min_int, Int64.max_int in *; lia).
  rewrite (sub_exact rem chunk) in Hrest
    by (unfold Int64.in_range, Int64.min_int, Int64.max_int in *; lia).
  split; [assumption|].
  destruct (Z.eq_dec (rem - chunk) 0) as [Hz|Hnz].
  - rewrite Hz in Hrest.
    assert (rest = []) as -> by (destruct fuel; simpl in Hrest; congruence).
    split; [lia|].
    rewrite fmap_cons, concat_cons, Hfirst. simpl. rewrite app_nil_r.
    unfold range_bytes. replace rem with chunk by lia. reflexivity.
  - destruct (IH (cur + chunk) (rem - chunk) rest) as (_ & Hend & Hbytes);
      try assumption.
    + unfold Int64.in_range, Int64.min_int, Int64.max_int in *; lia.
    + lia.
    + split; [lia|].
      rewrite fmap_cons, concat_cons, Hfirst, Hbytes. unfold range_bytes.
      replace (Z.to_nat (cur + chunk)) with (Z.to_nat cur + Z.to_nat chunk)%nat by lia.
      rewrite take_drop_app. f_equal. lia.
Qed.



(** A chunk of a tiling lies between its two ends. *)
Lemma tiles_bounds stop :
  forall chunks start,
    tiles start stop chunks ->
    start <= stop
    /\ Forall (fun c => start <= Offset c /\ 0 < Size c /\ Offset c + Size c <= stop) chunks.
Proof.
  induction chunks as [|c rest IH]; intros start Ht; simpl in Ht.
  - split; [lia|constructor].
  - destruct Ht as (Ho & Hs & Hrest). apply IH in Hrest as [Hle Hall].
    split; [lia|]. constructor; [lia|].
    eapply Forall_impl; [exact Hall|]. simpl. intros c' (? & ? & ?). lia.
Qed.

Lemma chunkRead_os_inside content c :
  0 <= Offset c -> 0 < Size c -> Offset c + Size c <= Z.of_nat (length content) ->
  (chunkRead (os_File content) c).2 = None.
Proof.
  intros Ho Hs Hin. unfold chunkRead. simpl. unfold os_ReadAt.
  destruct (Z.ltb_spec (Offset c) 0); [lia|]. simpl.
  rewrite length_replicate, length_take, length_drop.
  destruct (Nat.ltb_spec (Nat.min (Z.to_nat (Size c)) (length content - Z.to_nat (Offset c)))
              (Z.to_nat (Size c))); [lia|reflexivity].
Qed.

(** A range that lies inside a regular file is read: with [size] units
    of fuel or more the striped read returns the bytes of the range and
    no error, whatever the completion order. *)
Lemma parallelReadStripes_succeeds (sched : Scheduler) (fuel : nat)
    (content : list Byte.byte) (offset size : Z) (stripeInfo : LustreStripeInfo) :
  0 <= offset -> 0 < size -> offset + size <= Z.of_nat (length content) ->
  Z.of_nat (length content) <= Int64.max_int ->
  1 < StripeCount stripeInfo -> 0 < StripeSize stripeInfo <= Int64.max_int ->
  (Z.to_nat size <= fuel)%nat ->
  parallelReadStripes sched fuel (os_File content) offset size stripeInfo
  = Returns (Some (range_bytes content offset size), None).
Proof.
  intros Ho Hs Hin Hlen Hcount Hss Hfuel.
  destruct (stripeChunksLoop_tiles (StripeSize stripeInfo) (StripeCount stripeInfo)
              Hss ltac:(lia) (Z.to_nat size) offset size eq_refl)
    as (chunks & Hrun & Htiles & _ & _); try lia.
  { unfold Int64.max_int in Hlen. lia. }
  specialize (Hrun fuel Hfuel). fold (calculateStripeChunks fuel offset size stripeInfo) in Hrun.
  apply tiles_bounds in Htiles as [_ Hbounds].
  assert (Hok : Forall (fun c => 0 <= Size c /\ (chunkRead (os_File content) c).2 = None)
                  chunks).
  { eapply Forall_impl; [exact Hbounds|]. simpl. intros c (? & ? & ?).
    split; [lia|]. apply chunkRead_os_inside; lia. }
  apply Forall_and in Hok as [Hsizes Herrs].
  unfold parallelReadStripes.
  destruct (Z.leb_spec (StripeCount stripeInfo) 1); [lia|].
  rewrite Hrun. simpl.
  destruct (runGoroutines_returns (os_File content) chunks Hsizes
              (completion_order sched (length chunks))
              {| results := replicate (length chunks) [];
                 errors := replicate (length chunks) None |}) as [s' Hgo].
  rewrite Hgo. simpl.
  destruct (runGoroutines_all _ _ _ _ Hgo) as (Hres & Herr' & _).
  assert (Hnone : firstError (errors s') = None).
  { apply firstError_None. rewrite Herr', Forall_fmap. exact Herrs. }
  rewrite Hnone, Hres.
  unfold calculateStripeChunks in Hrun.
  destruct (stripeChunksLoop_reads content _ (StripeCount stripeInfo) Hss Hlen
              fuel offset size chunks) as (_ & _ & ->); try assumption.
  - unfold Int64.in_range, Int64.min_int, Int64.max_int in *. lia.
  - unfold Int64.max_int in *. lia.
  - apply Forall_and. split; assumption.
  - reflexivity.
Qed.

End ParallelRead.

(** ** Backend registry: teardown *)

Section Teardown.
Import Backend RegistrySpec.
Local Open Scope string_scope.

Lemma set_status_userBackends dm userID s :
  userBackends (set_status dm userID s) = userBackends dm.
Proof. unfold set_status. destruct (userConfigs dm !! userID); reflexivity. Qed.

Lemma set_status_mountPoints dm userID s :
  mountPoints (set_status dm userID s) = mountPoints dm.
Proof. unfold set_status. destruct (userConfigs dm !! userID); reflexivity. Qed.

(** A tenant without a tracked mount point: nothing is run or changed. *)
Lemma UnmountUserBackend_noop dm userID w :
  mountPoints dm !! userID = None ->
  UnmountUserBackend dm userID w = (None, dm, w).
Proof. intros H. unfold UnmountUserBackend. rewrite H. reflexivity. Qed.

(** A teardown that returns nil leaves no mount point behind. *)
Lemma UnmountUserBackend_success_unmounted dm userID w dm' w' :
  UnmountUserBackend dm userID w = (None, dm', w') ->
  mountPoints dm' !! userID = None.
Proof.
  unfold UnmountUserBackend.
  destruct (mountPoints dm !! userID) as [mp|] eqn:Hmp.
  - unfold call.
    destruct (oracle w (trace w) (Exec ["umount"; mp])).
    + intros [= <- _]. rewrite set_status_mountPoints. simpl. apply lookup_delete_eq.
    + simpl. destruct (oracle w _ (Exec ["umount"; "-f"; mp])).
      * intros [= <- _]. rewrite set_status_mountPoints. simpl. apply lookup_delete_eq.
      * discriminate.
  - intros [= <- _]. assumption.
Qed.

(** C8: unmounting a tenant that is not mounted -- no mount point is
    tracked for it, or the registry is what a teardown of that tenant
    that returned nil has left -- returns nil, runs no command and leaves
    the registry as it is. *)
Theorem UnmountUserBackend_idempotent (dm : DynamicBackendManager) (userID : string)
    (w : World) :
  (not_mounted dm userID
   \/ exists dm0 w0 w1, UnmountUserBackend dm0 userID w0 = (None, dm, w1)) ->
  UnmountUserBackend dm userID w = (None, dm, w).
Proof.
  intros [H|(dm0 & w0 & w1 & H)]; apply UnmountUserBackend_noop.
  - exact H.
  - eapply UnmountUserBackend_success_unmounted. exact H.
Qed.

Lemma UnmountUserBackend_idempotent_witness :
  UnmountUserBackend
    (UnmountUserBackend mounted_registry "t1" working_world).1.2 "t1"
    (UnmountUserBackend mounted_registry "t1" working_world).2
  = (None, (UnmountUserBackend mounted_registry "t1" working_world).1.2,
     (UnmountUserBackend mounted_registry "t1" working_world).2).
Proof.
  apply UnmountUserBackend_idempotent. right.
  exists mounted_registry, working_world,
    (UnmountUserBackend mounted_registry "t1" working_world).2.
  reflexivity.
Defined.

(** C2 as stated fails: when [umount] and [umount -f] both fail the call
    returns the error before the clean-up, and the tenant's handle and
    mount point are still in the registry. *)
Lemma UnmountUserBackend_keeps_entries_on_failure :
  mountPoints mounted_registry !! "t1" = Some "/data/users/t1/storage"
  /\ exists e dm' w',
       UnmountUserBackend mounted_registry "t1" failing_world = (Some e, dm', w')
       /\ trace w' = [umount_cmd "/data/users/t1/storage";
                      umount_force_cmd "/data/users/t1/storage"]
       /\ userBackends dm' !! "t1" = Some (PosixBackend "/data/users/t1/storage")
       /\ mountPoints dm' !! "t1" = Some "/data/users/t1/storage".
Proof.
  split; [reflexivity|].
  eexists _, _, _. split; [reflexivity|]. split; [reflexivity|].
  split; reflexivity.
Qed.

(** C2, as the code has it: for a tenant with a tracked mount point the
    teardown runs [umount], and only if that fails runs [umount -f]
    once; when one of the two succeeds it returns nil and the tenant's
    handle and mount point are gone from the registry; when both fail it
    returns the error of the forced unmount and handle and mount point
    stay.  Other tenants' entries are never touched. *)
Theorem UnmountUserBackend_teardown (dm : DynamicBackendManager) (userID : string)
    (w : World) (mountPoint : string) :
  mountPoints dm !! userID = Some mountPoint ->
  let graceful := oracle w (trace w) (umount_cmd mountPoint) in
  let forced :=
    oracle w (trace w ++ [umount_cmd mountPoint])%list (umount_force_cmd mountPoint) in
  let '(err, dm', w') := UnmountUserBackend dm userID w in
  trace w' = (trace w ++ (if graceful then [umount_cmd mountPoint]
                          else [umount_cmd mountPoint; umount_force_cmd mountPoint]))%list
  /\ (if graceful || forced
      then err = None
           /\ userBackends dm' !! userID = None
           /\ mountPoints dm' !! userID = None
      else err = Some (ErrWrap ("failed to unmount " ++ mountPoint)
                         (ErrCall (umount_force_cmd mountPoint)))
           /\ userBackends dm' = userBackends dm
           /\ mountPoints dm' = mountPoints dm)
  /\ (forall other, other <> userID ->
        userBackends dm' !! other = userBackends dm !! other
        /\ mountPoints dm' !! other = mountPoints dm !! other).
Proof.
  intros Hmp. unfold UnmountUserBackend, umount_cmd, umount_force_cmd. rewrite Hmp.
  unfold call. cbv beta iota zeta. cbn [trace oracle].
  destruct (oracle w (trace w) (Exec ["umount"; mountPoint])); cbv beta iota zeta.
  - cbn [trace orb].
    rewrite !set_status_userBackends, !set_status_mountPoints.
    unfold set_mountPoints, set_userBackends. cbn [userBackends mountPoints].
    rewrite ?set_status_userBackends, ?set_status_mountPoints.
    split; [reflexivity|]. split.
    + split; [reflexivity|]. split; apply lookup_delete_eq.
    + intros other Hne. split; apply lookup_delete_ne; congruence.
  - destruct (oracle w (trace w ++ [Exec ["umount"; mountPoint]])%list
                (Exec ["umount"; "-f"; mountPoint])); cbv beta iota zeta;
      cbn [trace orb].
    + rewrite !set_status_userBackends, !set_status_mountPoints.
      unfold set_mountPoints, set_userBackends. cbn [userBackends mountPoints].
      rewrite ?set_status_userBackends, ?set_status_mountPoints.
      split; [now rewrite <- app_assoc|]. split.
      * split; [reflexivity|]. split; apply lookup_delete_eq.
      * intros other Hne. split; apply lookup_delete_ne; congruence.
    + rewrite !set_status_userBackends, !set_status_mountPoints.
      split; [now rewrite <- app_assoc|]. split; [auto|]. auto.
Qed.

Lemma UnmountUserBackend_teardown_witness :
  let '(err, dm', w') := UnmountUserBackend mounted_registry "t1" flaky_world in
  trace w' = [umount_cmd "/data/users/t1/storage";
              umount_force_cmd "/data/users/t1/storage"]
  /\ (err = None
      /\ userBackends dm' !! "t1" = None
      /\ mountPoints dm' !! "t1" = None)
  /\ (forall other, other <> "t1" ->
        userBackends dm' !! other = userBackends mounted_registry !! other
        /\ mountPoints dm' !! other = mountPoints mounted_registry !! other).
Proof.
  apply (UnmountUserBackend_teardown mounted_registry "t1" flaky_world
           "/data/users/t1/storage").
  reflexivity.
Defined.

End Teardown.

(** ** Backend registry: the [rustfs] kind *)

Section RustFS.
Import Backend RegistrySpec.
Local Open Scope string_scope.

(** [createBackendByType] dispatches [rustfs] to the placeholder, which
    fails without calling anything. *)
Lemma createBackendByType_rustfs dm config w :
  BackendType config = "rustfs" ->
  createBackendByType dm config w = (inr ErrRustFS, dm, w).
Proof. intros H. unfold createBackendByType. rewrite H. reflexivity. Qed.

(** C10: a configuration of kind [rustfs] passes the validation of
    [SetUserStorageConfig] and is stored; for a user with that
    configuration and no handle in the registry, [GetUserBackend] goes
    through [createBackendByType], returns the "not implemented" error
    and stores no handle. *)
Theorem rustfs_accepted_never_constructed (dm : DynamicBackendManager)
    (userID : string) (c : Auth.UserStorageConfig) (w : World) :
  Auth.BackendType c = "rustfs" ->
  userBackends dm !! userID = None ->
  let '(m', err) :=
    Auth.SetUserStorageConfig (multiTenantManager dm) userID (Some c) in
  err = None
  /\ Auth.GetUserStorageConfig m' userID = inl c
  /\ exists dm',
       GetUserBackend (set_multiTenantManager dm m') userID w
       = Returns (inr (ErrWrap ("failed to create backend for user " ++ userID) ErrRustFS),
                  dm', w)
       /\ userBackends dm' !! userID = None.
Proof.
  intros Hty Hnone. unfold Auth.SetUserStorageConfig. rewrite Hty.
  cbn [Auth.is_valid_backend Auth.validBackends String.eqb Ascii.eqb Bool.eqb].
  split; [reflexivity|].
  assert (Hget : Auth.GetUserStorageConfig
                   {| Auth.config := Auth.config (multiTenantManager dm);
                      Auth.userConfigs :=
                        <[userID := c]> (Auth.userConfigs (multiTenantManager dm)) |}
                   userID = inl c).
  { unfold Auth.GetUserStorageConfig. cbn [Auth.userConfigs].
    now rewrite lookup_insert_eq. }
  split; [exact Hget|].
  unfold GetUserBackend, createUserBackend, set_multiTenantManager.
  cbn [userBackends]. rewrite Hnone.
  unfold constructUserBackend. cbn [multiTenantManager]. rewrite Hget.
  cbn [obind]. rewrite createBackendByType_rustfs by exact Hty.
  eexists. split; [reflexivity|].
  rewrite set_status_userBackends. exact Hnone.
Qed.

Lemma rustfs_accepted_never_constructed_witness :
  let '(m', err) :=
    Auth.SetUserStorageConfig
      (multiTenantManager (NewDynamicBackendManager base_config (tenant_manager "posix")))
      "t1"
      (Some {| Auth.BackendType := "rustfs"; Auth.StoragePath := "/data/users/t1/storage";
               Auth.Quota := 0; Auth.UsedSpace := 0; Auth.Mounted := false |}) in
  err = None
  /\ Auth.GetUserStorageConfig m' "t1"
     = inl {| Auth.BackendType := "rustfs"; Auth.StoragePath := "/data/users/t1/storage";
              Auth.Quota := 0; Auth.UsedSpace := 0; Auth.Mounted := false |}
  /\ exists dm',
       GetUserBackend
         (set_multiTenantManager
            (NewDynamicBackendManager base_config (tenant_manager "posix")) m')
         "t1" working_world
       = Returns (inr (ErrWrap ("failed to create backend for user " ++ "t1") ErrRustFS),
                  dm', working_world)
       /\ userBackends dm' !! "t1" = None.
Proof.
  apply (rustfs_accepted_never_constructed
           (NewDynamicBackendManager base_config (tenant_manager "posix")) "t1"
           {| Auth.BackendType := "rustfs"; Auth.StoragePath := "/data/users/t1/storage";
              Auth.Quota := 0; Auth.UsedSpace := 0; Auth.Mounted := false |}
           working_world); reflexivity.
Defined.

(** The other kinds the validation accepts do reach a constructor: a
    [posix] tenant gets its handle when the directory can be made. *)
Example GetUserBackend_posix :
  exists dm',
    GetUserBackend (NewDynamicBackendManager base_config (tenant_manager "posix"))
      "t1" working_world
    = Returns (inl (PosixBackend "/data/users/t1/storage"), dm',
               {| oracle := oracle working_world;
                  trace := [MkdirAll "/data/users/t1/storage";
                            PosixNew "/data/users/t1/storage"] |})
    /\ userBackends dm' !! "t1" = Some (PosixBackend "/data/users/t1/storage").
Proof. eexists. split; reflexivity. Qed.

End RustFS.

(** ** Tenant isolation *)

Section Isolation.
Import Auth PathSpec Filepath.
Local Open Scope string_scope.

(** Splitting a path gives its first element and the split of what
    follows the separator. *)
Lemma split_sep_span s :
  split_sep s
  = (span_elem s).1 :: match (span_elem s).2 with
                       | EmptyString => []
                       | String _ r => split_sep r
                       end.
Proof.
  induction s as [|c s IH]; simpl; [reflexivity|].
  destruct (IsPathSeparator c) eqn:Hc; simpl; [reflexivity|].
  rewrite IH. destruct (span_elem s) as [e rest]. simpl.
  destruct rest; reflexivity.
Qed.

Lemma names_span s :
  names s = (filter (fun e => e <> "" /\ e <> ".") [(span_elem s).1] ++ names (skip_sep (span_elem s).2))%list.
Proof.
  unfold names. rewrite (split_sep_span s).
  destruct (span_elem s) as [e rest]. cbn [fst snd].
  change (e :: match rest with EmptyString => [] | String _ r => split_sep r end)
    with ([e] ++ match rest with EmptyString => [] | String _ r => split_sep r end)%list.
  rewrite filter_app. f_equal.
  destruct rest; simpl; [|reflexivity].
  rewrite filter_cons_False; [reflexivity|]. intros [H _]. now apply H.
Qed.

(** When the loop of [Rel] uses up the base, the names of the base are
    the first names of the target. *)
Lemma rel_loop_prefix fuel :
  forall base targ stop trest,
    rel_loop fuel base targ = (stop, EmptyString, trest) ->
    exists l, names targ = (names base ++ l)%list.
Proof.
  induction fuel as [|fuel IH]; intros base targ stop trest H; simpl in H.
  - injection H as _ -> _. exists (names targ). reflexivity.
  - destruct (String.eqb_spec base "") as [->|Hb].
    { exists (names targ). reflexivity. }
    destruct (String.eqb_spec targ "") as [->|Ht].
    { simpl in H. injection H as _ -> _. contradiction. }
    simpl in H.
    rewrite (names_span base), (names_span targ).
    destruct (span_elem base) as [be brest]. destruct (span_elem targ) as [te trest0].
    cbn [fst snd].
    destruct (String.eqb_spec te be) as [->|Hne]; simpl in H.
    + apply IH in H as [l Hl]. exists l. rewrite Hl. now rewrite app_assoc.
    + injection H as _ -> _. contradiction.
Qed.

Lemma is_prefix_app l l' : is_prefix l (l ++ l') = true.
Proof.
  induction l as [|x l IH]; simpl; [reflexivity|].
  now rewrite String.eqb_refl, IH.
Qed.

Lemma prefix_empty s : String.prefix "" s = true.
Proof. destruct s; reflexivity. Qed.

(** Whatever [isSubPath] lets through is the base path or lies below it. *)
Lemma isSubPath_sound basePath path :
  isSubPath basePath path = true -> is_descendant basePath path = true.
Proof.
  unfold isSubPath, is_descendant, elements, Rel.
  set (b := Clean basePath). set (t := Clean path).
  destruct (String.eqb_spec t b) as [->|Hne].
  { intros _. rewrite eqb_reflx. simpl.
    rewrite <- (app_nil_r (names b)) at 2. apply is_prefix_app. }
  assert (Hb : names (if String.eqb b "." then "" else b) = names b
               /\ IsAbs (if String.eqb b "." then "" else b) = IsAbs b).
  { destruct (String.eqb_spec b ".") as [->|]; split; reflexivity. }
  destruct Hb as [Hnames Habs]. rewrite Habs.
  destruct (Bool.eqb (IsAbs b) (IsAbs t)) eqn:Hroot; simpl; [|discriminate].
  destruct (rel_loop _ _ t) as [[stop brest] trest] eqn:Hloop.
  destruct (stop =? "..")%string; [discriminate|].
  destruct (String.eqb_spec brest "") as [->|Hrest]; simpl.
  - intros _. apply rel_loop_prefix in Hloop as [l Hl].
    rewrite Hnames in Hl. rewrite Hl. apply is_prefix_app.
  - unfold HasPrefix. rewrite prefix_empty. discriminate.
Qed.

(** The check follows the path elements, not the characters: a sibling
    whose name extends the tenant's, a path that climbs out with [..],
    and a relative path are refused; the base itself and what lies below
    it are let through. *)
Example isSubPath_examples :
  isSubPath "/data/users/alice" "/data/users/alice" = true
  /\ isSubPath "/data/users/alice" "/data/users/alice/bucket/key" = true
  /\ isSubPath "/data/users/alice" "/data/users/alice/./a//b/../c" = true
  /\ isSubPath "/data/users/alice" "/data/users/alice2/bucket" = false
  /\ isSubPath "/data/users/alice" "/data/users/alice/../bob/key" = false
  /\ isSubPath "/data/users/alice" "/data/users" = false
  /\ isSubPath "/data/users/alice" "data/users/alice/key" = false.
Proof. repeat split; reflexivity. Qed.

(** C7: [/data/users/alice/..cache/x] lies below [/data/users/alice],
    but its path relative to the base, [..cache/x], begins with the two
    characters [..], so [isSubPath] answers false and
    [ValidateUserAccess] denies the tenant access to its own object.
    (Nothing outside the base is let through: [isSubPath_sound].) *)
Theorem isSubPath_refuses_dotdot_name :
  GetUserBasePath isolating_manager "alice" = inl "/data/users/alice"
  /\ is_descendant "/data/users/alice" "/data/users/alice/..cache/x" = true
  /\ Filepath.Rel "/data/users/alice" "/data/users/alice/..cache/x" = Some "..cache/x"
  /\ isSubPath "/data/users/alice" "/data/users/alice/..cache/x" = false
  /\ ValidateUserAccess "alice" "/data/users/alice/..cache/x" isolating_manager
     = Some ErrAccessDenied.
Proof. repeat split; reflexivity. Qed.

End Isolation.

(** ** Two concurrent callers of [GetUserBackend] *)

Section ConcurrentCallers.
Import Backend Concurrent ConcurrentSpec RegistrySpec.
Local Open Scope string_scope.
Local Arguments constructUserBackend : simpl never.

(** No constructor touches the map of handles. *)
Lemma createBackendByType_userBackends dm config w :
  userBackends (createBackendByType dm config w).1.2 = userBackends dm.
Proof.
  unfold createBackendByType, createCephFSBackend, createNFSBackend,
    createLustreBackend, createLustreEnhancedBackend, createMinIOBackend,
    createPosixBackend, createRustFSBackend, mountCephFS, mountNFS, mountLustre,
    executeMount, call.
  repeat match goal with
         | |- context [if ?b then _ else _] => destruct b
         end; reflexivity.
Qed.

Lemma createDefaultUserConfig_userBackends dm userID :
  userBackends (createDefaultUserConfig dm userID).2 = userBackends dm.
Proof.
  unfold createDefaultUserConfig.
  destruct (Auth.GetUserBasePath _ _); [|reflexivity].
  destruct (Auth.SetUserStorageConfig _ _ _). reflexivity.
Qed.

(** A construction that succeeds stores the handle it returns; one that
    fails leaves the map of handles as it was. *)
Lemma constructUserBackend_userBackends dm userID w r dm' w' :
  constructUserBackend dm userID w = Returns (r, dm', w') ->
  match r with
  | inl b => userBackends dm' !! userID = Some b
  | inr _ => userBackends dm' = userBackends dm
  end.
Proof.
  unfold constructUserBackend.
  set (fetched := match Auth.GetUserStorageConfig (multiTenantManager dm) userID with
                  | inl sc => _ | inr _ => _ end).
  assert (Hf : forall x dm1, fetched = Returns (x, dm1) ->
                             userBackends dm1 = userBackends dm).
  { unfold fetched. intros x dm1.
    destruct (Auth.GetUserStorageConfig (multiTenantManager dm) userID).
    - intros [= _ <-]. reflexivity.
    - pose proof (createDefaultUserConfig_userBackends dm userID) as Hd.
      destruct (createDefaultUserConfig dm userID) as [err dm2]. simpl in Hd.
      destruct err.
      + intros [= _ <-]. exact Hd.
      + destruct (Auth.GetUserStorageConfig (multiTenantManager dm2) userID);
          [|discriminate].
        intros [= _ <-]. exact Hd. }
  destruct fetched as [[x dm1]| |]; try discriminate. cbn [obind].
  specialize (Hf x dm1 eq_refl).
  destruct x as [sc|e].
  - match goal with
    | |- context [createBackendByType ?d ?c ?w0] =>
        pose proof (createBackendByType_userBackends d c w0) as Hc;
        destruct (createBackendByType d c w0) as [[r2 dm2] w2]
    end.
    simpl in Hc. destruct r2 as [b|e].
    + intros [= <- <- _]. rewrite set_status_userBackends. simpl.
      apply lookup_insert_eq.
    + intros [= <- <- _]. rewrite set_status_userBackends. congruence.
  - intros [= <- <- _]. exact Hf.
Qed.

(** Caller B's step is caller A's with the two callers exchanged. *)
Lemma step_swap userID c :
  step userID CallerB c = swap <$> step userID CallerA (swap c).
Proof.
  destruct c as [dm0 w0 [wr rd] pA pB n]. unfold step. cbn [pc_of swap pcA pcB mu dm world started].
  destruct pB; cbn [set_pc set_mu mu dm world started pcA pcB];
    unfold can_RLock, can_Lock; cbn [writer readers];
    try reflexivity.
  - destruct wr; reflexivity.
  - destruct wr; [reflexivity|]. cbn [negb andb]. destruct (rd =? 0)%nat; reflexivity.
  - destruct wr; [reflexivity|]. cbn [negb andb]. destruct (rd =? 0)%nat; reflexivity.
  - destruct (constructUserBackend dm0 userID w0) as [[[r dm1] w1]| |]; reflexivity.
Qed.

Lemma invariant_swap userID c : invariant userID c -> invariant userID (swap c).
Proof.
  intros [Hw Hx Hr Hc Hk Hle Hge].
  constructor; cbn [swap mu pcA pcB dm started world].
  - rewrite orb_comm. exact Hw.
  - rewrite andb_comm. exact Hx.
  - rewrite Nat.add_comm. exact Hr.
  - intros [|] b; [apply (Hc CallerB)|apply (Hc CallerA)].
  - intros [|]; [apply (Hk CallerB)|apply (Hk CallerA)].
  - unfold stored in *. cbn [dm] in *. lia.
  - exact Hge.
Qed.

Ltac close :=
  unfold stored in *; cbn in *; intros;
  repeat match goal with t : caller |- _ => destruct t; cbn in * end;
  try first [ assumption | reflexivity | discriminate | lia | congruence
            | solve [auto] | solve [eauto] ].

(** Every step caller A can take keeps the invariant. *)
Lemma step_invariant_A userID c c' :
  invariant userID c -> step userID CallerA c = Some c' -> invariant userID c'.
Proof.
  intros [Hw Hx Hr Hc Hk Hle Hge] Hstep. unfold step in Hstep.
  pose proof (Hc CallerA) as HcA. pose proof (Hc CallerB) as HcB.
  pose proof (Hk CallerA) as HkA. pose proof (Hk CallerB) as HkB.
  clear Hc Hk. unfold stored in *.
  destruct c as [dm0 w0 [wr rd] pA pB n].
  cbn [pc_of pcA pcB mu dm world started writer readers] in *.
  destruct pA; cbn [set_pc set_mu mu dm world started pcA pcB holds_write holds_read
                    carries failed orb andb] in *.
  - (* RLock *)
    unfold can_RLock in Hstep. cbn [writer] in Hstep.
    destruct wr; [discriminate|]. injection Hstep as <-.
    constructor; close.
  - (* lookup *)
    injection Hstep as <-.
    constructor; close.
    all: destruct (userBackends dm0 !! userID); close.
  - (* RUnlock *)
    injection Hstep as <-.
    constructor; destruct found; close.
  - (* Lock in updateLastAccessed *)
    unfold can_Lock in Hstep. cbn [writer readers] in Hstep.
    destruct wr; [discriminate|]. cbn [negb andb] in Hstep.
    destruct (Nat.eqb_spec rd 0); [|discriminate]. injection Hstep as <-.
    constructor; close.
  - (* updateLastAccessed and Unlock *)
    injection Hstep as <-. unfold updateLastAccessed.
    constructor; close.
  - (* Lock in createUserBackend *)
    unfold can_Lock in Hstep. cbn [writer readers] in Hstep.
    destruct wr; [discriminate|]. cbn [negb andb] in Hstep.
    destruct (Nat.eqb_spec rd 0); [|discriminate]. injection Hstep as <-.
    constructor; close.
  - (* re-check *)
    injection Hstep as <-.
    constructor; destruct (userBackends dm0 !! userID) eqn:Hs; close; rewrite ?Hs; close.
  - (* construction *)
    destruct (constructUserBackend dm0 userID w0) as [[[r dm1] w1]| |] eqn:Hcons;
      try discriminate.
    injection Hstep as <-.
    apply constructUserBackend_userBackends in Hcons.
    specialize (HkA eq_refl).
    assert (HnB : carries pB = None).
    { destruct (carries pB) eqn:E; [|reflexivity]. specialize (HcB _ eq_refl).
      congruence. }
    constructor; destruct r as [b|e]; rewrite ?Hcons, ?HkA in *; close;
      try (subst pB; discriminate); rewrite ?Hcons, ?HkA; close.
  - (* Unlock *)
    injection Hstep as <-.
    constructor; close.
  - discriminate.
Qed.

Lemma step_invariant userID t c c' :
  invariant userID c -> step userID t c = Some c' -> invariant userID c'.
Proof.
  destruct t; [apply step_invariant_A|].
  intros Hinv Hstep. rewrite step_swap in Hstep.
  destruct (step userID CallerA (swap c)) as [c2|] eqn:HA; [|discriminate].
  injection Hstep as <-.
  apply invariant_swap in Hinv.
  exact (invariant_swap _ _ (step_invariant_A _ _ _ Hinv HA)).
Qed.

Lemma run_invariant userID sched :
  forall c, invariant userID c -> invariant userID (run userID sched c).
Proof.
  induction sched as [|t rest IH]; intros c Hinv; simpl; [assumption|].
  destruct (step userID t c) as [c'|] eqn:Hstep.
  - apply IH. eapply step_invariant; eassumption.
  - apply IH. assumption.
Qed.

Lemma initial_invariant userID dm0 w0 :
  userBackends dm0 !! userID = None -> invariant userID (initial dm0 w0).
Proof.
  intros Hnone. constructor; unfold stored; simpl; try reflexivity.
  - intros [|] b; discriminate.
  - intros [|]; discriminate.
  - rewrite Hnone. lia.
  - rewrite Hnone. lia.
Qed.

(** The construction sequence never panics: the record read back after
    [createDefaultUserConfig] is the one it has just stored. *)
Lemma constructUserBackend_returns dm userID w :
  exists r dm' w', constructUserBackend dm userID w = Returns (r, dm', w').
Proof.
  unfold constructUserBackend.
  assert (Hf : exists x dm1,
    match Auth.GetUserStorageConfig (multiTenantManager dm) userID with
    | inl storageConfig => Returns (inl storageConfig, dm)
    | inr _ =>
        let '(err, dm) := createDefaultUserConfig dm userID in
        match err with
        | Some e => Returns (inr e, dm)
        | None =>
            match Auth.GetUserStorageConfig (multiTenantManager dm) userID with
            | inl storageConfig => Returns (inl storageConfig, dm)
            | inr _ => Panics
            end
        end
    end = Returns (x, dm1)).
  { destruct (Auth.GetUserStorageConfig (multiTenantManager dm) userID); [eauto|].
    unfold createDefaultUserConfig.
    destruct (Auth.GetUserBasePath (multiTenantManager dm) userID); [|simpl; eauto].
    unfold Auth.SetUserStorageConfig. cbn [Auth.BackendType].
    destruct (Auth.is_valid_backend _ _); cbn [option_map]; [|eauto].
    unfold Auth.GetUserStorageConfig, set_multiTenantManager.
    cbn [multiTenantManager Auth.userConfigs]. rewrite lookup_insert_eq. eauto. }
  destruct Hf as (x & dm1 & ->). cbn [obind].
  destruct x as [sc|e]; [|eauto].
  match goal with
  | |- context [createBackendByType ?d ?c ?w0] =>
      destruct (createBackendByType d c w0) as [[r2 dm2] w2]
  end.
  destruct r2; eauto.
Qed.

(** Run one after the other, both callers return. *)
Lemma A_then_B_returns userID dm0 w0 :
  userBackends dm0 !! userID = None ->
  exists rA rB,
    pcA (run userID A_then_B (initial dm0 w0)) = Done rA
    /\ pcB (run userID A_then_B (initial dm0 w0)) = Done rB.
Proof.
  intros Hnone. unfold A_then_B, initial. cbn [replicate app run].
  unfold step at 1. cbn. rewrite Hnone. cbn. rewrite Hnone. cbn.
  destruct (constructUserBackend_returns dm0 userID w0) as (r & dm1 & w1 & ->).
  cbn.
  destruct (userBackends dm1 !! userID) as [b|] eqn:Hs; cbn.
  - eauto.
  - rewrite Hs. cbn.
    destruct (constructUserBackend_returns dm1 userID w1) as (r' & dm2 & w2 & ->).
    cbn. eauto.
Qed.




(** When nothing fails, both callers return the one handle that was
    constructed, whichever of the two schedules runs. *)
Example GetUserBackend_both_schedules :
  pcA (run "t1" both_miss_first (initial posix_registry working_world))
    = Done (inl (PosixBackend "/data/users/t1/storage"))
  /\ pcB (run "t1" both_miss_first (initial posix_registry working_world))
    = Done (inl (PosixBackend "/data/users/t1/storage"))
  /\ started (run "t1" both_miss_first (initial posix_registry working_world)) = 1%nat
  /\ pcB (run "t1" A_then_B (initial posix_registry working_world))
    = Done (inl (PosixBackend "/data/users/t1/storage"))
  /\ started (run "t1" A_then_B (initial posix_registry working_world)) = 1%nat.
Proof. repeat split; vm_compute; reflexivity. Qed.

End ConcurrentCallers.

(** ** Tenant manager: records, usage and namespaces *)

Section TenantRecords.
Import Auth Namespace.
Local Open Scope string_scope.

Lemma is_valid_backend_elem ty l : is_valid_backend ty l = true <-> ty ∈ l.
Proof.
  induction l as [|x l IH]; simpl.
  - split; [discriminate|]. intros H. inversion H.
  - destruct (String.eqb_spec ty x) as [->|Hne].
    + split; [intros _; left|reflexivity].
    + rewrite IH. split; [now right|]. intros H.
      apply elem_of_cons in H as [?|?]; [contradiction|assumption].
Qed.

(** X1: [SetUserStorageConfig] stores a record exactly when its backend
    type is one of the six known names; then [GetUserStorageConfig]
    gives that record back for the user and what it gives for every
    other user is unchanged.  Otherwise it answers
    [ErrInvalidBackendType] and the manager is as before. *)
Theorem SetUserStorageConfig_roundtrip (m : DefaultMultiTenantManager)
    (userID : string) (c : UserStorageConfig) :
  ((BackendType c ∈ validBackends)
   /\ (SetUserStorageConfig m userID (Some c)).2 = None
   /\ GetUserStorageConfig (SetUserStorageConfig m userID (Some c)).1 userID = inl c
   /\ forall other, other <> userID ->
        GetUserStorageConfig (SetUserStorageConfig m userID (Some c)).1 other
        = GetUserStorageConfig m other)
  \/ ((BackendType c ∉ validBackends)
      /\ SetUserStorageConfig m userID (Some c) = (m, Some ErrInvalidBackendType)).
Proof.
  unfold SetUserStorageConfig.
  destruct (is_valid_backend (BackendType c) validBackends) eqn:Hv.
  - left. apply is_valid_backend_elem in Hv. split; [exact Hv|].
    split; [reflexivity|]. unfold GetUserStorageConfig. simpl. split.
    + now rewrite lookup_insert_eq.
    + intros other Hne. rewrite lookup_insert_ne by congruence. reflexivity.
  - right. split; [|reflexivity]. intros Hin.
    apply is_valid_backend_elem in Hin. congruence.
Qed.



(** X3: a write that [CheckQuota] lets through and that is then booked by
    [UpdateUsedSpace] keeps the usage of a limited tenant between 0 and
    its quota. *)
Theorem CheckQuota_then_UpdateUsedSpace (m : DefaultMultiTenantManager)
    (userID : string) (c : UserStorageConfig) (additionalSize : Z) :
  userConfigs m !! userID = Some c ->
  0 < Quota c <= Int64.max_int -> 0 <= UsedSpace c <= Quota c ->
  0 <= additionalSize <= Int64.max_int ->
  CheckQuota m userID additionalSize = None ->
  exists c',
    userConfigs (UpdateUsedSpace m userID additionalSize).1 !! userID = Some c'
    /\ Quota c' = Quota c
    /\ 0 <= UsedSpace c' <= Quota c'.
Proof.
  intros Hc Hq Hu Ha Hcheck.
  unfold CheckQuota, UpdateUsedSpace, GetUserStorageConfig in *. rewrite Hc in *.
  simpl. rewrite lookup_insert_eq. eexists. split; [reflexivity|]. simpl.
  split; [reflexivity|].
  destruct (Z.eqb_spec (Quota c) 0); [lia|].
  destruct (Z.gtb_spec (Int64.add (UsedSpace c) additionalSize) (Quota c));
    [discriminate|].
  destruct (Z.ltb_spec (Int64.add (UsedSpace c) additionalSize) 0); lia.
Qed.

Lemma CheckQuota_then_UpdateUsedSpace_witness :
  exists c',
    userConfigs (UpdateUsedSpace (Spec.manager_with "u1" Spec.record_100_90) "u1" 10).1
      !! "u1" = Some c'
    /\ Quota c' = Quota Spec.record_100_90
    /\ 0 <= UsedSpace c' <= Quota c'.
Proof.
  apply (CheckQuota_then_UpdateUsedSpace (Spec.manager_with "u1" Spec.record_100_90)
           "u1" Spec.record_100_90 10).
  - reflexivity.
  - simpl. unfold Int64.max_int. lia.
  - simpl. lia.
  - unfold Int64.max_int. lia.
  - reflexivity.
Defined.

(** X4: for a user without a record every per-user operation reports
    [ErrUserStorageNotFound] (wrapped, for a deletion) and changes
    nothing. *)
Theorem unknown_user_is_reported (factory : BackendFactory)
    (m : DefaultMultiTenantManager) (userID : string) (n : Z) :
  userConfigs m !! userID = None ->
  GetUserStorageConfig m userID = inr ErrUserStorageNotFound
  /\ CheckQuota m userID n = Some ErrUserStorageNotFound
  /\ UpdateUsedSpace m userID n = (m, Some ErrUserStorageNotFound)
  /\ MountUserStorage factory m userID = (m, Some (Sentinel ErrUserStorageNotFound))
  /\ UnmountUserStorage m userID = (m, Some (Sentinel ErrUserStorageNotFound))
  /\ DeleteUserNamespace m userID
     = (m, Some (Wrap "failed to unmount storage before deletion"
                   (Sentinel ErrUserStorageNotFound))).
Proof.
  intros H.
  unfold DeleteUserNamespace, UnmountUserStorage, MountUserStorage, UpdateUsedSpace,
    CheckQuota, GetUserStorageConfig.
  rewrite H. repeat split.
Qed.

Lemma unknown_user_is_reported_witness :
  GetUserStorageConfig (Spec.manager_with "u1" Spec.record_100_90) "u2"
    = inr ErrUserStorageNotFound
  /\ CheckQuota (Spec.manager_with "u1" Spec.record_100_90) "u2" 5
     = Some ErrUserStorageNotFound
  /\ UpdateUsedSpace (Spec.manager_with "u1" Spec.record_100_90) "u2" 5
     = (Spec.manager_with "u1" Spec.record_100_90, Some ErrUserStorageNotFound)
  /\ MountUserStorage obliging_factory (Spec.manager_with "u1" Spec.record_100_90) "u2"
     = (Spec.manager_with "u1" Spec.record_100_90, Some (Sentinel ErrUserStorageNotFound))
  /\ UnmountUserStorage (Spec.manager_with "u1" Spec.record_100_90) "u2"
     = (Spec.manager_with "u1" Spec.record_100_90, Some (Sentinel ErrUserStorageNotFound))
  /\ DeleteUserNamespace (Spec.manager_with "u1" Spec.record_100_90) "u2"
     = (Spec.manager_with "u1" Spec.record_100_90,
        Some (Wrap "failed to unmount storage before deletion"
                (Sentinel ErrUserStorageNotFound))).
Proof.
  apply (unknown_user_is_reported obliging_factory
           (Spec.manager_with "u1" Spec.record_100_90) "u2" 5).
  reflexivity.
Defined.



Lemma Clean_nonempty path : Filepath.Clean path <> "".
Proof.
  unfold Filepath.Clean.
  destruct (String.eqb path ""); [discriminate|].
  destruct (Filepath.IsAbs path); [discriminate|].
  match goal with |- context [String.eqb ?b ""] => destruct (String.eqb_spec b "") end;
    [discriminate|assumption].
Qed.

Lemma GetUserBasePath_nonempty m userID basePath :
  GetUserBasePath m userID = inl basePath -> basePath <> "".
Proof.
  unfold GetUserBasePath. destruct (negb (Enabled (config m))); [discriminate|].
  intros [= <-]. simpl.
  destruct (String.eqb (BasePath (config m)) ""); apply Clean_nonempty.
Qed.


Lemma with_mounted_roundtrip c :
  Mounted c = false -> with_mounted (with_mounted c true) false = c.
Proof. destruct c; simpl; intros ->; reflexivity. Qed.

Lemma store_same m userID c :
  userConfigs m !! userID = Some c -> store m userID c = m.
Proof.
  intros H. destruct m as [cfg M]. unfold store. simpl in *.
  now rewrite insert_id.
Qed.

Lemma store_store m userID c1 c2 :
  store (store m userID c1) userID c2 = store m userID c2.
Proof. unfold store. simpl. now rewrite insert_insert_eq. Qed.

Lemma switch_valid ty :
  ty ∈ validBackends ->
  (String.eqb ty "posix" || String.eqb ty "cephfs" || String.eqb ty "nfs"
   || String.eqb ty "lustre") = true
  \/ (String.eqb ty "minio" || String.eqb ty "rustfs") = true.
Proof.
  unfold validBackends. intros H.
  repeat (apply elem_of_cons in H as [->|H]; [simpl; auto|]).
  inversion H.
Qed.



Lemma factory_CreateBackend_fails f backendType :
  factory_CreateBackend f backendType <> None.
Proof.
  unfold factory_CreateBackend.
  destruct (backendTemplates f !! backendType) as [[|]|]; simpl; try discriminate.
  repeat match goal with |- context [if ?b then _ else _] => destruct b end;
    discriminate.
Qed.

(** X8: the backend factory of the command creates nothing -- every
    path through [CreateBackend] ends in an error -- so with it
    [MountUserStorage] never marks an unmounted tenant mounted: it
    returns the factory's error, wrapped, and the manager is unchanged. *)
Theorem MountUserStorage_repository_factory (f : MultiTenantBackendFactory)
    (m : DefaultMultiTenantManager) (userID : string) (c : UserStorageConfig) :
  userConfigs m !! userID = Some c -> Mounted c = false ->
  exists e,
    factory_CreateBackend f (BackendType c) = Some e
    /\ MountUserStorage (repository_factory f) m userID
       = (m, Some (Wrap "failed to create backend" (Factory e))).
Proof.
  intros Hc Hm. unfold MountUserStorage, GetUserStorageConfig. rewrite Hc, Hm.
  simpl. pose proof (factory_CreateBackend_fails f (BackendType c)) as Hf.
  destruct (factory_CreateBackend f (BackendType c)) as [e|]; [|contradiction].
  exists e. split; reflexivity.
Qed.

Lemma MountUserStorage_repository_factory_witness :
  exists e,
    factory_CreateBackend {| backendTemplates := {[ "posix" := true ]} |}
      (BackendType Spec.record_100_90) = Some e
    /\ MountUserStorage (repository_factory {| backendTemplates := {[ "posix" := true ]} |})
         (Spec.manager_with "u1" Spec.record_100_90) "u1"
       = (Spec.manager_with "u1" Spec.record_100_90,
          Some (Wrap "failed to create backend" (Factory e))).
Proof.
  apply (MountUserStorage_repository_factory
           {| backendTemplates := {[ "posix" := true ]} |}
           (Spec.manager_with "u1" Spec.record_100_90) "u1" Spec.record_100_90);
    reflexivity.
Defined.

End TenantRecords.

(** ** Tenant isolation: what is let through *)

Section AccessValidation.
Import Auth PathSpec.
Local Open Scope string_scope.

(** X9: whenever [ValidateUserAccess] lets a resource path through,
    either tenant isolation is switched off or the path is the user's
    base path or lies below it; no path outside the user's namespace
    passes. *)
Theorem ValidateUserAccess_sound (m : DefaultMultiTenantManager)
    (userID resourcePath : string) :
  ValidateUserAccess userID resourcePath m = None ->
  Enabled (config m) = false
  \/ exists userBasePath,
       GetUserBasePath m userID = inl userBasePath
       /\ is_descendant userBasePath resourcePath = true.
Proof.
  unfold ValidateUserAccess, IsTenantIsolationEnabled.
  destruct (Enabled (config m)) eqn:Hen; [|auto]. simpl.
  destruct (GetUserBasePath m userID) as [base|e]; [|discriminate].
  destruct (isSubPath base resourcePath) eqn:Hsub; [|discriminate].
  intros _. right. exists base. split; [reflexivity|].
  now apply isSubPath_sound.
Qed.

Lemma ValidateUserAccess_sound_witness :
  Enabled (config isolating_manager) = false
  \/ exists userBasePath,
       GetUserBasePath isolating_manager "alice" = inl userBasePath
       /\ is_descendant userBasePath "/data/users/alice/bucket/key" = true.
Proof.
  apply (ValidateUserAccess_sound isolating_manager "alice"
           "/data/users/alice/bucket/key").
  reflexivity.
Defined.

End AccessValidation.

(** ** Stripe planner: bounds *)

Section PlannerBounds.
Import Lustre.

(** X10: the planned stripe count is at least 1 and at most 8, it never
    decreases when the object grows, and it never exceeds a configured
    positive stripe count. *)
Theorem calculateOptimalStriping_bounds (lustreConfig : LustreConfig) (a b : Z) :
  a <= b ->
  1 <= StripeCount (calculateOptimalStriping lustreConfig a)
  /\ StripeCount (calculateOptimalStriping lustreConfig a)
     <= StripeCount (calculateOptimalStriping lustreConfig b)
  /\ StripeCount (calculateOptimalStriping lustreConfig b) <= 8
  /\ (0 < cfg_StripeCount lustreConfig ->
      StripeCount (calculateOptimalStriping lustreConfig b) <= cfg_StripeCount lustreConfig).
Proof.
  intros Hab. unfold calculateOptimalStriping. simpl.
  destruct lustreConfig as [maxc ssz]; simpl.
  repeat match goal with
         | |- context [?x <? ?y] => destruct (Z.ltb_spec x y)
         | |- context [?x >? ?y] => rewrite (Z.gtb_ltb x y)
         end; simpl; lia.
Qed.

Lemma calculateOptimalStriping_bounds_witness :
  1 <= StripeCount (calculateOptimalStriping
                      {| cfg_StripeCount := 3; cfg_StripeSize := 1048576 |} 5)
  /\ StripeCount (calculateOptimalStriping
                    {| cfg_StripeCount := 3; cfg_StripeSize := 1048576 |} 5)
     <= StripeCount (calculateOptimalStriping
                       {| cfg_StripeCount := 3; cfg_StripeSize := 1048576 |} 2000000000)
  /\ StripeCount (calculateOptimalStriping
                    {| cfg_StripeCount := 3; cfg_StripeSize := 1048576 |} 2000000000) <= 8
  /\ (0 < cfg_StripeCount {| cfg_StripeCount := 3; cfg_StripeSize := 1048576 |} ->
      StripeCount (calculateOptimalStriping
                     {| cfg_StripeCount := 3; cfg_StripeSize := 1048576 |} 2000000000)
      <= cfg_StripeCount {| cfg_StripeCount := 3; cfg_StripeSize := 1048576 |}).
Proof.
  apply (calculateOptimalStriping_bounds
           {| cfg_StripeCount := 3; cfg_StripeSize := 1048576 |} 5 2000000000).
  lia.
Defined.

End PlannerBounds.

(** ** Range decomposition: shape of the chunk list *)

Section ChunkShapes.
Import Lustre ChunkSpec ChunkShape.

(** The first turn of the loop, from a state whose range fits in
    [int64]: the chunk runs to the next stripe boundary or to the end of
    the range, whichever comes first. *)
Lemma stripeChunksLoop_first fuel stripeSize stripeCount currentOffset remaining :
  0 < stripeSize <= Int64.max_int -> 1 <= stripeCount ->
  0 <= currentOffset -> 0 < remaining -> currentOffset + remaining <= 2 ^ 63 ->
  let chunk := Z.min (stripeSize - currentOffset mod stripeSize) remaining in
  stripeChunksLoop (S fuel) stripeSize stripeCount currentOffset remaining []
  = (do l <~ stripeChunksLoop fuel stripeSize stripeCount
               (if remaining - chunk =? 0 then Int64.add currentOffset chunk
                else currentOffset + chunk)
               (remaining - chunk) [];
     Returns ({| Offset := currentOffset; Size := chunk;
                 Stripe := (currentOffset / stripeSize) mod stripeCount |} :: l)).
Proof.
  intros Hss Hsc Hcur Hrem Hfit chunk. simpl.
  pose proof (Z.mod_pos_bound currentOffset stripeSize ltac:(lia)) as Hmod.
  assert (Hcm : currentOffset <= Int64.max_int) by (unfold Int64.max_int; lia).
  destruct (Z.gtb_spec remaining 0); [|lia].
  destruct (Z.eqb_spec stripeSize 0); [lia|].
  destruct (Z.eqb_spec stripeCount 0); [lia|]. simpl orb. cbv iota.
  rewrite (rem_exact currentOffset stripeSize) by lia.
  rewrite (quo_exact currentOffset stripeSize) by lia.
  rewrite (rem_exact (currentOffset / stripeSize) stripeCount)
    by (try apply Z.div_pos; lia).
  rewrite (sub_exact stripeSize (currentOffset mod stripeSize))
    by (unfold Int64.in_range, Int64.min_int, Int64.max_int in *; lia).
  assert (Hchunk : (if stripeSize - currentOffset mod stripeSize >? remaining
                    then remaining else stripeSize - currentOffset mod stripeSize)
                   = chunk).
  { unfold chunk. destruct (Z.gtb_spec (stripeSize - currentOffset mod stripeSize) remaining);
      lia. }
  rewrite Hchunk.
  assert (0 < chunk <= remaining) by (unfold chunk; lia).
  rewrite (sub_exact remaining chunk)
    by (unfold Int64.in_range, Int64.min_int, Int64.max_int in *; lia).
  rewrite stripeChunksLoop_acc.
  destruct (Z.eqb_spec (remaining - chunk) 0) as [Hz|Hnz]; [reflexivity|].
  rewrite add_exact
    by (unfold Int64.in_range, Int64.min_int, Int64.max_int in *; lia).
  reflexivity.
Qed.

(** Every chunk ends on a stripe boundary or at the end of the range. *)
Lemma stripeChunksLoop_aligned stripeSize stripeCount :
  0 < stripeSize <= Int64.max_int -> 1 <= stripeCount ->
  forall fuel currentOffset remaining chunks,
    0 <= currentOffset -> 0 <= remaining -> currentOffset + remaining <= 2 ^ 63 ->
    stripeChunksLoop fuel stripeSize stripeCount currentOffset remaining []
    = Returns chunks ->
    tiles currentOffset (currentOffset + remaining) chunks
    /\ Forall (in_one_stripe stripeSize stripeCount) chunks
    /\ Forall (ends_aligned stripeSize (currentOffset + remaining)) chunks.
Proof.
  intros Hss Hsc. induction fuel as [|fuel IH];
    intros cur rem chunks Hcur Hrem Hfit Hrun.
  { simpl in Hrun. destruct (Z.gtb_spec rem 0); [discriminate|].
    injection Hrun as <-. simpl. split; [lia|]. split; constructor. }
  destruct (Z.eq_dec rem 0) as [->|Hnz].
  { simpl in Hrun. injection Hrun as <-. simpl. split; [lia|]. split; constructor. }
  rewrite stripeChunksLoop_first in Hrun by lia.
  pose proof (Z.mod_pos_bound cur stripeSize ltac:(lia)) as Hmod.
  set (chunk := Z.min (stripeSize - cur mod stripeSize) rem) in *.
  assert (Hchunk : 0 < chunk <= rem) by (unfold chunk; lia).
  match type of Hrun with
  | context [stripeChunksLoop fuel stripeSize stripeCount ?c' ?r' []] =>
      destruct (stripeChunksLoop fuel stripeSize stripeCount c' r' []) as [rest| |] eqn:Hrest;
      try discriminate
  end.
  simpl in Hrun. injection Hrun as <-.
  assert (Hfirst : in_one_stripe stripeSize stripeCount
                     {| Offset := cur; Size := chunk;
                        Stripe := (cur / stripeSize) mod stripeCount |}).
  { split; [|reflexivity]. simpl. apply same_stripe; unfold chunk; lia. }
  assert (Hend : ends_aligned stripeSize (cur + rem)
                   {| Offset := cur; Size := chunk;
                      Stripe := (cur / stripeSize) mod stripeCount |}).
  { unfold ends_aligned. simpl. unfold chunk.
    destruct (Z.le_gt_cases rem (stripeSize - cur mod stripeSize)).
    - left. lia.
    - right. replace (cur + Z.min (stripeSize - cur mod stripeSize) rem)
        with (cur - cur mod stripeSize + 1 * stripeSize) by lia.
      rewrite Z.mod_add by lia.
      rewrite Zminus_mod, Zmod_mod, Z.sub_diag. apply Zmod_0_l. }
  destruct (Z.eqb_spec (rem - chunk) 0) as [Hz|Hnz'].
  - rewrite Hz in Hrest.
    assert (rest = []) as -> by (destruct fuel; simpl in Hrest; congruence).
    simpl. split; [lia|]. split; constructor; auto.
  - apply IH in Hrest as (Ht & Hs & Ha); try lia.
    replace (cur + chunk + (rem - chunk)) with (cur + rem) in * by lia.
    split; [simpl; repeat split; try lia; exact Ht|].
    split; constructor; auto.
Qed.

Lemma tiles_nonempty_lt stop chunks start :
  tiles start stop chunks -> chunks <> [] -> start < stop.
Proof.
  intros Ht Hne. destruct chunks as [|c rest]; [contradiction|].
  simpl in Ht. destruct Ht as (Ho & Hs & Hrest).
  apply tiles_bounds in Hrest as [Hle _]. lia.
Qed.

Lemma next_stripe ss b o :
  0 < ss -> 0 <= o -> o < b -> b mod ss = 0 -> o / ss = (b - 1) / ss ->
  b / ss = o / ss + 1.
Proof.
  intros Hss Ho Hob Hb Hq. rewrite Hq.
  apply Z.mod_divide in Hb as [k ->]; [|lia].
  rewrite Z.div_mul by lia.
  assert (0 < k) by nia.
  replace (k * ss - 1) with ((k - 1) * ss + (ss - 1)) by lia.
  rewrite Z.div_add_l by lia. rewrite Z.div_small by lia. lia.
Qed.

(** What holds of two chunks in a row: the first ends, and the second
    starts, on a stripe boundary, and the second goes to the next
    stripe. *)
Lemma successive_chunks stripeSize stripeCount stop :
  0 < stripeSize -> 1 <= stripeCount ->
  forall chunks start i c c',
    0 <= start ->
    tiles start stop chunks ->
    Forall (in_one_stripe stripeSize stripeCount) chunks ->
    Forall (ends_aligned stripeSize stop) chunks ->
    chunks !! i = Some c -> chunks !! S i = Some c' ->
    Offset c' = Offset c + Size c
    /\ Offset c' mod stripeSize = 0
    /\ Offset c' / stripeSize = Offset c / stripeSize + 1
    /\ Stripe c' = (Stripe c + 1) mod stripeCount.
Proof.
  intros Hss Hsc. induction chunks as [|x rest IH];
    intros start i c c' Hstart Ht Hone Hal Hc Hc'; [discriminate|].
  simpl in Ht. destruct Ht as (Ho & Hs & Hrest).
  apply Forall_cons in Hone as [Hx Hone]. apply Forall_cons in Hal as [Hax Hal].
  destruct i as [|i].
  - simpl in Hc, Hc'. injection Hc as <-. subst start.
    destruct rest as [|y rest']; [discriminate|]. simpl in Hc'. injection Hc' as <-.
    simpl in Hrest. destruct Hrest as (Hoy & Hsy & Hrest').
    apply tiles_bounds in Hrest' as [Hle _].
    destruct Hax as [Hend|Hmod]; [lia|].
    apply Forall_cons in Hone as [[_ Hstripe_y] _].
    destruct Hx as [Hq Hstripe_x].
    assert (Hnext : Offset y / stripeSize = Offset x / stripeSize + 1).
    { rewrite Hoy. apply next_stripe; try lia; assumption. }
    split; [lia|]. split; [now rewrite Hoy|]. split; [exact Hnext|].
    rewrite Hstripe_y, Hstripe_x, Hnext.
    now rewrite Zplus_mod_idemp_l.
  - simpl in Hc, Hc'. eapply (IH (start + Size x)); eauto. lia.
Qed.

(** X11: in the chunk list of a range that fits in [int64], every chunk
    after the first starts on a stripe boundary, exactly where the chunk
    before it ends, and goes to the stripe after that chunk's (index
    plus one, modulo the stripe count); every chunk that is neither the
    first nor the last is a whole stripe. *)
Theorem calculateStripeChunks_shape (fuel : nat) (offset size : Z)
    (stripeInfo : LustreStripeInfo) (chunks : list StripeChunk) :
  0 <= offset -> 0 < size ->
  0 < StripeSize stripeInfo <= Int64.max_int -> 1 <= StripeCount stripeInfo ->
  offset + size <= 2 ^ 63 ->
  calculateStripeChunks fuel offset size stripeInfo = Returns chunks ->
  (forall i c c',
     chunks !! i = Some c -> chunks !! S i = Some c' ->
     Offset c' = Offset c + Size c
     /\ Offset c' mod StripeSize stripeInfo = 0
     /\ Stripe c' = (Stripe c + 1) mod StripeCount stripeInfo)
  /\ (forall i c,
        chunks !! S i = Some c -> (S (S i) < length chunks)%nat ->
        Size c = StripeSize stripeInfo).
Proof.
  intros Ho Hs Hss Hsc Hfit Hrun. unfold calculateStripeChunks in Hrun.
  destruct (stripeChunksLoop_aligned _ _ Hss Hsc fuel offset size chunks)
    as (Ht & Hone & Hal); try lia; [exact Hrun|].
  split.
  - intros i c c' Hc Hc'.
    destruct (successive_chunks (StripeSize stripeInfo) (StripeCount stripeInfo)
                (offset + size) ltac:(lia) Hsc chunks offset i c c' Ho Ht Hone Hal Hc Hc')
      as (H1 & H2 & _ & H4).
    auto.
  - intros i c Hc Hlast.
    destruct (chunks !! i) as [p|] eqn:Hp.
    2:{ apply lookup_ge_None in Hp. apply lookup_lt_Some in Hc. lia. }
    destruct (lookup_lt_is_Some_2 chunks (S (S i)) Hlast) as [n Hn].
    destruct (successive_chunks (StripeSize stripeInfo) (StripeCount stripeInfo)
                (offset + size) ltac:(lia) Hsc chunks offset i p c Ho Ht Hone Hal Hp Hc)
      as (_ & Hstart & _ & _).
    destruct (successive_chunks (StripeSize stripeInfo) (StripeCount stripeInfo)
                (offset + size) ltac:(lia) Hsc chunks offset (S i) c n Ho Ht Hone Hal Hc Hn)
      as (Hnext & Hend & Hq & _).
    rewrite Forall_lookup in Hone. destruct (Hone _ _ Hc) as [_ _].
    apply Z.mod_divide in Hstart as [k Hk]; [|lia].
    apply Z.mod_divide in Hend as [k' Hk']; [|lia].
    rewrite Hk, Hk' in Hq. rewrite !Z.div_mul in Hq by lia.
    subst k'. lia.
Qed.

Lemma calculateStripeChunks_shape_witness :
  (forall i c c',
     [ {| Offset := 3; Size := 1; Stripe := 0 |};
       {| Offset := 4; Size := 4; Stripe := 1 |};
       {| Offset := 8; Size := 4; Stripe := 0 |};
       {| Offset := 12; Size := 1; Stripe := 1 |} ] !! i = Some c ->
     [ {| Offset := 3; Size := 1; Stripe := 0 |};
       {| Offset := 4; Size := 4; Stripe := 1 |};
       {| Offset := 8; Size := 4; Stripe := 0 |};
       {| Offset := 12; Size := 1; Stripe := 1 |} ] !! S i = Some c' ->
     Offset c' = Offset c + Size c
     /\ Offset c' mod 4 = 0
     /\ Stripe c' = (Stripe c + 1) mod 2)
  /\ (forall i c,
        [ {| Offset := 3; Size := 1; Stripe := 0 |};
          {| Offset := 4; Size := 4; Stripe := 1 |};
          {| Offset := 8; Size := 4; Stripe := 0 |};
          {| Offset := 12; Size := 1; Stripe := 1 |} ] !! S i = Some c ->
        (S (S i) < 4)%nat -> Size c = 4).
Proof.
  apply (calculateStripeChunks_shape 10 3 10
           {| StripeCount := 2; StripeSize := 4; StripeIndex := -1 |}).
  - lia.
  - lia.
  - simpl. unfold Int64.max_int. lia.
  - simpl. lia.
  - lia.
  - reflexivity.
Defined.

Lemma chunk_count stripeSize stripeCount stop :
  0 < stripeSize -> 1 <= stripeCount ->
  forall chunks start,
    0 <= start -> chunks <> [] ->
    tiles start stop chunks ->
    Forall (in_one_stripe stripeSize stripeCount) chunks ->
    Forall (ends_aligned stripeSize stop) chunks ->
    Z.of_nat (length chunks) = stripes_touched stripeSize start stop.
Proof.
  intros Hss Hsc. induction chunks as [|x rest IH];
    intros start Hstart Hne Ht Hone Hal; [contradiction|].
  simpl in Ht. destruct Ht as (Ho & Hs & Hrest).
  apply Forall_cons in Hone as [[Hq _] Hone]. apply Forall_cons in Hal as [Hax Hal].
  unfold stripes_touched in *.
  destruct rest as [|y rest'].
  - simpl in Hrest. simpl length. rewrite <- Hrest, <- Ho, Hq. lia.
  - assert (Hlt : start + Size x < stop)
      by (eapply tiles_nonempty_lt; [exact Hrest|discriminate]).
    destruct Hax as [Hend|Hmod]; [lia|].
    change (length (x :: y :: rest')) with (S (length (y :: rest'))).
    rewrite (Nat2Z.inj_succ (length (y :: rest'))).
    rewrite (IH (start + Size x)); try lia; try assumption; [|discriminate].
    assert (Hn : (Offset x + Size x) / stripeSize = Offset x / stripeSize + 1).
    { apply next_stripe; try lia; assumption. }
    rewrite <- Ho. rewrite Hn. lia.
Qed.

(** X12: the decomposition has one chunk per stripe the range touches:
    (offset+size-1)/stripeSize - offset/stripeSize + 1 of them, which is
    at most size/stripeSize + 2. *)
Theorem calculateStripeChunks_count (fuel : nat) (offset size : Z)
    (stripeInfo : LustreStripeInfo) (chunks : list StripeChunk) :
  0 <= offset -> 0 < size ->
  0 < StripeSize stripeInfo <= Int64.max_int -> 1 <= StripeCount stripeInfo ->
  offset + size <= 2 ^ 63 ->
  calculateStripeChunks fuel offset size stripeInfo = Returns chunks ->
  Z.of_nat (length chunks)
  = stripes_touched (StripeSize stripeInfo) offset (offset + size)
  /\ Z.of_nat (length chunks) <= size / StripeSize stripeInfo + 2.
Proof.
  intros Ho Hs Hss Hsc Hfit Hrun. unfold calculateStripeChunks in Hrun.
  destruct (stripeChunksLoop_aligned _ _ Hss Hsc fuel offset size chunks)
    as (Ht & Hone & Hal); try lia; [exact Hrun|].
  assert (Hne : chunks <> []).
  { intros ->. simpl in Ht. lia. }
  rewrite (chunk_count (StripeSize stripeInfo) (StripeCount stripeInfo) (offset + size)
             ltac:(lia) Hsc chunks offset Ho Hne Ht Hone Hal).
  split; [reflexivity|]. unfold stripes_touched.
  set (ss := StripeSize stripeInfo) in *.
  pose proof (Z.div_mod offset ss ltac:(lia)) as Hd1.
  pose proof (Z.mod_pos_bound offset ss ltac:(lia)) as Hm1.
  pose proof (Z.div_mod size ss ltac:(lia)) as Hd2.
  pose proof (Z.mod_pos_bound size ss ltac:(lia)) as Hm2.
  assert ((offset + size - 1) / ss <= offset / ss + size / ss + 1).
  { apply Z.lt_succ_r. apply Z.div_lt_upper_bound; [lia|]. nia. }
  lia.
Qed.

Lemma calculateStripeChunks_count_witness :
  Z.of_nat (length [ {| Offset := 3; Size := 1; Stripe := 0 |};
                     {| Offset := 4; Size := 4; Stripe := 1 |};
                     {| Offset := 8; Size := 4; Stripe := 0 |};
                     {| Offset := 12; Size := 1; Stripe := 1 |} ])
  = stripes_touched 4 3 (3 + 10)
  /\ Z.of_nat (length [ {| Offset := 3; Size := 1; Stripe := 0 |};
                        {| Offset := 4; Size := 4; Stripe := 1 |};
                        {| Offset := 8; Size := 4; Stripe := 0 |};
                        {| Offset := 12; Size := 1; Stripe := 1 |} ])
     <= 10 / 4 + 2.
Proof.
  apply (calculateStripeChunks_count 10 3 10
           {| StripeCount := 2; StripeSize := 4; StripeIndex := -1 |}).
  - lia.
  - lia.
  - simpl. unfold Int64.max_int. lia.
  - simpl. lia.
  - lia.
  - reflexivity.
Defined.

End ChunkShapes.

(** ** Parallel stripe read: degenerate descriptors and short files *)

Section ParallelReadEdges.
Import Lustre ChunkSpec ReadSpec.

(** X13: with a striped descriptor, a size of 0 or less gives an empty
    slice and no error without the file being read; a positive size with
    stripe size 0 panics (division by zero in the range decomposition).
    With an unstriped descriptor a negative size panics in [make]. *)
Theorem parallelReadStripes_degenerate (sched : Scheduler) (fuel : nat) (file : File)
    (offset size : Z) (stripeInfo : LustreStripeInfo) :
  (1 < StripeCount stripeInfo -> size <= 0 ->
   parallelReadStripes sched fuel file offset size stripeInfo = Returns (Some [], None))
  /\ (1 < StripeCount stripeInfo -> 0 < size -> StripeSize stripeInfo = 0 ->
      parallelReadStripes sched (S fuel) file offset size stripeInfo = Panics)
  /\ (StripeCount stripeInfo <= 1 -> size < 0 ->
      parallelReadStripes sched fuel file offset size stripeInfo = Panics).
Proof.
  unfold parallelReadStripes, calculateStripeChunks. split; [|split].
  - intros Hc Hs. destruct (Z.leb_spec (StripeCount stripeInfo) 1); [lia|].
    assert (Hloop : stripeChunksLoop fuel (StripeSize stripeInfo) (StripeCount stripeInfo)
                      offset size [] = Returns []).
    { destruct fuel; simpl; destruct (Z.gtb_spec size 0); try lia; reflexivity. }
    rewrite Hloop. simpl.
    assert (Hgo : forall order s, runGoroutines file [] order s = Returns s).
    { induction order as [|i rest IH]; intros s; simpl; [reflexivity|].
      unfold readChunk. destruct i; simpl; apply IH. }
    rewrite Hgo. reflexivity.
  - intros Hc Hs Hz. destruct (Z.leb_spec (StripeCount stripeInfo) 1); [lia|].
    simpl. destruct (Z.gtb_spec size 0); [|lia]. rewrite Hz. reflexivity.
  - intros Hc Hs. destruct (Z.leb_spec (StripeCount stripeInfo) 1); [|lia].
    unfold make_bytes. destruct (Z.ltb_spec size 0); [reflexivity|lia].
Qed.

Lemma chunkRead_os_error content c e :
  0 <= Offset c -> (chunkRead (os_File content) c).2 = Some e -> e = EOF.
Proof.
  intros Ho. unfold chunkRead. simpl. unfold os_ReadAt.
  destruct (Z.ltb_spec (Offset c) 0); [lia|]. simpl.
  destruct (_ <? _)%nat; [congruence|discriminate].
Qed.

(** X14: a read that runs past the end of a regular file.  The striped
    path returns the nil slice and [io.EOF]; the unstriped path returns
    [io.EOF] together with the buffer, which holds the bytes the file
    has from [offset] on, followed by zeros. *)
Theorem parallelReadStripes_past_EOF (sched : Scheduler) (fuel : nat)
    (content : list Byte.byte) (offset size : Z) (stripeInfo : LustreStripeInfo) :
  0 <= offset -> 0 < size <= Int64.max_int -> offset + size <= 2 ^ 63 ->
  Z.of_nat (length content) < offset + size ->
  Z.of_nat (length content) <= Int64.max_int ->
  (Z.to_nat size <= fuel)%nat ->
  (1 < StripeCount stripeInfo -> 0 < StripeSize stripeInfo <= Int64.max_int ->
   parallelReadStripes sched fuel (os_File content) offset size stripeInfo
   = Returns (None, Some EOF))
  /\ (StripeCount stripeInfo <= 1 ->
      parallelReadStripes sched fuel (os_File content) offset size stripeInfo
      = Returns (Some (drop (Z.to_nat offset) content
                       ++ replicate (Z.to_nat size
                                     - length (drop (Z.to_nat offset) content))
                            Byte.x00),
                 Some EOF)).
Proof.
  intros Ho Hs Hfit Hpast Hlen Hfuel. split.
  - intros Hcount Hss.
    destruct (stripeChunksLoop_tiles (StripeSize stripeInfo) (StripeCount stripeInfo)
                Hss ltac:(lia) (Z.to_nat size) offset size eq_refl)
      as (chunks & Hrun & Htiles & _ & _); try lia.
    specialize (Hrun fuel Hfuel).
    pose proof (tiles_bounds _ _ _ Htiles) as [_ Hbounds].
    assert (Hsizes : Forall (fun c => 0 <= Size c) chunks).
    { eapply Forall_impl; [exact Hbounds|]. simpl. intros c (? & ? & ?). lia. }
    unfold parallelReadStripes, calculateStripeChunks.
    destruct (Z.leb_spec (StripeCount stripeInfo) 1); [lia|].
    rewrite Hrun. simpl.
    destruct (runGoroutines_returns (os_File content) chunks Hsizes
                (completion_order sched (length chunks))
                {| results := replicate (length chunks) [];
                   errors := replicate (length chunks) None |}) as [s' Hgo].
    rewrite Hgo. simpl.
    destruct (runGoroutines_all _ _ _ _ Hgo) as (_ & Herr & _).
    destruct (firstError (errors s')) as [e|] eqn:Hfirst.
    + apply firstError_Some in Hfirst as (i & Hi & _).
      rewrite Herr, list_lookup_fmap in Hi.
      destruct (chunks !! i) as [c|] eqn:Hc; [|discriminate]. simpl in Hi.
      rewrite Forall_lookup in Hbounds. destruct (Hbounds _ _ Hc) as (Hoc & _ & _).
      assert (e = EOF) as ->
        by (apply (chunkRead_os_error content c); [lia|congruence]).
      reflexivity.
    + exfalso. apply firstError_None in Hfirst. rewrite Herr, Forall_fmap in Hfirst.
      destruct (stripeChunksLoop_reads content _ (StripeCount stripeInfo) Hss Hlen
                  fuel offset size chunks) as (_ & Hin & _); try assumption.
      * unfold Int64.in_range, Int64.min_int, Int64.max_int in *. lia.
      * apply Forall_and. split; assumption.
      * lia.
  - intros Hcount. unfold parallelReadStripes.
    destruct (Z.leb_spec (StripeCount stripeInfo) 1); [|lia].
    unfold make_bytes. destruct (Z.ltb_spec size 0); [lia|]. simpl.
    unfold os_ReadAt. destruct (Z.ltb_spec offset 0); [lia|].
    rewrite length_replicate.
    assert (Hshort : (length (drop (Z.to_nat offset) content) < Z.to_nat size)%nat)
      by (rewrite length_drop; lia).
    rewrite (take_ge (drop (Z.to_nat offset) content)) by lia.
    destruct (Nat.ltb_spec (length (drop (Z.to_nat offset) content)) (Z.to_nat size));
      [|lia].
    rewrite drop_replicate. reflexivity.
Qed.

Lemma parallelReadStripes_past_EOF_witness :
  (1 < StripeCount two_by_four -> 0 < StripeSize two_by_four <= Int64.max_int ->
   parallelReadStripes last_first 6 (os_File ten_bytes) 7 6 two_by_four
   = Returns (None, Some EOF))
  /\ (StripeCount two_by_four <= 1 ->
      parallelReadStripes last_first 6 (os_File ten_bytes) 7 6 two_by_four
      = Returns (Some (drop (Z.to_nat 7) ten_bytes
                       ++ replicate (Z.to_nat 6 - length (drop (Z.to_nat 7) ten_bytes))
                            Byte.x00),
                 Some EOF)).
Proof.
  apply (parallelReadStripes_past_EOF last_first 6 ten_bytes 7 6 two_by_four).
  - lia.
  - unfold Int64.max_int. lia.
  - lia.
  - simpl. lia.
  - unfold Int64.max_int. simpl. lia.
  - simpl. lia.
Defined.

End ParallelReadEdges.

(** ** The registry over sequences of calls *)

Section RegistryInvariant.
Import Backend RegistrySpec ConcurrentSpec RegistryOps.
Local Open Scope string_scope.
Local Arguments constructUserBackend : simpl never.

(** What a constructor may change of the registry: the tracked mount
    point of the user it constructs for, and nothing else. *)
Lemma createBackendByType_frame dm config w :
  userBackends (createBackendByType dm config w).1.2 = userBackends dm
  /\ userConfigs (createBackendByType dm config w).1.2 = userConfigs dm
  /\ multiTenantManager (createBackendByType dm config w).1.2 = multiTenantManager dm
  /\ baseConfig (createBackendByType dm config w).1.2 = baseConfig dm
  /\ (mountPoints (createBackendByType dm config w).1.2 = mountPoints dm
      \/ mountPoints (createBackendByType dm config w).1.2
         = <[UserID config := MountPoint config]> (mountPoints dm)).
Proof.
  unfold createBackendByType, createCephFSBackend, createNFSBackend,
    createLustreBackend, createLustreEnhancedBackend, createMinIOBackend,
    createPosixBackend, createRustFSBackend, mountCephFS, mountNFS, mountLustre,
    executeMount, call.
  repeat match goal with
         | |- context [if ?b then _ else _] => destruct b
         end; cbn; auto 10.
Qed.

(** The two ways [createUserBackend] goes once no handle is found: the
    tenant's storage configuration cannot be obtained, or a record built
    from it is stored and a backend is constructed. *)
Lemma constructUserBackend_effect dm userID w r dm' w' :
  constructUserBackend dm userID w = Returns (r, dm', w') ->
  (exists e, r = inr (ErrWrap ("failed to create default config for user " ++ userID) e)
             /\ userBackends dm' = userBackends dm
             /\ userConfigs dm' = userConfigs dm
             /\ mountPoints dm' = mountPoints dm
             /\ w' = w)
  \/ (exists sc s,
        Auth.GetUserStorageConfig (multiTenantManager dm') userID = inl sc
        /\ userConfigs dm' = <[userID := record_of userID sc s]> (userConfigs dm)
        /\ (mountPoints dm' = mountPoints dm
            \/ mountPoints dm' = <[userID := Auth.StoragePath sc]> (mountPoints dm))
        /\ match r with
           | inl b => userBackends dm' = <[userID := b]> (userBackends dm)
                      /\ s = BackendStatusReady
           | inr _ => userBackends dm' = userBackends dm /\ s = BackendStatusError
           end).
Proof.
  unfold constructUserBackend.
  set (fetched := match Auth.GetUserStorageConfig (multiTenantManager dm) userID with
                  | inl sc => _ | inr _ => _ end).
  assert (Hf : forall x dm1, fetched = Returns (x, dm1) ->
     userBackends dm1 = userBackends dm /\ userConfigs dm1 = userConfigs dm
     /\ mountPoints dm1 = mountPoints dm
     /\ match x with
        | inl sc => Auth.GetUserStorageConfig (multiTenantManager dm1) userID = inl sc
        | inr _ => True
        end).
  { unfold fetched. intros x dm1.
    destruct (Auth.GetUserStorageConfig (multiTenantManager dm) userID) eqn:Hg.
    - intros [= <- <-]. auto.
    - unfold createDefaultUserConfig.
      destruct (Auth.GetUserBasePath (multiTenantManager dm) userID).
      + destruct (Auth.SetUserStorageConfig _ _ _) as [mt err].
        destruct err; cbn [option_map]; cbv beta iota.
        * intros [= <- <-]. auto.
        * destruct (Auth.GetUserStorageConfig
                      (multiTenantManager (set_multiTenantManager dm mt)) userID)
            eqn:Hg2; [|discriminate].
          intros [= <- <-]. cbn. auto.
      + cbv beta iota. intros [= <- <-]. auto. }
  destruct fetched as [[x dm1]| |]; try discriminate. cbn [obind].
  destruct (Hf x dm1 eq_refl) as (Hb & Hc & Hm & Hx).
  destruct x as [sc|e].
  - match goal with
    | |- context [createBackendByType ?d ?c ?w0] =>
        pose proof (createBackendByType_frame d c w0) as (Fb & Fc & Ft & _ & Fm);
        destruct (createBackendByType d c w0) as [[r2 dm2] w2]
    end.
    cbn [fst snd userBackends userConfigs mountPoints multiTenantManager set_userConfigs
         UserID MountPoint] in Fb, Fc, Ft, Fm.
    intros Hret. right.
    assert (Hl : userConfigs dm2 !! userID = Some (record_of userID sc BackendStatusPending)).
    { rewrite Fc. apply lookup_insert_eq. }
    destruct r2 as [b|e]; injection Hret as <- <- <-.
    + exists sc, BackendStatusReady. unfold set_status.
      cbn [userConfigs set_userBackends]. rewrite Hl.
      cbn [userConfigs userBackends mountPoints multiTenantManager set_userConfigs set_userBackends].
      rewrite Ft, Fc, Fb, Hb, Hc, <- Hm. rewrite insert_insert_eq.
      repeat split; auto.
    + exists sc, BackendStatusError. unfold set_status. rewrite Hl.
      cbn [userConfigs userBackends mountPoints multiTenantManager set_userConfigs set_userBackends].
      rewrite Ft, Fc, Fb, Hb, Hc, <- Hm. rewrite insert_insert_eq.
      repeat split; auto.
  - intros [= <- <- <-]. left. exists e. auto.
Qed.


(** Each operation keeps the maps in agreement. *)
Lemma GetUserBackend_tracked dm userID w r dm' w' :
  well_tracked dm ->
  GetUserBackend dm userID w = Returns (r, dm', w') ->
  well_tracked dm'.
Proof.
  intros [I1 I2 I3 I4]. unfold GetUserBackend, createUserBackend, updateLastAccessed.
  destruct (userBackends dm !! userID) as [b0|] eqn:Hb.
  { intros [= _ <- _]. constructor; assumption. }
  intros Hc. apply constructUserBackend_effect in Hc.
  destruct Hc as [(e & _ & Eb & Ec & Em & _)|(sc & s & _ & Ec & Em & Hr)].
  { constructor; rewrite ?Eb, ?Ec, ?Em; assumption. }
  assert (Em' : forall v, v <> userID -> mountPoints dm' !! v = mountPoints dm !! v).
  { intros v Hv. destruct Em as [->| ->]; [reflexivity|].
    apply lookup_insert_ne. congruence. }
  assert (Eb' : forall v, v <> userID -> userBackends dm' !! v = userBackends dm !! v).
  { intros v Hv. destruct r; destruct Hr as [-> _]; [|reflexivity].
    apply lookup_insert_ne. congruence. }
  constructor.
  - intros v b Hv. destruct (decide (v = userID)) as [->|Hne].
    + exists (record_of userID sc s). rewrite Ec, lookup_insert_eq. split; [reflexivity|].
      destruct r; destruct Hr as [Er ->]; [left; reflexivity|].
      rewrite Er, Hb in Hv. discriminate.
    + rewrite Ec, lookup_insert_ne by congruence. rewrite Eb' in Hv by assumption.
      eauto.
  - intros v c Hv Hs. destruct (decide (v = userID)) as [->|Hne].
    + rewrite Ec, lookup_insert_eq in Hv. injection Hv as <-. cbn in Hs.
      destruct r; destruct Hr as [Er Es]; [|congruence].
      rewrite Er, lookup_insert_eq. eauto.
    + rewrite Ec, lookup_insert_ne in Hv by congruence. rewrite Eb' by assumption.
      eauto.
  - intros v mp Hv. destruct (decide (v = userID)) as [->|Hne].
    + rewrite Ec, lookup_insert_eq. eauto.
    + rewrite Ec, lookup_insert_ne by congruence. rewrite Em' in Hv by assumption.
      eauto.
  - intros v c Hv. destruct (decide (v = userID)) as [->|Hne].
    + rewrite Ec, lookup_insert_eq in Hv. injection Hv as <-. reflexivity.
    + rewrite Ec, lookup_insert_ne in Hv by congruence. eauto.
Qed.

Lemma UnmountUserBackend_tracked dm userID w e dm' w' :
  well_tracked dm ->
  UnmountUserBackend dm userID w = (e, dm', w') ->
  well_tracked dm'.
Proof.
  intros [I1 I2 I3 I4]. unfold UnmountUserBackend.
  destruct (mountPoints dm !! userID) as [mp|] eqn:Hm.
  2:{ intros [= _ <- _]. constructor; assumption. }
  destruct (I3 _ _ Hm) as [c Hc].
  assert (Hu : well_tracked (set_status dm userID BackendStatusUnmounting)).
  { unfold set_status. rewrite Hc. constructor;
      cbn [userBackends userConfigs mountPoints set_userConfigs]; intros v.
    - intros b Hv. destruct (decide (v = userID)) as [->|Hne].
      + rewrite lookup_insert_eq. eexists. split; [reflexivity|]. right. reflexivity.
      + rewrite lookup_insert_ne by congruence. eauto.
    - intros c0 Hv Hs. destruct (decide (v = userID)) as [->|Hne].
      + rewrite lookup_insert_eq in Hv. injection Hv as <-. discriminate.
      + rewrite lookup_insert_ne in Hv by congruence. eauto.
    - intros mp0 Hv. destruct (decide (v = userID)) as [->|Hne].
      + rewrite lookup_insert_eq. eauto.
      + rewrite lookup_insert_ne by congruence. eauto.
    - intros c0 Hv. destruct (decide (v = userID)) as [->|Hne].
      + rewrite lookup_insert_eq in Hv. injection Hv as <-. cbn. eauto.
      + rewrite lookup_insert_ne in Hv by congruence. eauto. }
  assert (Hclean : forall d, well_tracked d ->
     well_tracked (set_status (set_mountPoints (set_userBackends d
        (delete userID (userBackends d))) (delete userID (mountPoints d)))
        userID BackendStatusUnmounted)).
  { clear. intros d [I1 I2 I3 I4]. unfold set_status.
    cbn [userBackends userConfigs mountPoints set_userConfigs set_userBackends
         set_mountPoints].
    destruct (userConfigs d !! userID) as [c|] eqn:Hc; constructor;
      cbn [userBackends userConfigs mountPoints set_userConfigs set_userBackends
           set_mountPoints]; intros v.
    - intros b Hv. destruct (decide (v = userID)) as [->|Hne].
      + rewrite lookup_delete_eq in Hv. discriminate.
      + rewrite lookup_delete_ne in Hv by congruence.
        rewrite lookup_insert_ne by congruence. eauto.
    - intros c0 Hv Hs. destruct (decide (v = userID)) as [->|Hne].
      + rewrite lookup_insert_eq in Hv. injection Hv as <-. discriminate.
      + rewrite lookup_insert_ne in Hv by congruence.
        rewrite lookup_delete_ne by congruence. eauto.
    - intros mp0 Hv. destruct (decide (v = userID)) as [->|Hne].
      + rewrite lookup_delete_eq in Hv. discriminate.
      + rewrite lookup_delete_ne in Hv by congruence.
        rewrite lookup_insert_ne by congruence. eauto.
    - intros c0 Hv. destruct (decide (v = userID)) as [->|Hne].
      + rewrite lookup_insert_eq in Hv. injection Hv as <-. cbn. eauto.
      + rewrite lookup_insert_ne in Hv by congruence. eauto.
    - intros b Hv. destruct (decide (v = userID)) as [->|Hne].
      + rewrite lookup_delete_eq in Hv. discriminate.
      + rewrite lookup_delete_ne in Hv by congruence. eauto.
    - intros c0 Hv Hs. destruct (decide (v = userID)) as [->|Hne].
      + congruence.
      + rewrite lookup_delete_ne by congruence. eauto.
    - intros mp0 Hv. destruct (decide (v = userID)) as [->|Hne].
      + rewrite lookup_delete_eq in Hv. discriminate.
      + rewrite lookup_delete_ne in Hv by congruence. eauto.
    - intros c0 Hv. eauto. }
  unfold call.
  destruct (oracle w (trace w) _).
  { intros [= _ <- _]. apply Hclean, Hu. }
  cbn [oracle trace].
  destruct (oracle w _ _).
  { intros [= _ <- _]. apply Hclean, Hu. }
  intros [= _ <- _]. exact Hu.
Qed.

Lemma serve_tracked req st :
  well_tracked st.1 ->
  exists st', serve req st = Returns st' /\ well_tracked st'.1.
Proof.
  intros Hst. destruct req as [userID|userID]; unfold serve.
  - assert (Hr : exists r dm' w', GetUserBackend st.1 userID st.2 = Returns (r, dm', w')).
    { unfold GetUserBackend, createUserBackend.
      destruct (userBackends st.1 !! userID); [eauto|].
      apply constructUserBackend_returns. }
    destruct Hr as (r & dm' & w' & Hr). rewrite Hr. cbn [obind fst snd].
    eexists. split; [reflexivity|]. cbn [fst].
    eapply GetUserBackend_tracked; eassumption.
  - destruct (UnmountUserBackend st.1 userID st.2) as [[e dm'] w'] eqn:Hu.
    eexists. split; [reflexivity|]. cbn [fst].
    eapply UnmountUserBackend_tracked; eassumption.
Qed.

(** X18: whatever sequence of [GetUserBackend] and [UnmountUserBackend]
    calls a new registry serves, for whatever users and however the
    external calls turn out, every call returns, and afterwards the
    three maps agree: a user with a handle has a record whose status is
    ready or unmounting, a record with status ready has a handle, a user
    with a tracked mount point has a record, and every record is stored
    under the user it names. *)
Theorem registry_stays_well_tracked (cfg : DynamicBackendConfig)
    (mtManager : Auth.DefaultMultiTenantManager) (w : World) (reqs : list request) :
  exists dm' w',
    serve_all reqs (NewDynamicBackendManager cfg mtManager, w) = Returns (dm', w')
    /\ well_tracked dm'.
Proof.
  assert (H0 : well_tracked (NewDynamicBackendManager cfg mtManager)).
  { constructor; cbn; intros v x Hv; rewrite lookup_empty in Hv; discriminate. }
  assert (Hgen : forall st, well_tracked st.1 ->
            exists st', serve_all reqs st = Returns st' /\ well_tracked st'.1).
  { induction reqs as [|req rest IH]; intros st Hst; cbn [serve_all].
    - eauto.
    - destruct (serve_tracked req st Hst) as (st1 & -> & H1). cbn [obind].
      apply IH, H1. }
  destruct (Hgen (NewDynamicBackendManager cfg mtManager, w) H0) as ([dm' w'] & Hs & Ht).
  eauto.
Qed.

Lemma GetUserBackend_stores dm userID w b dm' w' :
  GetUserBackend dm userID w = Returns (inl b, dm', w') ->
  userBackends dm' !! userID = Some b.
Proof.
  unfold GetUserBackend, createUserBackend, updateLastAccessed. intros Hget.
  destruct (userBackends dm !! userID) as [b0|] eqn:Hb.
  - injection Hget as <- <- _. exact Hb.
  - apply constructUserBackend_userBackends in Hget. exact Hget.
Qed.



(** The posix and the minio constructor leave the registry alone. *)
Lemma createBackendByType_local dm config w :
  BackendType config = "posix" \/ BackendType config = "minio" ->
  (createBackendByType dm config w).1.2 = dm.
Proof.
  unfold createBackendByType. intros [-> | ->]; cbn [String.eqb Ascii.eqb Bool.eqb].
  - destruct (createPosixBackend config w). reflexivity.
  - destruct (createMinIOBackend config w). reflexivity.
Qed.

(** X16: [UnmountUserBackend] cannot release the handle of a posix or
    minio tenant: constructing it tracks no mount point, so for a tenant
    without one the call after a successful [GetUserBackend] makes no
    external call, changes nothing and the handle stays in the
    registry. *)
Theorem local_tenant_never_released (dm : DynamicBackendManager) (userID : string)
    (sc : Auth.UserStorageConfig) (w : World) (b : Backend)
    (dm' : DynamicBackendManager) (w' : World) :
  Auth.GetUserStorageConfig (multiTenantManager dm) userID = inl sc ->
  Auth.BackendType sc = "posix" \/ Auth.BackendType sc = "minio" ->
  mountPoints dm !! userID = None ->
  GetUserBackend dm userID w = Returns (inl b, dm', w') ->
  forall w2,
    UnmountUserBackend dm' userID w2 = (None, dm', w2)
    /\ userBackends dm' !! userID = Some b.
Proof.
  intros Hg Hty Hm Hget w2.
  assert (Hm' : mountPoints dm' = mountPoints dm).
  { unfold GetUserBackend, createUserBackend, updateLastAccessed in Hget.
    destruct (userBackends dm !! userID) as [b0|] eqn:Hb.
    { injection Hget as _ <- _. reflexivity. }
    unfold constructUserBackend in Hget. rewrite Hg in Hget. cbn [obind] in Hget.
    match type of Hget with
    | context [createBackendByType ?d ?c ?w0] =>
        pose proof (createBackendByType_local d c w0 Hty) as Hl;
        destruct (createBackendByType d c w0) as [[r2 dm2] w2']
    end.
    cbn [fst snd] in Hl. subst dm2.
    destruct r2; [|discriminate]. injection Hget as _ <- _.
    rewrite set_status_mountPoints. reflexivity. }
  split.
  - apply UnmountUserBackend_noop. rewrite Hm'. exact Hm.
  - eapply GetUserBackend_stores. exact Hget.
Qed.

Lemma local_tenant_never_released_witness :
  UnmountUserBackend served_once "t1" working_world = (None, served_once, working_world)
  /\ userBackends served_once !! "t1" = Some (PosixBackend "/data/users/t1/storage").
Proof.
  refine (local_tenant_never_released posix_registry "t1"
            {| Auth.BackendType := "posix";
               Auth.StoragePath := "/data/users/t1/storage";
               Auth.Quota := 0; Auth.UsedSpace := 0; Auth.Mounted := false |}
            working_world (PosixBackend "/data/users/t1/storage") served_once
            {| oracle := oracle working_world;
               trace := [MkdirAll "/data/users/t1/storage";
                         PosixNew "/data/users/t1/storage"] |} _ _ _ _ working_world).
  - reflexivity.
  - left. reflexivity.
  - reflexivity.
  - vm_compute. reflexivity.
Defined.

(** X17: for a user that neither the registry nor the tenant manager
    knows, [GetUserBackend] writes a default storage configuration when
    multi-tenant mode is enabled and the registry's default backend type
    is one of the six valid ones: that type, the path
    [<BasePath>/users/<user>/storage], quota 0, and a registry record
    built from it.  Otherwise it returns the wrapped error of the tenant
    manager, makes no external call and leaves the registry as it is. *)
Theorem GetUserBackend_default_record (dm : DynamicBackendManager) (userID : string)
    (w : World) :
  userBackends dm !! userID = None ->
  Auth.userConfigs (multiTenantManager dm) !! userID = None ->
  if Auth.Enabled (Auth.config (multiTenantManager dm))
     && Auth.is_valid_backend (DefaultBackend (baseConfig dm)) Auth.validBackends
  then
    exists r dm' w' s,
      GetUserBackend dm userID w = Returns (r, dm', w')
      /\ Auth.GetUserStorageConfig (multiTenantManager dm') userID
         = inl (default_storage dm userID)
      /\ userConfigs dm' !! userID = Some (record_of userID (default_storage dm userID) s)
  else
    GetUserBackend dm userID w
    = Returns (inr (ErrWrap ("failed to create default config for user " ++ userID)
                      (ErrManager
                         (if Auth.Enabled (Auth.config (multiTenantManager dm))
                          then Auth.ErrInvalidBackendType else Auth.ErrNotEnabled))),
               dm, w).
Proof.
  intros Hb Hn.
  unfold GetUserBackend, createUserBackend. rewrite Hb.
  destruct (Auth.Enabled (Auth.config (multiTenantManager dm))) eqn:He;
    cbn [andb].
  - destruct (Auth.is_valid_backend _ _) eqn:Hv.
    + destruct (constructUserBackend_returns dm userID w) as (r & dm' & w' & Hc).
      pose proof Hc as Heff.
      apply constructUserBackend_effect in Heff.
      assert (Hmt : Auth.GetUserStorageConfig (multiTenantManager dm') userID
                    = inl (default_storage dm userID)).
      { revert Hc. unfold constructUserBackend, Auth.GetUserStorageConfig at 1.
        rewrite Hn. unfold createDefaultUserConfig, Auth.GetUserBasePath.
        rewrite He. cbn [negb]. unfold Auth.SetUserStorageConfig.
        cbn [Auth.BackendType]. rewrite Hv. cbn [option_map].
        unfold Auth.GetUserStorageConfig at 1.
        cbn [multiTenantManager set_multiTenantManager Auth.userConfigs].
        rewrite lookup_insert_eq. cbn [obind].
        match goal with
        | |- context [createBackendByType ?d ?c ?w0] =>
            pose proof (createBackendByType_frame d c w0) as (_ & _ & Ft & _ & _);
            destruct (createBackendByType d c w0) as [[r2 dm2] w2]
        end.
        cbn [fst snd multiTenantManager set_userConfigs set_multiTenantManager] in Ft.
        assert (Hst : forall d u s, multiTenantManager (set_status d u s)
                                    = multiTenantManager d).
        { intros d u s. unfold set_status. destruct (userConfigs d !! u); reflexivity. }
        destruct r2; intros [= _ <- _]; rewrite Hst; cbn [multiTenantManager set_userBackends];
          rewrite Ft; unfold Auth.GetUserStorageConfig; cbn [Auth.userConfigs];
          rewrite lookup_insert_eq; reflexivity. }
      destruct Heff as [(e & -> & _)|(sc & s & Hsc & Ec & _)].
      * exfalso. revert Hc. unfold constructUserBackend, Auth.GetUserStorageConfig at 1.
        rewrite Hn. unfold createDefaultUserConfig, Auth.GetUserBasePath.
        rewrite He. cbn [negb]. unfold Auth.SetUserStorageConfig.
        cbn [Auth.BackendType]. rewrite Hv. cbn [option_map].
        unfold Auth.GetUserStorageConfig at 1.
        cbn [multiTenantManager set_multiTenantManager Auth.userConfigs].
        rewrite lookup_insert_eq. cbn [obind].
        match goal with
        | |- context [createBackendByType ?d ?c ?w0] =>
            destruct (createBackendByType d c w0) as [[r2 dm2] w2]
        end.
        destruct r2; intros [= Hr _ _].
      * exists r, dm', w', s. split; [exact Hc|]. split; [exact Hmt|].
        rewrite Hmt in Hsc. injection Hsc as <-. rewrite Ec. apply lookup_insert_eq.
    + unfold constructUserBackend, Auth.GetUserStorageConfig. rewrite Hn.
      unfold createDefaultUserConfig, Auth.GetUserBasePath. rewrite He. cbn [negb].
      unfold Auth.SetUserStorageConfig. cbn [Auth.BackendType]. rewrite Hv.
      cbn [option_map obind]. destruct dm; reflexivity.
  - unfold constructUserBackend, Auth.GetUserStorageConfig. rewrite Hn.
    unfold createDefaultUserConfig, Auth.GetUserBasePath. rewrite He. cbn [negb obind].
    reflexivity.
Qed.

Lemma GetUserBackend_default_record_witness :
  exists r dm' w' s,
    GetUserBackend posix_registry "t2" working_world = Returns (r, dm', w')
    /\ Auth.GetUserStorageConfig (multiTenantManager dm') "t2"
       = inl (default_storage posix_registry "t2")
    /\ userConfigs dm' !! "t2"
       = Some (record_of "t2" (default_storage posix_registry "t2") s).
Proof.
  exact (GetUserBackend_default_record posix_registry "t2" working_world
           eq_refl eq_refl).
Defined.

End RegistryInvariant.

(** ** Two callers never block each other for good *)

Section Progress.
Import Backend Concurrent ConcurrentSpec LockSpec.
Local Open Scope string_scope.
Local Arguments constructUserBackend : simpl never.

(** Every step keeps the mutex in agreement with the callers. *)
Lemma step_lock_consistent userID t c c' :
  lock_consistent c -> step userID t c = Some c' -> lock_consistent c'.
Proof.
  unfold lock_consistent.
  destruct c as [d w [wr rd] pA pB n]. cbn [mu pcA pcB writer readers].
  intros (Hw & Hx & Hr).
  destruct t; unfold step; cbn [pc_of pcA pcB mu dm world started].
  - destruct pA; cbn [holds_write holds_read orb andb] in *;
      unfold can_RLock, can_Lock; cbn [writer readers];
      try discriminate;
      try (destruct (constructUserBackend d userID w) as [[[r d'] w']| |]; try discriminate);
      try (destruct wr; cbn [negb andb]; try discriminate);
      try (destruct rd; cbn [Nat.eqb]; try discriminate);
      intros [= <-];
      try match goal with found : option Backend |- _ => destruct found end;
      try destruct (userBackends d !! userID);
      cbn; destruct pB; cbn in *;
        try discriminate; try lia; repeat split; try congruence; try lia.
  - destruct pB; cbn [holds_write holds_read orb andb] in *;
      unfold can_RLock, can_Lock; cbn [writer readers];
      try discriminate;
      try (destruct (constructUserBackend d userID w) as [[[r d'] w']| |]; try discriminate);
      try (destruct wr; cbn [negb andb]; try discriminate);
      try (destruct rd; cbn [Nat.eqb]; try discriminate);
      intros [= <-];
      try match goal with found : option Backend |- _ => destruct found end;
      try destruct (userBackends d !! userID);
      cbn; destruct pA; cbn in *;
        try discriminate; try lia; repeat split; try congruence; try lia.
Qed.

Lemma run_lock_consistent userID sched :
  forall c, lock_consistent c -> lock_consistent (run userID sched c).
Proof.
  induction sched as [|t rest IH]; intros c Hc; cbn [run]; [exact Hc|].
  destruct (step userID t c) as [c'|] eqn:Hs.
  - apply IH. eapply step_lock_consistent; eassumption.
  - apply IH, Hc.
Qed.

(** A caller that holds a lock can always take its next step. *)
Lemma holder_steps userID t c :
  holds_write (pc_of t c) = true \/ holds_read (pc_of t c) = 1%nat ->
  exists c', step userID t c = Some c'.
Proof.
  unfold step. destruct (pc_of t c); cbn; intros [H|H]; try discriminate; eauto.
  destruct (constructUserBackend_returns (dm c) userID (world c)) as (r & d' & w' & ->).
  eauto.
Qed.

(** X19: two callers of [GetUserBackend] never block each other for good:
    in every state they reach, under every schedule, either both have
    returned or one of them can take a step. *)
Theorem GetUserBackend_two_callers_progress (userID : string)
    (dm0 : DynamicBackendManager) (w0 : World) (sched : list caller) :
  (returned (pcA (run userID sched (initial dm0 w0)))
   && returned (pcB (run userID sched (initial dm0 w0))) = true)
  \/ exists t c', step userID t (run userID sched (initial dm0 w0)) = Some c'.
Proof.
  assert (Hi : lock_consistent (initial dm0 w0)).
  { unfold lock_consistent. cbn. auto. }
  apply (run_lock_consistent userID sched) in Hi.
  set (c := run userID sched (initial dm0 w0)) in *.
  destruct Hi as (Hw & Hx & Hr).
  destruct (holds_write (pcA c)) eqn:HwA.
  { right. exists CallerA. apply holder_steps. left. exact HwA. }
  destruct (holds_write (pcB c)) eqn:HwB.
  { right. exists CallerB. apply holder_steps. left. exact HwB. }
  destruct (holds_read (pcA c)) as [|nA] eqn:HrA.
  2:{ right. exists CallerA. apply holder_steps. right. cbn [pc_of].
      destruct (pcA c); cbn in HrA |- *; congruence. }
  destruct (holds_read (pcB c)) as [|nB] eqn:HrB.
  2:{ right. exists CallerB. apply holder_steps. right. cbn [pc_of].
      destruct (pcB c); cbn in HrB |- *; congruence. }
  cbn in Hw, Hr.
  destruct (returned (pcA c)) eqn:RA.
  - destruct (returned (pcB c)) eqn:RB; [left; reflexivity|].
    right. exists CallerB. unfold step, can_RLock, can_Lock. rewrite Hw, Hr. cbn [pc_of].
    destruct (pcB c); cbn in *; try discriminate; eauto.
  - right. exists CallerA. unfold step, can_RLock, can_Lock. rewrite Hw, Hr. cbn [pc_of].
    destruct (pcA c); cbn in *; try discriminate; eauto.
Qed.

End Progress.

(** ** Reading and writing a file through [ParallelReader] and [ParallelWriter] *)

Section Streams.
Import Lustre ParallelIO StreamSpec ReadSpec.

(** One [Read] on a regular file. *)
Lemma Read_os content info (pos : nat) (p : list Byte.byte) :
  Z.of_nat (length content) <= Int64.max_int ->
  let pr := {| pr_file := os_File content; pr_stripeInfo := info;
               pr_fileSize := Z.of_nat (length content);
               pr_currentPos := Z.of_nat pos |} in
  let n := Nat.min (length p) (length content - pos) in
  Read pr p
  = Returns (take n (drop pos content) ++ drop n p, Z.of_nat n, error_at (length content) pos,
             {| pr_file := os_File content; pr_stripeInfo := info;
                pr_fileSize := Z.of_nat (length content);
                pr_currentPos := Z.of_nat (pos + n) |}).
Proof.
  intros Hmax pr n. unfold Read, error_at. cbn [pr_currentPos pr_fileSize pr_file pr_stripeInfo pr].
  destruct (Z.geb_spec (Z.of_nat pos) (Z.of_nat (length content))) as [Hge|Hlt].
  - destruct (Nat.leb_spec (length content) pos); [|lia].
    subst n. replace (length content - pos)%nat with 0%nat by lia.
    rewrite Nat.min_0_r. cbn [take drop app]. rewrite Nat.add_0_r. reflexivity.
  - destruct (Nat.leb_spec (length content) pos); [lia|].
    unfold Int64.max_int in Hmax.
    rewrite sub_exact by (unfold Int64.in_range, Int64.min_int, Int64.max_int; lia).
    set (readSize := if Z.of_nat (length p) >? Z.of_nat (length content) - Z.of_nat pos
                     then Z.of_nat (length content) - Z.of_nat pos
                     else Z.of_nat (length p)).
    assert (Hrs : readSize = Z.of_nat n).
    { subst readSize n. destruct (Z.gtb_spec (Z.of_nat (length p))
         (Z.of_nat (length content) - Z.of_nat pos)); lia. }
    rewrite Hrs. destruct (Z.ltb_spec (Z.of_nat n) 0); [lia|].
    rewrite Nat2Z.id. cbn [ReadAt os_File]. unfold os_ReadAt.
    destruct (Z.ltb_spec (Z.of_nat pos) 0); [lia|]. rewrite Nat2Z.id.
    assert (Hlen : length (take (length (take n p)) (drop pos content)) = n).
    { rewrite !length_take, length_drop. lia. }
    rewrite Hlen.
    assert (Htn : length (take n p) = n) by (rewrite length_take; lia).
    rewrite Htn. rewrite Nat.ltb_irrefl.
    rewrite (drop_ge (take n p) n) by lia. rewrite app_nil_r.
    rewrite add_exact by (unfold Int64.in_range, Int64.min_int, Int64.max_int; lia).
    rewrite <- Nat2Z.inj_add. reflexivity.
Qed.


Lemma reads_os content info sizes :
  Z.of_nat (length content) <= Int64.max_int ->
  forall pos,
    reads (reader_at content info (Nat.min pos (length content))) sizes
    = Returns (delivered content pos sizes,
               reader_at content info (Nat.min (pos + sum_list sizes) (length content))).
Proof.
  intros Hmax. induction sizes as [|k rest IH]; intros pos; cbn [reads delivered sum_list].
  - rewrite Nat.add_0_r. reflexivity.
  - unfold reader_at at 1. rewrite Read_os by exact Hmax. cbn [obind fst snd].
    rewrite length_replicate.
    set (n := Nat.min k (length content - Nat.min pos (length content))).
    assert (Hpos : (Nat.min pos (length content) + n
                    = Nat.min (pos + k) (length content))%nat) by lia.
    fold (reader_at content info (Nat.min pos (length content) + n)).
    rewrite Hpos, IH. cbn [obind fst snd]. rewrite Nat2Z.id.
    rewrite take_app_le by (rewrite length_take, length_drop; lia).
    rewrite take_take, Nat.min_id, Nat.add_assoc.
    f_equal. f_equal. f_equal. f_equal.
    2:{ unfold error_at.
        destruct (Nat.leb_spec (length content) (Nat.min pos (length content))),
          (Nat.leb_spec (length content) pos); try reflexivity; lia. }
    destruct (decide (pos <= length content)%nat) as [Hle|Hgt].
    + subst n. rewrite (Nat.min_l pos (length content)) by exact Hle.
      destruct (decide (k <= length content - pos)%nat).
      * rewrite Nat.min_l by lia. reflexivity.
      * rewrite Nat.min_r by lia. rewrite !take_ge by (rewrite length_drop; lia).
        reflexivity.
    + subst n. rewrite (Nat.min_r pos (length content)) by lia.
      rewrite (drop_ge content (length content)) by lia.
      rewrite (drop_ge content pos) by lia.
      rewrite !take_nil. reflexivity.
Qed.

Lemma delivered_concat content sizes :
  forall pos,
    concat (delivered content pos sizes).*1 = take (sum_list sizes) (drop pos content).
Proof.
  induction sizes as [|k rest IH]; intros pos; cbn.
  - reflexivity.
  - rewrite IH. apply take_drop_app.
Qed.

(** X20: a [ParallelReader] made for a regular file delivers the file in
    order: whatever buffer lengths successive [Read] calls are given,
    each call returns the next bytes of the file, as many as the buffer
    holds or as are left, with a nil error as long as the position is
    before the end of the file and with [io.EOF] and no bytes from then
    on; what the calls deliver, put together, is the beginning of the
    file. *)
Theorem ParallelReader_delivers_file (content : list Byte.byte)
    (info : LustreStripeInfo) (sizes : list nat) :
  Z.of_nat (length content) <= Int64.max_int ->
  exists pr pr',
    reader_on content info = inl pr
    /\ reads pr sizes = Returns (delivered content 0 sizes, pr')
    /\ pr_currentPos pr' = Z.of_nat (Nat.min (sum_list sizes) (length content))
    /\ concat (delivered content 0 sizes).*1 = take (sum_list sizes) content.
Proof.
  intros Hmax.
  exists (reader_at content info 0),
         (reader_at content info (Nat.min (sum_list sizes) (length content))).
  split; [reflexivity|].
  split; [exact (reads_os content info sizes Hmax 0%nat)|].
  split; [reflexivity|].
  exact (delivered_concat content sizes 0%nat).
Qed.

Lemma ParallelReader_delivers_file_witness :
  exists pr pr',
    reader_on ten_bytes two_by_four = inl pr
    /\ reads pr [4; 4; 4]%nat = Returns (delivered ten_bytes 0 [4; 4; 4]%nat, pr')
    /\ pr_currentPos pr' = Z.of_nat (Nat.min (sum_list [4; 4; 4]%nat) (length ten_bytes))
    /\ concat (delivered ten_bytes 0 [4; 4; 4]%nat).*1
       = take (sum_list [4; 4; 4]%nat) ten_bytes.
Proof.
  apply (ParallelReader_delivers_file ten_bytes two_by_four [4; 4; 4]%nat).
  unfold Int64.max_int. cbn. lia.
Defined.

Lemma writes_os info c0 ps :
  forall written,
    Z.of_nat (length (written ++ concat ps)) <= Int64.max_int ->
    writes (writer_at info (length written)) (written ++ drop (length written) c0) ps
    = (map (fun p => (Z.of_nat (length p), None)) ps,
       writer_at info (length (written ++ concat ps)),
       (written ++ concat ps) ++ drop (length (written ++ concat ps)) c0).
Proof.
  induction ps as [|p rest IH]; intros written Hmax; cbn [writes concat map].
  - rewrite app_nil_r. reflexivity.
  - unfold Write. cbn [writer_at pw_file pw_currentPos pw_stripeInfo WriteAt os_WFile].
    rewrite length_app in Hmax. cbn [concat] in Hmax. rewrite length_app in Hmax.
    unfold Int64.max_int in Hmax.
    assert (Hstep : os_WriteAt (written ++ drop (length written) c0) p
                      (Z.of_nat (length written))
                    = ((written ++ p) ++ drop (length (written ++ p)) c0,
                       Z.of_nat (length p), None)).
    { unfold os_WriteAt. destruct (Z.ltb_spec (Z.of_nat (length written)) 0); [lia|].
      destruct p as [|b p'].
      - rewrite app_nil_r. reflexivity.
      - rewrite Nat2Z.id. rewrite take_app_length.
        rewrite length_app. replace (length written - _)%nat with 0%nat by lia.
        cbn [replicate app]. rewrite drop_app_ge by lia.
        rewrite drop_drop. rewrite <- app_assoc. rewrite length_app.
        replace (length written + (length written + length (b :: p') - length written))%nat
          with (length written + length (b :: p'))%nat by lia.
        reflexivity. }
    rewrite Hstep.
    rewrite add_exact by (unfold Int64.in_range, Int64.min_int, Int64.max_int; lia).
    rewrite <- Nat2Z.inj_add, <- length_app.
    fold (writer_at info (length (written ++ p))).
    rewrite IH by (rewrite !length_app; unfold Int64.max_int; lia).
    rewrite <- !app_assoc. reflexivity.
Qed.



End Streams.

(** ** Uploads: delegation and the striping command *)

Section PutObjectFacts.
Import Lustre LustreOps LustreOpsSpec.
Local Open Scope string_scope.

Example Itoa_examples :
  Itoa 0 = "0" /\ Itoa 8 = "8" /\ Itoa 1048576 = "1048576" /\ Itoa (-1) = "-1".
Proof. repeat split; reflexivity. Qed.

Example Dir_examples :
  Dir "bucket/dir/object" = "bucket/dir" /\ Dir "object" = "." /\ Dir "/object" = "/".
Proof. repeat split; reflexivity. Qed.

(** What one attempt to set the striping adds to the history: no call of
    the wrapped backend, and at most one command, the one built from the
    stripe information. *)
Lemma ensure_or_warn_history {Out} dir info (env : Env Out) :
  stat (ensure_or_warn dir info env) = stat env
  /\ succeeds (ensure_or_warn dir info env) = succeeds env
  /\ put (ensure_or_warn dir info env) = put env
  /\ exists new,
       history (ensure_or_warn dir info env) = (history env ++ new)%list
       /\ filter is_put new = []
       /\ (filter is_exec new = []
           \/ filter is_exec new = [ExecCombinedOutput (setstripe_argv dir info)]).
Proof.
  unfold ensure_or_warn, ensureDirectoryStriping, os_Stat, call, record.
  cbn [history stat succeeds put].
  destruct (stat env (history env) dir); cbn [history stat succeeds put negb];
    repeat match goal with
           | |- context [if ?b then _ else _] =>
               destruct b; cbn [history stat succeeds put negb]
           end;
    (split; [reflexivity|]); (split; [reflexivity|]); (split; [reflexivity|]);
    rewrite <- ?app_assoc; eexists; (split; [reflexivity|]); cbn; auto.
Qed.


(** X22: [PutObject] always hands the object to the wrapped backend:
    for an input with a bucket and a key it never panics, calls the
    wrapped backend's [PutObject] exactly once, as the last thing it
    does and with the input it was given, and returns what that call
    returns, whether or not setting the striping worked.  When the
    content length is unknown it does nothing else. *)
Theorem PutObject_delegates {Out : Type} (lustreConfig : LustreConfig)
    (input : PutObjectInput) (env : Env Out) (bucket key : string) :
  Bucket input = Some bucket ->
  Key input = Some key ->
  exists pre env',
    PutObject lustreConfig input env
    = Returns (put env (history env ++ pre)%list input, env')
    /\ history env' = (history env ++ pre ++ [BackendPutObject input])%list
    /\ filter is_put pre = []
    /\ (ContentLength input = None -> pre = []).
Proof.
  intros Hb Hk. unfold PutObject, putLargeObjectWithStriping. rewrite Hb, Hk.
  destruct (ContentLength input) as [len|].
  - set (info := calculateOptimalStriping lustreConfig len).
    set (dir := Dir (Filepath.Join [bucket; key])).
    destruct (ensure_or_warn_history dir info env)
      as (Hs1 & Hc1 & Hp1 & new1 & Hh1 & Hput1 & _).
    set (env1 := ensure_or_warn dir info env) in *.
    destruct (len >? getLargeFileThreshold lustreConfig).
    + destruct (ensure_or_warn_history dir info env1)
        as (Hs2 & Hc2 & Hp2 & new2 & Hh2 & Hput2 & _).
      set (env2 := ensure_or_warn dir info env1) in *.
      exists (new1 ++ new2)%list, (backend_PutObject input env2).2.
      unfold backend_PutObject. cbn [fst snd record history].
      rewrite Hp2, Hp1, Hh2, Hh1, <- !app_assoc.
      split; [reflexivity|]. split; [reflexivity|].
      split; [|discriminate]. rewrite filter_app, Hput1, Hput2. reflexivity.
    + exists new1, (backend_PutObject input env1).2.
      unfold backend_PutObject. cbn [fst snd record history].
      rewrite Hp1, Hh1, <- !app_assoc.
      split; [reflexivity|]. split; [reflexivity|].
      split; [exact Hput1|discriminate].
  - exists [], (backend_PutObject input env).2.
    unfold backend_PutObject. cbn [fst snd record history].
    rewrite app_nil_r. auto.
Qed.

Lemma PutObject_delegates_witness :
  exists pre env',
    PutObject four_by_mib (upload 5) obliging_env
    = Returns (put obliging_env (history obliging_env ++ pre)%list (upload 5), env')
    /\ history env' = (history obliging_env ++ pre ++ [BackendPutObject (upload 5)])%list
    /\ filter is_put pre = []
    /\ (ContentLength (upload 5) = None -> pre = []).
Proof.
  apply (PutObject_delegates four_by_mib (upload 5) obliging_env "bucket" "dir/object");
    reflexivity.
Defined.

(** An upload of 3 MiB with a configured stripe size of 1 MiB is a large
    one: the striping of its directory is set twice. *)
Example PutObject_large_upload :
  PutObject four_by_mib (upload (3 * 1024 * 1024)) obliging_env
  = Returns (true,
             {| stat := stat obliging_env; succeeds := succeeds obliging_env;
                put := put obliging_env;
                history :=
                  [OsStat "bucket/dir";
                   ExecCombinedOutput ["lfs"; "setstripe"; "-c"; "2"; "-S"; "1048576";
                                       "bucket/dir"];
                   OsStat "bucket/dir";
                   ExecCombinedOutput ["lfs"; "setstripe"; "-c"; "2"; "-S"; "1048576";
                                       "bucket/dir"];
                   BackendPutObject (upload (3 * 1024 * 1024))] |}).
Proof. reflexivity. Qed.

(** The stripe count the planner gives is positive and the stripe index
    is left to Lustre, so the command always carries [-c] and never
    [-i]. *)
Lemma setstripe_argv_planned lustreConfig size dir :
  setstripe_argv dir (calculateOptimalStriping lustreConfig size)
  = setstripe_command lustreConfig
      (StripeCount (calculateOptimalStriping lustreConfig size)) dir
  /\ 1 <= StripeCount (calculateOptimalStriping lustreConfig size) <= 8.
Proof.
  assert (Hn : 1 <= StripeCount (calculateOptimalStriping lustreConfig size) <= 8).
  { unfold calculateOptimalStriping. cbn [StripeCount].
    set (base := if (size <? 1 * 1024 * 1024)%Z then 1
                 else if (size <? 100 * 1024 * 1024)%Z then 2
                 else if (size <? 1 * 1024 * 1024 * 1024)%Z then 4 else 8).
    assert (Hbase : 1 <= base <= 8).
    { subst base.
      repeat match goal with
             | |- context [if ?b then _ else _] => destruct b
             end; lia. }
    destruct ((cfg_StripeCount lustreConfig >? 0)
              && (base >? cfg_StripeCount lustreConfig)) eqn:Hcap; [|exact Hbase].
    apply andb_prop in Hcap as [H1 H2]. apply Z.gtb_lt in H1, H2. lia. }
  split; [|exact Hn].
  unfold setstripe_argv, setstripe_command.
  destruct (Z.gtb_spec (StripeCount (calculateOptimalStriping lustreConfig size)) 0);
    [|lia].
  cbn [StripeSize StripeIndex calculateOptimalStriping].
  destruct (cfg_StripeSize lustreConfig >? 0); reflexivity.
Qed.

(** X23: the only commands [PutObject] runs for an object of known size
    are [lfs setstripe -c <count> [-S <stripe size>] <dir>], where
    [count] is the planned stripe count, between 1 and 8, [-S] is given
    when a stripe size is configured, [-i] never, and [dir] is the
    directory of [<bucket>/<key>]; the command runs at most twice, and
    at most once when the size is not above the large-file threshold. *)
Theorem PutObject_setstripe_commands {Out : Type} (lustreConfig : LustreConfig)
    (input : PutObjectInput) (env : Env Out) (bucket key : string) (size : Z) :
  Bucket input = Some bucket ->
  Key input = Some key ->
  ContentLength input = Some size ->
  exists out env' pre k,
    PutObject lustreConfig input env = Returns (out, env')
    /\ history env' = (history env ++ pre ++ [BackendPutObject input])%list
    /\ filter is_exec pre
       = replicate k
           (ExecCombinedOutput
              (setstripe_command lustreConfig
                 (StripeCount (calculateOptimalStriping lustreConfig size))
                 (Dir (Filepath.Join [bucket; key]))))
    /\ (k <= 2)%nat
    /\ (size <= getLargeFileThreshold lustreConfig -> (k <= 1)%nat)
    /\ 1 <= StripeCount (calculateOptimalStriping lustreConfig size) <= 8.
Proof.
  intros Hb Hk Hl. unfold PutObject, putLargeObjectWithStriping. rewrite Hb, Hk, Hl.
  set (info := calculateOptimalStriping lustreConfig size).
  set (dir := Dir (Filepath.Join [bucket; key])).
  destruct (setstripe_argv_planned lustreConfig size dir) as [Hcmd Hn].
  fold info in Hcmd, Hn.
  assert (Hone : forall e : Env Out, exists new k,
             history (ensure_or_warn dir info e) = (history e ++ new)%list
             /\ filter is_exec new
                = replicate k (ExecCombinedOutput (setstripe_command lustreConfig
                                                     (StripeCount info) dir))
             /\ (k <= 1)%nat).
  { intros e.
    destruct (ensure_or_warn_history dir info e) as (_ & _ & _ & new & Hh & _ & Hex).
    exists new. destruct Hex as [Hex|Hex].
    - exists 0%nat. rewrite Hex. auto.
    - exists 1%nat. rewrite Hex, Hcmd. auto. }
  destruct (Hone env) as (new1 & k1 & Hh1 & Hx1 & Hk1).
  set (env1 := ensure_or_warn dir info env) in *.
  destruct (Z.gtb_spec size (getLargeFileThreshold lustreConfig)) as [Hbig|Hsmall].
  - destruct (Hone env1) as (new2 & k2 & Hh2 & Hx2 & Hk2).
    set (env2 := ensure_or_warn dir info env1) in *.
    exists (backend_PutObject input env2).1, (backend_PutObject input env2).2,
           (new1 ++ new2)%list, (k1 + k2)%nat.
    split; [destruct (backend_PutObject input env2); reflexivity|].
    unfold backend_PutObject. cbn [fst snd record history].
    rewrite Hh2, Hh1, <- !app_assoc. split; [reflexivity|].
    rewrite filter_app, Hx1, Hx2, replicate_add.
    split; [reflexivity|]. split; [lia|]. split; [lia|exact Hn].
  - exists (backend_PutObject input env1).1, (backend_PutObject input env1).2, new1, k1.
    split; [destruct (backend_PutObject input env1); reflexivity|].
    unfold backend_PutObject. cbn [fst snd record history].
    rewrite Hh1, <- !app_assoc. split; [reflexivity|].
    split; [exact Hx1|]. split; [lia|]. split; [intros _; exact Hk1|exact Hn].
Qed.

Lemma PutObject_setstripe_commands_witness :
  exists out env' pre k,
    PutObject four_by_mib (upload (3 * 1024 * 1024)) obliging_env = Returns (out, env')
    /\ history env'
       = (history obliging_env ++ pre
          ++ [BackendPutObject (upload (3 * 1024 * 1024))])%list
    /\ filter is_exec pre
       = replicate k
           (ExecCombinedOutput
              (setstripe_command four_by_mib
                 (StripeCount (calculateOptimalStriping four_by_mib (3 * 1024 * 1024)))
                 (Dir (Filepath.Join ["bucket"; "dir/object"]))))
    /\ (k <= 2)%nat
    /\ (3 * 1024 * 1024 <= getLargeFileThreshold four_by_mib -> (k <= 1)%nat)
    /\ 1 <= StripeCount (calculateOptimalStriping four_by_mib (3 * 1024 * 1024)) <= 8.
Proof.
  apply (PutObject_setstripe_commands four_by_mib (upload (3 * 1024 * 1024))
           obliging_env "bucket" "dir/object" (3 * 1024 * 1024)); reflexivity.
Defined.

End PutObjectFacts.

(** ** Mount commands *)

Section MountCommands.
Import Backend RegistrySpec RegistryOps MountSpec.
Local Open Scope string_scope.
Local Arguments constructUserBackend : simpl never.

(** What the constructors add to the trace. *)
Lemma createBackendByType_commands dm config w :
  exists new,
    trace (createBackendByType dm config w).2 = (trace w ++ new)%list
    /\ forall argv, In (Exec argv) new ->
         bare_mount (BackendType config) (MountPoint config) = Some argv.
Proof.
  unfold createBackendByType, bare_mount.
  destruct (String.eqb (BackendType config) "posix") eqn:E1.
  { apply String.eqb_eq in E1. rewrite E1. cbn [String.eqb Ascii.eqb Bool.eqb].
    unfold createPosixBackend, call.
    repeat match goal with
           | |- context [if ?b then _ else _] => destruct b
           end; cbn [snd trace]; rewrite <- ?app_assoc;
      eexists; (split; [reflexivity|]); cbn; intros argv H;
      repeat destruct H as [H|H]; try discriminate; contradiction. }
  destruct (String.eqb (BackendType config) "cephfs") eqn:E2.
  { unfold createCephFSBackend, mountCephFS, createPosixBackend, executeMount, call.
    cbn [zeroCephFSConfig ceph_MonitorAddresses ceph_Username ceph_SecretKey
         ceph_Options ceph_Path length Nat.ltb Nat.leb String.eqb negb orb append app].
    repeat match goal with
           | |- context [if ?b then _ else _] => destruct b
           end; cbn [snd trace]; rewrite <- ?app_assoc;
      eexists; (split; [reflexivity|]); cbn; intros argv H;
      repeat destruct H as [H|H]; try discriminate; try contradiction;
      injection H as <-; reflexivity. }
  destruct (String.eqb (BackendType config) "nfs") eqn:E3.
  { unfold createNFSBackend, mountNFS, createPosixBackend, executeMount, call.
    cbn [zeroNFSConfig nfs_ServerAddress nfs_ExportPath nfs_Version nfs_Options
         length Nat.ltb Nat.leb String.eqb negb orb append app String.append].
    repeat match goal with
           | |- context [if ?b then _ else _] => destruct b
           end; cbn [snd trace]; rewrite <- ?app_assoc;
      eexists; (split; [reflexivity|]); cbn; intros argv H;
      repeat destruct H as [H|H]; try discriminate; try contradiction;
      injection H as <-; reflexivity. }
  destruct (String.eqb (BackendType config) "lustre") eqn:E4.
  { unfold createLustreBackend, mountLustre, createLustreEnhancedBackend,
      executeMount, call.
    cbn [zeroLustreConfig lustre_MGSNodes lustre_FileSystem lustre_Options
         length Nat.ltb Nat.leb String.eqb negb orb append app].
    repeat match goal with
           | |- context [if ?b then _ else _] => destruct b
           end; cbn [snd trace]; rewrite <- ?app_assoc;
      eexists; (split; [reflexivity|]); cbn; intros argv H;
      repeat destruct H as [H|H]; try discriminate; try contradiction;
      injection H as <-; reflexivity. }
  unfold createMinIOBackend, createRustFSBackend, call.
  repeat match goal with
         | |- context [if ?b then _ else _] => destruct b
         end; cbn [snd trace]; rewrite <- ?app_assoc;
    try (exists []; rewrite app_nil_r; split; [reflexivity|]; intros argv []);
    eexists; (split; [reflexivity|]); cbn; intros argv H;
    repeat destruct H as [H|H]; try discriminate; contradiction.
Qed.

(** X24: the only commands [GetUserBackend] runs are bare mount
    commands: each is [mount -t ceph <mount point>],
    [mount -t nfs : <mount point>] or [mount -t lustre <mount point>]
    for the type and mount point of the user's record.  No command
    names a server, an export, a file system or an option, since the
    typed configuration is never filled in from the tenant's; a posix,
    minio or rustfs tenant causes no command at all. *)
Theorem GetUserBackend_mount_command (dm : DynamicBackendManager) (userID : string)
    (w : World) (r : Backend + error) (dm' : DynamicBackendManager) (w' : World) :
  GetUserBackend dm userID w = Returns (r, dm', w') ->
  exists new,
    trace w' = (trace w ++ new)%list
    /\ forall argv, In (Exec argv) new ->
         exists c, userConfigs dm' !! userID = Some c
                   /\ bare_mount (BackendType c) (MountPoint c) = Some argv.
Proof.
  unfold GetUserBackend, createUserBackend, updateLastAccessed.
  destruct (userBackends dm !! userID) as [b0|] eqn:Hb.
  { intros [= _ _ <-]. exists []. rewrite app_nil_r. split; [reflexivity|].
    intros argv []. }
  unfold constructUserBackend.
  set (fetched := match Auth.GetUserStorageConfig (multiTenantManager dm) userID with
                  | inl sc0 => _ | inr _ => _ end).
  destruct fetched as [[x dm1]| |]; try discriminate. cbn [obind].
  destruct x as [sc|e].
  2:{ intros [= _ _ <-]. exists []. rewrite app_nil_r. split; [reflexivity|].
      intros argv []. }
  match goal with
  | |- context [createBackendByType ?d ?c ?w0] =>
      destruct (createBackendByType_commands d c w0) as (new & Ht & Hnew);
      pose proof (createBackendByType_frame d c w0) as (_ & Fc & _);
      destruct (createBackendByType d c w0) as [[r2 dm2] w2]
  end.
  cbn [fst snd BackendType MountPoint userConfigs set_userConfigs] in Ht, Hnew, Fc.
  assert (Hl : userConfigs dm2 !! userID
               = Some (record_of userID sc BackendStatusPending)).
  { rewrite Fc. apply lookup_insert_eq. }
  intros Hret.
  destruct r2 as [b|e]; injection Hret as _ <- <-; exists new; (split; [exact Ht|]);
    intros argv Hin; unfold set_status; cbn [userConfigs set_userBackends];
    rewrite Hl; cbn [userConfigs set_userConfigs set_userBackends];
    rewrite lookup_insert_eq; eexists; (split; [reflexivity|]);
    cbn [with_status record_of BackendType MountPoint]; exact (Hnew argv Hin).
Qed.

Lemma GetUserBackend_mount_command_witness :
  exists new,
    trace {| oracle := oracle working_world;
             trace := [MkdirAll "/data/users/t1/storage";
                       Exec ["mount"; "-t"; "nfs"; ":"; "/data/users/t1/storage"];
                       MkdirAll "/data/users/t1/storage";
                       PosixNew "/data/users/t1/storage"] |}
    = (trace working_world ++ new)%list
    /\ forall argv, In (Exec argv) new ->
         exists c, userConfigs mounted_registry !! "t1" = Some c
                   /\ bare_mount (BackendType c) (MountPoint c) = Some argv.
Proof.
  apply (GetUserBackend_mount_command
           (NewDynamicBackendManager base_config (tenant_manager "nfs")) "t1"
           working_world (inl (PosixBackend "/data/users/t1/storage"))).
  vm_compute. reflexivity.
Defined.

End MountCommands.
